(** * CopIt: the scraper-to-catalog pipeline

    A shallow embedding of [server/src/scrapers/backmarket.js], of
    [server/src/scrapers/index.js] (the runner [runScrapers] and the
    stand-alone Newegg script shipped in the same file) and of
    [server/src/models/product.js] (the unique index and the hook that
    recomputes the rating fields before a save), followed by their
    properties.

    Conventions of the embedding:
    - a JavaScript object or a stored document is a finite map from property
      names to values ([gmap string value]); object spread and the store's
      field-wise update are map unions;
    - [null] and [undefined] are one value, [VNull]: the code only ever tests
      them with [!], [||], [&&] and [?.], which do not tell them apart, and
      the driver serialises [undefined] as [null];
    - numbers are IEEE-754 binary64 values ([spec_float] at precision 53);
    - a string is a sequence of characters with a code below 256, one per
      code unit of the JavaScript string (the Latin-1 range); a page whose
      text has other characters is outside the model;
    - asynchronous code runs one step at a time, so an [async] function is a
      state transformer that either returns or throws;
    - the outside world (browser, web pages, store failures, clock) is an
      oracle [Env], asked at the logical time of each call. *)

From Stdlib Require Import ZArith NArith String Ascii List Floats.SpecFloat.
From stdpp Require Import base option list gmap strings pretty.

Open Scope Z_scope.

(** ** Text *)

Module Text.

Definition is_digit (c : ascii) : bool :=
  match Ascii.is_nat c with Some _ => true | None => false end.

(** The characters kept by [replace(/[^0-9.]/g, '')]. *)
Definition is_numeric_char (c : ascii) : bool :=
  is_digit c || Ascii.eqb c ".".

(** [text.replace(/[^0-9.]/g, '')] *)
Fixpoint strip_non_numeric (s : string) : string :=
  match s with
  | EmptyString => EmptyString
  | String c s' =>
      if is_numeric_char c then String c (strip_non_numeric s')
      else strip_non_numeric s'
  end.

(** The white space and the line terminators of the language, among the
    characters below 256: tab, line feed, vertical tab, form feed, carriage
    return (9 to 13), the space (32) and the no-break space (160). *)
Definition is_white_space (c : ascii) : bool :=
  let n := N_of_ascii c in
  ((9 <=? n) && (n <=? 13) || (n =? 32) || (n =? 160))%N.

Fixpoint trim_start (s : string) : string :=
  match s with
  | EmptyString => EmptyString
  | String c s' => if is_white_space c then trim_start s' else s
  end.

(** [s.trim()]: the white space at both ends is removed. *)
Definition trim (s : string) : string :=
  String.rev (trim_start (String.rev (trim_start s))).

(** [s.split(sep)] for a one-character separator: never empty. *)
Fixpoint split (sep : ascii) (s : string) : list string :=
  match s with
  | EmptyString => [EmptyString]
  | String c s' =>
      if Ascii.eqb c sep then EmptyString :: split sep s'
      else match split sep s' with
           | w :: ws => String c w :: ws
           | [] => [String c EmptyString]
           end
  end.

End Text.

(** ** Numbers *)

Module Num.

Definition prec : Z := 53.
Definition emax : Z := 1024.

Definition NaN : spec_float := S754_nan.
Definition zero : spec_float := S754_zero false.

(** The binary64 value nearest to [m / 10^k], ties to even: one correctly
    rounded division of the two integers. *)
Definition of_decimal (m : N) (k : nat) : spec_float :=
  match m with
  | N0 => zero
  | Npos p =>
      SFdiv prec emax (S754_finite false p 0)
                      (S754_finite false (Z.to_pos (10 ^ Z.of_nat k)) 0)
  end.

(** The longest run of decimal digits at the head of [s]: the number read
    so far, how many digits were read, and the rest of the text. *)
Fixpoint read_digits (acc : N) (n : nat) (s : string) : N * nat * string :=
  match s with
  | EmptyString => (acc, n, s)
  | String c s' =>
      match Ascii.is_nat c with
      | Some d => read_digits (10 * acc + N.of_nat d)%N (S n) s'
      | None => (acc, n, s)
      end
  end.

(** [parseFloat(s)] on the texts that reach it in the scrapers, which hold
    digits and decimal points only: the longest prefix of the form
    [digits], [digits.digits], [digits.] or [.digits] is the number, and
    a text with no such prefix is [NaN]. *)
Definition parseFloat (s : string) : spec_float :=
  let '(ip, ni, rest) := read_digits 0 0 s in
  let '(m, nf) :=
    match rest with
    | String "." rest' => let '(m, nf, _) := read_digits ip 0 rest' in (m, nf)
    | _ => (ip, 0%nat)
    end in
  if Nat.eqb (ni + nf) 0 then NaN else of_decimal m nf.

(** The binary64 value nearest to an integer. *)
Definition of_Z (z : Z) : spec_float := binary_normalize prec emax z 0 false.

(** [parseInt(s, 10)]: white space, an optional sign, then the longest run
    of digits; [NaN] when there is no digit. *)
Definition parseInt (s : string) : spec_float :=
  let s := Text.trim_start s in
  let '(neg, s) :=
    match s with
    | String "-" s' => (true, s')
    | String "+" s' => (false, s')
    | _ => (false, s)
    end in
  let '(n, digits, _) := read_digits 0 0 s in
  if Nat.eqb digits 0 then NaN
  else if neg then
    match n with N0 => S754_zero true | _ => of_Z (- Z.of_N n) end
  else of_Z (Z.of_N n).

(** [x > 0] *)
Definition gt_zero (x : spec_float) : bool := SFltb zero x.

(** JavaScript truthiness of a number: neither zero nor [NaN]. *)
Definition truthy (x : spec_float) : bool :=
  match x with
  | S754_zero _ | S754_nan => false
  | _ => true
  end.

End Num.

(** ** Values, objects and documents *)

Global Instance spec_float_eq_dec : EqDecision spec_float.
Proof. solve_decision. Defined.

Inductive value :=
| VNull                              (* null, undefined *)
| VNum (x : spec_float)
| VStr (s : string)
| VDate (ms : Z)
| VArr (l : list string)             (* an array of strings *)
| VObj (o : gmap string string).     (* a plain object of strings *)

Global Instance value_eq_dec : EqDecision value.
Proof. solve_decision. Defined.

Abbreviation Doc := (gmap string value).

(** [o.k]: a property that is not there reads as [undefined]. *)
Definition prop (o : Doc) (k : string) : value := default VNull (o !! k).

(** What [!v], [v || w] and [v && w] test. *)
Definition truthy (v : value) : bool :=
  match v with
  | VNull => false
  | VNum x => Num.truthy x
  | VStr s => negb (String.eqb s "")
  | VDate _ | VArr _ | VObj _ => true
  end.

(** [e?.innerText.trim()] for an element that may be missing. *)
Definition trimmed_text (e : option string) : value :=
  from_option (λ t, VStr (Text.trim t)) VNull e.

(** ** The pages the browser shows *)

(** One entry of the Newegg deals grid, as the selectors of the script see
    it.  The rating badge only feeds the description text, through a number
    formatted as text: it is kept as the text the template prints for it.
    The discount badge's data-original-price and the extraction time stamp
    are read by the script and never used. *)
Record NeweggItem := {
  item_title : option string;          (* .product-title, textContent *)
  item_price : option string;          (* .price-current, textContent *)
  item_image : option string;          (* .product-img img, src *)
  item_url : option string;            (* a, href *)
  item_rating : string;                (* .rating, as the template prints it *)
  item_shipping : option (option string * option string);
                                       (* .shipping-info: price, method *)
  item_stock : option (string * option string);
                                       (* .stock-status: text, data-stock *)
  item_discount : option string;       (* .discount-badge, textContent *)
  item_category : option string;       (* .product-category *)
  item_brand : option string           (* .product-brand *)
}.

(** A loaded page, as the fixed selectors of the two scrapers see it. *)
Record Dom := {
  product_title : option string;       (* [data-test="product-title"] *)
  price_text : option string;          (* [data-test="price"], innerText *)
  original_price_text : option string; (* [data-test="original-price"] *)
  product_description : option string; (* [data-test="product-description"] *)
  product_images : list string;        (* src of each [data-test="product-image"] *)
  product_brand : option string;       (* [data-test="product-brand"] *)
  specs_list : list string;            (* innerText of each specs-list li *)
  add_to_cart : bool;                  (* is there an [data-test="add-to-cart"] *)
  product_cards : list string;         (* href of each product-card anchor *)
  product_grid : option (list NeweggItem)  (* .product-grid .product-item *)
}.

(** ** The world *)

Inductive error :=
| Error (msg : string)                 (* new Error(msg) *)
| TypeError                            (* a method of [undefined] *)
| LaunchError                          (* puppeteer.launch rejected *)
| NavigationError (url : string)       (* page.goto rejected *)
| SelectorTimeout                      (* page.waitForSelector rejected *)
| ConnectError                         (* mongoose.connect rejected *)
| StoreError                           (* validation or transient store failure *)
| DuplicateKeyError.                   (* the unique index refused the write *)

Inductive Event :=
| Launch (handle : option nat)         (* puppeteer.launch; None: rejected *)
| BrowserClose (handle : nat)          (* browser.close() *)
| NewPage                              (* browser.newPage() *)
| Goto (url : string) (ok : bool)      (* page.goto(url) *)
| PageClose                            (* page.close() *)
| FindOneAndUpdate (filter update : Doc) (ok : bool)
| Connect (ok : bool)                  (* mongoose.connect(...) *)
| Disconnect                           (* mongoose.disconnect() *)
| LogInfo (msg : string)               (* logger.info, console.log *)
| LogError (msg : string) (e : error)  (* logger.error, console.error *)
| LogErrors (msg : string) (errors : list (value * error)).

Global Instance error_eq_dec : EqDecision error.
Proof. solve_decision. Defined.

Global Instance Event_eq_dec : EqDecision Event.
Proof. solve_decision. Defined.

(** What the outside answers; the [nat] is the logical time of the call,
    the number of events so far. *)
Record Env := {
  launch_ok : nat → bool;
  navigate : nat → string → option Dom;       (* None: the navigation fails *)
  store_rejects : nat → Doc → Doc → bool;     (* filter, update *)
  connect_ok : nat → bool;
  Date_now : nat → Z;
  BACKMARKET_BASE_URL : option string
}.

Record State := {
  this_browser : option nat;           (* the scraper object's [browser] field *)
  store : list Doc;                    (* the products collection *)
  trace : list Event                   (* newest event first *)
}.

Definition now (s : State) : nat := length (trace s).

Definition emit (e : Event) (s : State) : State :=
  {| this_browser := this_browser s; store := store s; trace := e :: trace s |}.

(** ** Asynchronous code: state and exceptions *)

Inductive outcome (A : Type) :=
| Return (a : A)
| Throw (e : error).
Arguments Return {A} a.
Arguments Throw {A} e.

Definition M (A : Type) : Type := State → outcome A * State.

Global Instance M_ret : MRet M := λ A a s, (Return a, s).
Global Instance M_bind : MBind M := λ A B f m s,
  match m s with
  | (Return a, s') => f a s'
  | (Throw e, s') => (Throw e, s')
  end.

Definition throw {A} (e : error) : M A := λ s, (Throw e, s).
Definition log (e : Event) : M unit := λ s, (Return (), emit e s).

(** [try { m } catch (error) { h error }] *)
Definition try_catch {A} (m : M A) (h : error → M A) : M A := λ s,
  match m s with
  | (Return a, s') => (Return a, s')
  | (Throw e, s') => h e s'
  end.

(** [try { m } finally { f }] *)
Definition try_finally {A} (m : M A) (f : M unit) : M A := λ s,
  let '(r, s') := m s in
  match f s' with
  | (Return _, s'') => (r, s'')
  | (Throw e, s'') => (Throw e, s'')
  end.

(** [for (const x of xs) { body x }] *)
Fixpoint for_of {A} (xs : list A) (body : A → M unit) : M unit :=
  match xs with
  | [] => mret ()
  | x :: xs' => body x ;; for_of xs' body
  end.

(** The same loop around local arrays that the body may push to. *)
Fixpoint for_of_acc {A S} (xs : list A) (acc : S)
    (body : A → S → M S) : M S :=
  match xs with
  | [] => mret acc
  | x :: xs' => acc' ← body x acc; for_of_acc xs' acc' body
  end.

(** ** The persistent store *)

(** The products collection is the list of its documents, in insertion
    order.  The model has what the scrapers rely on: equality filters, the
    field-wise update of the first match, the insert of [upsert: true], and
    the unique index of the schema.  Casting, validation and transient
    failures are the environment's [store_rejects]; the fields the store
    library maintains by itself (the internal identifier, defaults, the
    automatic timestamps) are not in the documents of the model. *)

Module Store.

(** [productSchema.index({ source: 1, sourceId: 1 }, { unique: true })]:
    the pair the unique index is built on; a missing field is indexed as
    [null]. *)
Definition index_key (d : Doc) : value * value :=
  (prop d "source", prop d "sourceId").

(** An equality filter: every field of the filter has that value in the
    document ([null] also matches a missing field). *)
Definition matches (filter d : Doc) : bool :=
  bool_decide (map_Forall (λ k v, prop d k = v) filter).

(** The first matching document, with the documents before and after. *)
Fixpoint findOne (filter : Doc) (docs : list Doc)
    : option (list Doc * Doc * list Doc) :=
  match docs with
  | [] => None
  | d :: rest =>
      if matches filter d then Some ([], d, rest)
      else match findOne filter rest with
           | Some (pre, x, post) => Some (d :: pre, x, post)
           | None => None
           end
  end.

(** The write of [findOneAndUpdate(filter, update, { upsert: true })]:
    the fields of [update] are set on the first matching document, or on
    a new document made of the filter's fields when there is none.  The
    result is the documents left alone before it, the document written,
    and the documents left alone after it. *)
Definition write (filter update : Doc) (docs : list Doc)
    : list Doc * Doc * list Doc :=
  match findOne filter docs with
  | Some (pre, old, post) => (pre, update ∪ old, post)
  | None => (docs, update ∪ filter, [])
  end.

(** Does the unique index refuse the written document? *)
Definition collides (d : Doc) (others : list Doc) : bool :=
  bool_decide (index_key d ∈ index_key <$> others).

(** The documents stored under a key of the unique index. *)
Definition under_key (source sourceId : value) (docs : list Doc) : list Doc :=
  filter (λ d, index_key d = (source, sourceId)) docs.

(** The invariant the unique index keeps. *)
Definition unique (docs : list Doc) : Prop := NoDup (index_key <$> docs).

End Store.

(** ** What the scrapers call *)

Section Capabilities.

Context (env : Env).

(** [Product.findOneAndUpdate(filter, update, { upsert: true, new: true })] *)
Definition findOneAndUpdate (filter update : Doc) : M Doc := λ s,
  let '(pre, d, post) := Store.write filter update (store s) in
  if store_rejects env (now s) filter update then
    (Throw StoreError, emit (FindOneAndUpdate filter update false) s)
  else if Store.collides d (pre ++ post) then
    (Throw DuplicateKeyError, emit (FindOneAndUpdate filter update false) s)
  else
    (Return d,
     {| this_browser := this_browser s;
        store := pre ++ d :: post;
        trace := FindOneAndUpdate filter update true :: trace s |}).

(** [Date.now()] *)
Definition DateNow : M Z := λ s, (Return (Date_now env (now s)), s).

(** [browser.newPage()] *)
Definition newPage : M unit := log NewPage.

(** [page.goto(url, ...)], giving the page it loaded. *)
Definition goto (url : string) : M Dom := λ s,
  match navigate env (now s) url with
  | Some dom => (Return dom, emit (Goto url true) s)
  | None => (Throw (NavigationError url), emit (Goto url false) s)
  end.

(** [puppeteer.launch(...)], giving the handle of the new browser. *)
Definition launch : M nat := λ s,
  if launch_ok env (now s) then (Return (now s), emit (Launch (Some (now s))) s)
  else (Throw LaunchError, emit (Launch None) s).

End Capabilities.

(** ** The Backmarket scraper ([class BackmarketScraper]) *)

Module Backmarket.
Section Scraper.

Context (env : Env).

Definition baseUrl : string :=
  match BACKMARKET_BASE_URL env with
  | Some u => if String.eqb u "" then "https://www.backmarket.com" else u
  | None => "https://www.backmarket.com"
  end.

(** [this.categories]: name and url of each. *)
Definition categories : list (string * string) :=
  [ ("Smartphones", "/us/en-us/c/smartphones");
    ("Laptops", "/us/en-us/c/laptops");
    ("Tablets", "/us/en-us/c/tablets") ].

Definition initialize : M unit := λ s,
  match launch env s with
  | (Return h, s') =>
      (Return (), {| this_browser := Some h; store := store s'; trace := trace s' |})
  | (Throw e, s') => (Throw e, s')
  end.

Definition close : M unit := λ s,
  match this_browser s with
  | Some h => (Return (), emit (BrowserClose h) s)
  | None => (Return (), s)
  end.

(** [this.browser.newPage()] *)
Definition this_browser_newPage : M unit := λ s,
  match this_browser s with
  | Some _ => newPage s
  | None => (Throw TypeError, s)
  end.

Definition getPrice (dom : Dom) : value :=
  match price_text dom with
  | None => VNull
  | Some innerText => VNum (Num.parseFloat (Text.strip_non_numeric innerText))
  end.

Definition getOriginalPrice (dom : Dom) : value :=
  match original_price_text dom with
  | None => VNull
  | Some innerText => VNum (Num.parseFloat (Text.strip_non_numeric innerText))
  end.

Definition getImages (dom : Dom) : list string :=
  filter (λ src, src ≠ "") (product_images dom).

Definition getSpecs (dom : Dom) : gmap string string :=
  foldl (λ specs text,
           match Text.trim <$> Text.split ":" text with
           | key :: value :: _ =>
               if negb (String.eqb key "") && negb (String.eqb value "")
               then <[key := value]> specs else specs
           | _ => specs
           end) ∅ (specs_list dom).

(** The object built by the script of [page.evaluate] in [scrapeProduct]. *)
Definition evaluate_product (dom : Dom) : Doc :=
  list_to_map
    [ ("name", trimmed_text (product_title dom));
      ("price", getPrice dom);
      ("originalPrice", getOriginalPrice dom);
      ("description", trimmed_text (product_description dom));
      ("images", VArr (getImages dom));
      ("brand", trimmed_text (product_brand dom));
      ("specifications", VObj (getSpecs dom));
      ("stock", VNum (Num.of_decimal (if add_to_cart dom then 1 else 0) 0)) ].

(** [url.split('/').pop().split('?')[0]] *)
Definition sourceId_of (url : string) : string :=
  hd "" (Text.split "?" (List.last (Text.split "/" url) "")).

Definition scrapeProduct (url : string) : M Doc :=
  try_catch
    (this_browser_newPage;;
     dom ← goto env url;
     let product := evaluate_product dom in
     if negb (truthy (prop product "name")) || negb (truthy (prop product "price"))
     then throw (Error "Required product data missing")
     else
       let product := <["source" := VStr "Backmarket"]> product in
       let product := <["sourceUrl" := VStr url]> product in
       let product := <["sourceId" := VStr (sourceId_of url)]> product in
       log PageClose;;
       mret product)
    (λ error,
       log (LogError ("Error scraping product from " +:+ url +:+ ":") error);;
       throw error).

(** The script of [page.evaluate] in [scrapeCategory]. *)
Definition collect_links (limit : Z) (hrefs : list string) : list string :=
  foldl (λ links href,
           if (Z.of_nat (length links) <? limit) && negb (String.eqb href "")
           then links ++ [href] else links) [] hrefs.

(** The body of the loop over [productLinks] in [scrapeCategory]. *)
Definition each_link (link : string) (products : list Doc) : M (list Doc) :=
  try_catch
    (product ← scrapeProduct link;
     mret (products ++ [product]))
    (λ error,
       log (LogError ("Error scraping product " +:+ link +:+ ":") error);;
       mret products).

Definition scrapeCategory (categoryUrl : string) (limit : Z) : M (list Doc) :=
  try_catch
    (this_browser_newPage;;
     dom ← goto env (baseUrl +:+ categoryUrl);
     let productLinks := collect_links limit (product_cards dom) in
     log PageClose;;
     for_of_acc productLinks [] each_link)
    (λ error,
       log (LogError ("Error scraping category " +:+ categoryUrl +:+ ":") error);;
       throw error).

(** [`${productData.name}`]; the name of an extracted product is a string. *)
Definition name_text (productData : Doc) : string :=
  match prop productData "name" with VStr s => s | _ => "undefined" end.

(** The filter and the update of the upsert in [scrapeAndSave]. *)
Definition sync_filter (productData : Doc) : Doc :=
  list_to_map [ ("source", VStr "Backmarket");
                ("sourceId", prop productData "sourceId") ].

Definition sync_update (category : string) (productData : Doc) (t : Z) : Doc :=
  <["updatedAt" := VDate t]> (<["category" := VStr category]> productData).

(** The body of the inner loop of [scrapeAndSave]. *)
Definition save (category : string) (productData : Doc) : M unit :=
  try_catch
    (t ← DateNow env;
     findOneAndUpdate env (sync_filter productData)
                      (sync_update category productData t);;
     mret ())
    (λ error,
       log (LogError ("Error saving product " +:+ name_text productData +:+ ":")
                     error)).

(** The body of the loop over [this.categories] in [scrapeAndSave]. *)
Definition each_category (category : string * string) : M unit :=
  log (LogInfo ("Scraping category: " +:+ category.1));;
  products ← scrapeCategory category.2 10;
  for_of products (save category.1);;
  log (LogInfo ("Completed scraping " +:+ pretty (length products)
                +:+ " products from " +:+ category.1)).

Definition scrapeAndSave : M unit :=
  try_finally
    (try_catch
       (initialize;;
        for_of categories each_category)
       (λ error, log (LogError "Error in scraping process:" error)))
    close.

End Scraper.
End Backmarket.

(** ** The stand-alone Newegg script ([scrapeNewegg]) *)

Module Newegg.
Section Script.

Context (env : Env).

(** The object built for one grid item by the script of [page.evaluate]. *)
Record Product := {
  name : option string;
  price : spec_float;
  image : option string;
  url : option string;
  rating : string;
  shipping : option (option string * option string);   (* price, method *)
  stock : option (string * spec_float);                (* status, quantity *)
  discount : option string;                            (* percentage *)
  category : option string;
  brand : option string
}.

(** [text || fallback] for a text that may be [undefined]. *)
Definition text_or (text : option string) (fallback : string) : string :=
  match text with
  | Some t => if String.eqb t "" then fallback else t
  | None => fallback
  end.

(** [!!text] *)
Definition present (text : option string) : bool :=
  match text with
  | Some t => negb (String.eqb t "")
  | None => false
  end.

(** [parseFloat(price?.replace(/[^0-9.]/g, '') || '0')] where [price] is
    the trimmed text of the price element. *)
Definition extract_price (priceElement : option string) : spec_float :=
  Num.parseFloat
    (text_or (Text.strip_non_numeric <$> (Text.trim <$> priceElement)) "0").

Definition extract (item : NeweggItem) : Product :=
  {| name := Text.trim <$> item_title item;
     price := extract_price (item_price item);
     image := item_image item;
     url := item_url item;
     rating := item_rating item;
     shipping :=
       match item_shipping item with
       | Some (p, m) => Some (Text.trim <$> p, Text.trim <$> m)
       | None => None
       end;
     stock :=
       match item_stock item with
       | Some (status, data_stock) =>
           Some (Text.trim status, Num.parseInt (text_or data_stock "0"))
       | None => None
       end;
     discount := Text.trim <$> item_discount item;
     category := Text.trim <$> item_category item;
     brand := Text.trim <$> item_brand item |}.

(** [Array.from(items).map(...).filter(product => product.name && product.price > 0)] *)
Definition evaluate_products (items : list NeweggItem) : list Product :=
  filter (λ product, present (name product) && Num.gt_zero (price product) = true)
         (extract <$> items).

Definition nl : string := String "010" "".

Definition description (product : Product) : string :=
  "Brand: " +:+ text_or (brand product) "Unknown" +:+ nl +:+
  "Category: " +:+ text_or (category product) "Unknown" +:+ nl +:+
  "Rating: " +:+ rating product +:+ nl +:+
  "Shipping: " +:+ text_or (shipping product ≫= snd) "N/A" +:+ " - "
               +:+ text_or (shipping product ≫= fst) "N/A" +:+ nl +:+
  "Stock: " +:+ text_or (fst <$> stock product) "Unknown" +:+ nl +:+
  "Discount: " +:+ text_or (discount product) "None".

Definition opt_text (text : option string) : value :=
  from_option VStr VNull text.

(** The filter and the update of the upsert of the script.  The update is
    only built for a product with an image, so [images] is a one-element
    array. *)
Definition sync_filter (product : Product) : Doc :=
  {[ "sourceUrl" := opt_text (url product) ]}.

Definition sync_update (product : Product) (t : Z) : Doc :=
  list_to_map
    [ ("name", opt_text (name product));
      ("price", VNum (price product));
      ("images", VArr (from_option (λ i, [i]) [] (image product)));
      ("source", VStr "newegg");
      ("sourceUrl", opt_text (url product));
      ("description", VStr (description product));
      ("category", VStr (text_or (category product) "Other"));
      ("brand", VStr (text_or (brand product) "Unknown"));
      ("stock", VNum (match stock product with
                      | Some (_, quantity) =>
                          if Num.truthy quantity then quantity else Num.zero
                      | None => Num.zero
                      end));
      ("lastUpdated", VDate t) ].

(** The body of the saving loop; the two local arrays are the state. *)
Definition save (product : Product)
    (arrays : list Doc * list (value * error))
    : M (list Doc * list (value * error)) :=
  let '(savedProducts, errors) := arrays in
  try_catch
    (if present (name product) && Num.truthy (price product)
        && present (image product)
     then
       t ← DateNow env;
       savedProduct ← findOneAndUpdate env (sync_filter product)
                                       (sync_update product t);
       mret (savedProducts ++ [savedProduct], errors)
     else mret (savedProducts, errors))
    (λ error,
       mret (savedProducts, errors ++ [(opt_text (name product), error)])).

(** [mongoose.connect(...)] *)
Definition connect : M unit := λ s,
  if connect_ok env (now s) then (Return (), emit (Connect true) s)
  else (Throw ConnectError, emit (Connect false) s).

(** [page.waitForSelector('.product-grid', ...)] *)
Definition waitForGrid (dom : Dom) : M (list NeweggItem) :=
  match product_grid dom with
  | Some items => mret items
  | None => throw SelectorTimeout
  end.

Definition scrapeNewegg : M unit :=
  browser ← launch env;
  try_finally
    (try_catch
       (newPage;;
        dom ← goto env "https://www.newegg.com/promotions/newegg-deals";
        items ← waitForGrid dom;
        let products := evaluate_products items in
        connect;;
        '(savedProducts, errors) ← for_of_acc products ([], []) save;
        log (LogInfo ("Scraped " +:+ pretty (length products)
                      +:+ " products from Newegg"));;
        log (LogInfo ("Successfully saved " +:+ pretty (length savedProducts)
                      +:+ " products"));;
        if decide (errors = []) then mret ()
        else log (LogErrors "Errors during product saving:" errors))
       (λ error,
          log (LogError "Error scraping Newegg:" error);;
          throw error))
    (log (BrowserClose browser);;
     log Disconnect).

End Script.
End Newegg.

(** ** What a computation adds to the trace *)

(** The calls of one kind in a trace, oldest first. *)
Definition syncs (tr : list Event) : list (Doc * Doc * bool) :=
  omap (λ e, match e with
             | FindOneAndUpdate f u ok => Some (f, u, ok)
             | _ => None
             end) (rev tr).

Definition navigations (tr : list Event) : list string :=
  omap (λ e, match e with Goto url _ => Some url | _ => None end) (rev tr).

Definition launched (tr : list Event) : list nat :=
  omap (λ e, match e with Launch (Some h) => Some h | _ => None end) (rev tr).

Definition closed (tr : list Event) : list nat :=
  omap (λ e, match e with BrowserClose h => Some h | _ => None end) (rev tr).

(** [s'] is [s] after some more events, all of them in [Q]. *)
Definition added (Q : Event → Prop) (s s' : State) : Prop :=
  ∃ evs, trace s' = evs ++ trace s ∧ Forall Q evs.

(** Every event [m] adds is in [Q], and what it returns is in [P]. *)
Definition emits {A} (Q : Event → Prop) (P : A → Prop) (m : M A) : Prop :=
  ∀ s, added Q s (m s).2 ∧
       match (m s).1 with Return a => P a | Throw _ => True end.

(** [m] leaves the scraper's browser field alone. *)
Definition keeps_browser {A} (m : M A) : Prop :=
  ∀ s, this_browser (m s).2 = this_browser s.

(** [m] leaves the store alone. *)
Definition keeps_store {A} (m : M A) : Prop :=
  ∀ s, store (m s).2 = store s.

(** [m] catches what it throws. *)
Definition returns {A} (m : M A) : Prop :=
  ∀ s, ∃ a, (m s).1 = Return a.

(** The events of browsing and logging. *)
Definition browsing (e : Event) : Prop :=
  match e with
  | NewPage | Goto _ _ | PageClose | LogInfo _ | LogError _ _ | LogErrors _ _ => True
  | _ => False
  end.

(** A freshly constructed scraper in front of a catalog. *)
Definition fresh (docs : list Doc) : State :=
  {| this_browser := None; store := docs; trace := [] |}.

(** A listing as [scrapeProduct] hands it on: name and price are there, and
    it carries the source tag and a source-native identifier. *)
Definition listing (p : Doc) : Prop :=
  truthy (prop p "name") = true ∧ truthy (prop p "price") = true ∧
  p !! "source" = Some (VStr "Backmarket") ∧
  ∃ sid, p !! "sourceId" = Some (VStr sid).

(** The events a Backmarket run may add when every upsert carries a name
    and a price. *)
Definition sync_has_name_and_price (e : Event) : Prop :=
  match e with
  | FindOneAndUpdate _ update _ =>
      truthy (prop update "name") = true ∧ truthy (prop update "price") = true
  | _ => True
  end.

(** The store takes the upsert of [p] made in state [s]: neither validation
    nor a transient failure rejects it. *)
Definition accepts (env : Env) (category : string) (p : Doc) (s : State) : Prop :=
  store_rejects env (now s) (Backmarket.sync_filter p)
    (Backmarket.sync_update category p (Date_now env (now s))) = false.

(** The events between the launch of the browser and its close. *)
Definition inside_run (e : Event) : Prop :=
  match e with
  | Launch _ | BrowserClose _ => False
  | _ => True
  end.

(** The state of the scraper right after a successful [initialize]. *)
Definition launched_from (s : State) : State :=
  {| this_browser := Some (now s); store := store s;
     trace := Launch (Some (now s)) :: trace s |}.

(** ** Concrete worlds *)

Module Examples.

(** A product page with a title, a price, an original price and images. *)
Definition page (title price original : option string) (images : list string)
    : Dom :=
  {| product_title := title; price_text := price;
     original_price_text := original;
     product_description := Some "Refurbished, unlocked";
     product_images := images; product_brand := Some "Apple";
     specs_list := ["RAM: 16GB"; "WarrantyNoColon"; "Storage: 512GB"];
     add_to_cart := true; product_cards := []; product_grid := None |}.

(** A category page with the product cards' links. *)
Definition cards (hrefs : list string) : Dom :=
  {| product_title := None; price_text := None; original_price_text := None;
     product_description := None; product_images := []; product_brand := None;
     specs_list := []; add_to_cart := false; product_cards := hrefs;
     product_grid := None |}.

(** The Newegg deals page with its grid. *)
Definition deals (items : list NeweggItem) : Dom :=
  {| product_title := None; price_text := None; original_price_text := None;
     product_description := None; product_images := []; product_brand := None;
     specs_list := []; add_to_cart := false; product_cards := [];
     product_grid := Some items |}.

Definition item (title price image url : option string) : NeweggItem :=
  {| item_title := title; item_price := price; item_image := image;
     item_url := url; item_rating := "4.5 (12 reviews)";
     item_shipping := Some (Some "Free", Some "Standard");
     item_stock := Some ("In stock", Some "7");
     item_discount := None; item_category := Some "Laptops";
     item_brand := Some "Acme" |}.

(** A web site: the pages that load, by url; any other navigation fails. *)
Definition site (pages : list (string * Dom)) (url : string) : option Dom :=
  snd <$> List.find (λ x, String.eqb x.1 url) pages.

(** A world where the browser starts, the site does not change during the
    run, and the store rejects the updates in [rejected]. *)
Definition world (pages : list (string * Dom)) (rejected : Doc → bool) : Env :=
  {| launch_ok := λ _, true;
     navigate := λ _, site pages;
     store_rejects := λ _ _ update, rejected update;
     connect_ok := λ _, true;
     Date_now := λ t, 1700000000000 + Z.of_nat t;
     BACKMARKET_BASE_URL := None |}.

Definition accept_all (update : Doc) : bool := false.

(** The store rejects the document named "Broken". *)
Definition reject_broken (update : Doc) : bool :=
  bool_decide (prop update "name" = VStr "Broken").

Definition smartphones : string :=
  "https://www.backmarket.com/us/en-us/c/smartphones".
Definition laptops : string :=
  "https://www.backmarket.com/us/en-us/c/laptops".

Definition iphone : string := "https://www.backmarket.com/p/iphone-12?l=1".
Definition pixel : string := "https://www.backmarket.com/p/pixel-7".
Definition broken : string := "https://www.backmarket.com/p/broken".

Definition photo : string := "https://img.backmarket.com/iphone-12.jpg".

(** A listing as [scrapeProduct] builds it. *)
Definition extracted (url : string) (dom : Dom) : Doc :=
  <["sourceId" := VStr (Backmarket.sourceId_of url)]>
    (<["sourceUrl" := VStr url]>
       (<["source" := VStr "Backmarket"]> (Backmarket.evaluate_product dom))).

(** A category with a good listing and one that has no price element. *)
Definition pages_missing_price : list (string * Dom) :=
  [ (smartphones, cards [iphone; broken]);
    (iphone, page (Some " iPhone 12 ") (Some "$1,299.99 USD") None [photo]);
    (broken, page (Some "Broken") None None [photo]) ].

(** A category with a good listing and one whose price reads zero. *)
Definition pages_zero_price : list (string * Dom) :=
  [ (smartphones, cards [iphone; broken]);
    (iphone, page (Some " iPhone 12 ") (Some "$1,299.99 USD") None [photo]);
    (broken, page (Some "Broken") (Some "$0.00") None [photo]) ].

(** The upsert of the iPhone listing in these runs. *)
Definition iphone_update (t : nat) : Doc :=
  Backmarket.sync_update "Smartphones"
    (extracted iphone
       (page (Some " iPhone 12 ") (Some "$1,299.99 USD") None [photo]))
    (1700000000000 + Z.of_nat t).

(** The iPhone listing as extracted when the page shows [price]. *)
Definition iphone_at (price : string) : Doc :=
  extracted iphone (page (Some " iPhone 12 ") (Some price) None [photo]).

(** Three listings of one category; the store rejects the second. *)
Definition batch : list Doc :=
  [ iphone_at "$1,299.99 USD";
    extracted broken (page (Some "Broken") (Some "$5") None [photo]);
    extracted pixel (page (Some "Pixel 7") (Some "$399.00") None [photo]) ].

(** A record of an earlier run, with the reviews users left since. *)
Definition old_iphone : Doc :=
  list_to_map
    [ ("source", VStr "Backmarket"); ("sourceId", VStr "iphone-12");
      ("name", VStr "iPhone 12"); ("price", VNum (Num.of_decimal 1399 0));
      ("numReviews", VNum (Num.of_decimal 3 0)) ].

(** A category page with ten product cards. *)
Definition ten_links : list string :=
  (λ n, "https://www.backmarket.com/p/" +:+ pretty n) <$> seq 1 10.

Definition pages_ten : list (string * Dom) :=
  [ (smartphones, cards ten_links) ].

Definition tablets : string :=
  "https://www.backmarket.com/us/en-us/c/tablets".

(** The Laptops page does not load; Smartphones and Tablets do, with one
    good listing each. *)
Definition pages_laptops_down : list (string * Dom) :=
  [ (smartphones, cards [iphone]);
    (iphone, page (Some " iPhone 12 ") (Some "$1,299.99 USD") None [photo]);
    (tablets, cards [pixel]);
    (pixel, page (Some "Pixel 7") (Some "$399.00") None [photo]) ].

Definition laptops_down : Env := world pages_laptops_down accept_all.

(** The state of that run when the loop reaches Laptops. *)
Definition before_laptops : State :=
  (for_of [("Smartphones", "/us/en-us/c/smartphones")]
     (Backmarket.each_category laptops_down) (launched_from (fresh []))).2.

(** The state in which the walker throws on Laptops. *)
Definition laptops_thrown : State :=
  (Backmarket.scrapeCategory laptops_down "/us/en-us/c/laptops" 10
     (emit (LogInfo "Scraping category: Laptops") before_laptops)).2.

(** A listing with a name and a price and no image at all. *)
Definition pages_no_image : list (string * Dom) :=
  [ (smartphones, cards [iphone]);
    (iphone, page (Some " iPhone 12 ") (Some "$1,299.99 USD") None []) ].

(** The Newegg deals page with two products. *)
Definition deals_url : string :=
  "https://www.newegg.com/promotions/newegg-deals".
Definition laptop_url : string := "https://www.newegg.com/p/laptop-15".
Definition monitor_url : string := "https://www.newegg.com/p/monitor-27".

Definition laptop : NeweggItem :=
  item (Some "Laptop 15") (Some "$899.00") (Some "https://img.newegg.com/l.jpg")
       (Some laptop_url).
Definition monitor : NeweggItem :=
  item (Some "Monitor 27") (Some "$249.99") (Some "https://img.newegg.com/m.jpg")
       (Some monitor_url).

Definition pages_newegg : list (string * Dom) :=
  [ (deals_url, deals [laptop; monitor]) ].

(** A grid item without a price element. *)
Definition unpriced : NeweggItem :=
  item (Some "Laptop 15") None (Some "https://img.newegg.com/l.jpg")
       (Some laptop_url).

(** A category with a good listing and one whose price reads "Free". *)
Definition pages_free_price : list (string * Dom) :=
  [ (smartphones, cards [iphone; broken]);
    (iphone, page (Some " iPhone 12 ") (Some "$1,299.99 USD") None [photo]);
    (broken, page (Some "Broken") (Some "Free") None [photo]) ].

(** A grid item whose price element reads "Free". *)
Definition free : NeweggItem :=
  item (Some "Laptop 15") (Some " Free ") (Some "https://img.newegg.com/l.jpg")
       (Some laptop_url).

(** A scraper whose browser runs. *)
Definition running (docs : list Doc) : State :=
  {| this_browser := Some 0%nat; store := docs; trace := [Launch (Some 0%nat)] |}.

End Examples.

(** [m] loads at most [n] pages. *)
Definition navigates_at_most {A} (n : nat) (m : M A) : Prop :=
  ∀ s, ∃ evs, trace (m s).2 = evs ++ trace s ∧ (length (navigations evs) ≤ n)%nat.

(** Every category of the fixed list is walked in the run. *)
Definition every_category_walked (env : Env) (docs : list Doc) : Prop :=
  ∀ category, category ∈ Backmarket.categories →
    Backmarket.baseUrl env +:+ category.2
      ∈ navigations (trace (Backmarket.scrapeAndSave env (fresh docs)).2).

(** The binary64 value written [1299.99]: 5717416483970089 / 2^42. *)
Definition double_1299_99 : spec_float := S754_finite false 5717416483970089 (-42).

(** An upsert keyed on the pair (source tag, source-native identifier)
    that sets the fields of a listing and stamps [updatedAt]. *)
Definition keyed_on_source_and_id (e : Event) : Prop :=
  match e with
  | FindOneAndUpdate filter update _ =>
      ∃ p category t sid,
        listing p ∧ p !! "sourceId" = Some (VStr sid) ∧
        dom filter = {[ "source"; "sourceId" ]} ∧
        filter !! "source" = Some (VStr "Backmarket") ∧
        filter !! "sourceId" = Some (VStr sid) ∧
        (∀ k, k ≠ "updatedAt" → k ≠ "category" → update !! k = p !! k) ∧
        update !! "category" = Some (VStr category) ∧
        update !! "updatedAt" = Some (VDate t)
  | _ => True
  end.

(** ** Vocabulary of the further properties *)

(** Does the character occur in the text? *)
Fixpoint contains (c : ascii) (s : string) : bool :=
  match s with
  | EmptyString => false
  | String x s' => Ascii.eqb x c || contains c s'
  end.

(** A number that is not below zero: [NaN], a zero, or a value with the
    sign bit clear. *)
Definition non_negative (x : spec_float) : bool :=
  match x with
  | S754_nan => true
  | S754_zero sign | S754_infinity sign | S754_finite sign _ _ => negb sign
  end.


(** A listing exactly as [scrapeProduct] returns it: the object read off
    a page that has a name and a price, tagged with its source, its URL
    and its identifier. *)
Definition scraped (p : Doc) : Prop :=
  ∃ url dom,
    p = <["sourceId" := VStr (Backmarket.sourceId_of url)]>
          (<["sourceUrl" := VStr url]>
             (<["source" := VStr "Backmarket"]> (Backmarket.evaluate_product dom))) ∧
    truthy (prop (Backmarket.evaluate_product dom) "name") = true ∧
    truthy (prop (Backmarket.evaluate_product dom) "price") = true.

(** From a catalog in [I]: every event [m] adds is in [Q], the catalog
    stays in [I], and what [m] returns is in [P]. *)
Definition maintains {A} (Q : Event → Prop) (I : list Doc → Prop)
    (P : A → Prop) (m : M A) : Prop :=
  ∀ s, I (store s) →
       added Q s (m s).2 ∧ I (store (m s).2) ∧
       match (m s).1 with Return a => P a | Throw _ => True end.

(** The fields the Backmarket scraper writes. *)
Definition scraper_fields : gset string :=
  {[ "name"; "price"; "originalPrice"; "description"; "images"; "brand";
     "specifications"; "stock"; "source"; "sourceUrl"; "sourceId";
     "category"; "updatedAt" ]}.

(** The catalog [docs'] has every record of [docs], at its place, under
    its key, with the fields the scraper does not write as they were. *)
Definition kept (docs docs' : list Doc) : Prop :=
  ∀ i d, docs !! i = Some d →
    ∃ d', docs' !! i = Some d' ∧
          Store.index_key d' = Store.index_key d ∧
          ∀ k, k ∉ scraper_fields → d' !! k = d !! k.

(** An upsert that the store took. *)
Definition sync_accepted (e : Event) : Prop :=
  match e with
  | FindOneAndUpdate _ _ ok => ok = true
  | _ => True
  end.

(** An upsert whose price is a number above zero. *)
Definition sync_price_positive (e : Event) : Prop :=
  match e with
  | FindOneAndUpdate _ update _ =>
      ∃ x, prop update "price" = VNum x ∧ Num.gt_zero x = true
  | _ => True
  end.

(** The [try] block of [scrapeNewegg] with its [catch]. *)
Definition newegg_attempt (env : Env) : M unit :=
  try_catch
    (newPage;;
     dom ← goto env "https://www.newegg.com/promotions/newegg-deals";
     items ← Newegg.waitForGrid dom;
     let products := Newegg.evaluate_products items in
     Newegg.connect env;;
     '(savedProducts, errors) ← for_of_acc products ([], []) (Newegg.save env);
     log (LogInfo ("Scraped " +:+ pretty (length products)
                   +:+ " products from Newegg"));;
     log (LogInfo ("Successfully saved " +:+ pretty (length savedProducts)
                   +:+ " products"));;
     if decide (errors = []) then mret ()
     else log (LogErrors "Errors during product saving:" errors))
    (λ error,
       log (LogError "Error scraping Newegg:" error);;
       throw error).

(** The events between the launch of the Newegg script and its cleanup. *)
Definition newegg_inside (e : Event) : Prop :=
  match e with
  | Launch _ | BrowserClose _ | Disconnect => False
  | _ => True
  end.

(** Any event but an upsert. *)
Definition not_a_sync (e : Event) : Prop :=
  match e with
  | FindOneAndUpdate _ _ _ => False
  | _ => True
  end.

(** An upsert of the Newegg script with all it needs: a name, a price
    above zero and one image, keyed on the url alone. *)
Definition newegg_sync_complete (e : Event) : Prop :=
  match e with
  | FindOneAndUpdate filter update _ =>
      dom filter = {[ "sourceUrl" ]} ∧
      ∃ name image x,
        update !! "name" = Some (VStr name) ∧ name ≠ "" ∧
        update !! "images" = Some (VArr [image]) ∧ image ≠ "" ∧
        update !! "price" = Some (VNum x) ∧ Num.gt_zero x = true
  | _ => True
  end.

(** A catalog written by the Newegg script alone: every document is under
    the key ('newegg', null) of the unique index, and there is one at
    most. *)
Definition newegg_only (docs : list Doc) : Prop :=
  (length docs ≤ 1)%nat ∧
  Forall (λ d, Store.index_key d = (VStr "newegg", VNull)) docs.

(** A world where the browser does not start. *)
Definition no_browser : Env :=
  {| launch_ok := λ _, false;
     navigate := λ _ _, None;
     store_rejects := λ _ _ _, false;
     connect_ok := λ _, true;
     Date_now := λ t, 1700000000000 + Z.of_nat t;
     BACKMARKET_BASE_URL := None |}.

(** A world where the database cannot be reached. *)
Definition no_database : Env :=
  {| launch_ok := λ _, true;
     navigate := λ _ _, None;
     store_rejects := λ _ _ _, false;
     connect_ok := λ _, false;
     Date_now := λ t, 1700000000000 + Z.of_nat t;
     BACKMARKET_BASE_URL := None |}.

(** No upsert the store took is lost: the catalog respects the unique
    index and has a record under the key of every accepted upsert of the
    trace. *)
Definition committed (s : State) : Prop :=
  Store.unique (store s) ∧
  ∀ filter update,
    FindOneAndUpdate filter update true ∈ trace s →
    Store.index_key update ∈ Store.index_key <$> store s.

(** From a state in [J], [m] ends in a state in [J], and what it returns is
    in [P]. *)
Definition preserves {A} (J : State → Prop) (P : A → Prop) (m : M A) : Prop :=
  ∀ s, J s →
       J (m s).2 ∧ match (m s).1 with Return a => P a | Throw _ => True end.

(** ** The runner ([runScrapers]) *)

(** [runScrapers] of [scrapers/index.js].  The class of the Newegg scraper
    is not among the sources: constructing it and calling its
    [scrapeAndSave] is the parameter [neweggScraper]. *)
Module Runner.
Section Run.

Context (env : Env) (neweggScraper : M unit).

(** [new BackmarketScraper()]: a scraper object without a browser. *)
Definition newBackmarketScraper : M unit := λ s,
  (Return (), {| this_browser := None; store := store s; trace := trace s |}).

Definition runScrapers : M unit :=
  try_finally
    (try_catch
       (Newegg.connect env;;
        log (LogInfo "Connected to MongoDB");;
        log (LogInfo "Starting Newegg scraper");;
        neweggScraper;;
        log (LogInfo "Completed Newegg scraping");;
        log (LogInfo "Starting Backmarket scraper");;
        newBackmarketScraper;;
        Backmarket.scrapeAndSave env;;
        log (LogInfo "Completed Backmarket scraping"))
       (λ error, log (LogError "Error running scrapers:" error)))
    (log Disconnect;;
     log (LogInfo "Disconnected from MongoDB")).

End Run.
End Runner.

(** ** The derived rating fields ([productSchema.pre('save')]) *)

Module ProductModel.

Record Rating := {
  user : string;
  rating : spec_float;
  review : option string;
  createdAt : Z
}.

(** The fields of a product document the hook reads and writes. *)
Record Product := {
  ratings : list Rating;
  averageRating : spec_float;
  numReviews : spec_float
}.

(** [this.ratings.reduce((acc, item) => item.rating + acc, 0)] *)
Definition sum_of_ratings (items : list Rating) : spec_float :=
  foldl (λ acc item, SFadd Num.prec Num.emax (rating item) acc) Num.zero items.

Definition pre_save (this : Product) : Product :=
  if (0 <? length (ratings this))%nat then
    {| ratings := ratings this;
       averageRating :=
         SFdiv Num.prec Num.emax (sum_of_ratings (ratings this))
           (Num.of_Z (Z.of_nat (length (ratings this))));
       numReviews := Num.of_Z (Z.of_nat (length (ratings this))) |}
  else this.

(** A rating with the score [z]. *)
Definition scored (z : Z) : Rating :=
  {| user := "u1"; rating := Num.of_Z z; review := None; createdAt := 0 |}.

End ProductModel.

(** * Properties *)

(** ** Rules for [emits], [keeps_browser] and [keeps_store] *)

Section Rules.

Context {A B : Type}.
Implicit Types (Q : Event → Prop).

Lemma added_refl Q s : added Q s s.
Proof. exists []. by split. Qed.

Lemma added_trans Q s1 s2 s3 : added Q s1 s2 → added Q s2 s3 → added Q s1 s3.
Proof.
  intros (e1 & H1 & F1) (e2 & H2 & F2). exists (e2 ++ e1). split.
  - by rewrite H2, H1, app_assoc.
  - by apply Forall_app.
Qed.

Lemma added_emit Q e s : Q e → added Q s (emit e s).
Proof. intros H. exists [e]. split; [done | by constructor]. Qed.

Lemma added_weaken Q Q' s s' :
  (∀ e, Q e → Q' e) → added Q s s' → added Q' s s'.
Proof.
  intros H (evs & E & F). exists evs. split; [done |].
  eapply Forall_impl; eauto.
Qed.

Lemma emits_ret Q (P : A → Prop) a : P a → emits Q P (mret a).
Proof. intros H s. split; [apply added_refl | done]. Qed.

Lemma emits_throw Q (P : A → Prop) e : emits Q P (throw e).
Proof. intros s. split; [apply added_refl | done]. Qed.

Lemma emits_bind Q (P : A → Prop) (R : B → Prop) (m : M A) (k : A → M B) :
  emits Q P m → (∀ a, P a → emits Q R (k a)) → emits Q R (m ≫= k).
Proof.
  intros Hm Hk s. specialize (Hm s). unfold mbind, M_bind.
  destruct (m s) as [[a | e] s1]; simpl in *.
  - destruct Hm as [Ha Pa]. destruct (Hk a Pa s1) as [Hb Rb].
    split; [by eapply added_trans | done].
  - by destruct Hm.
Qed.

Lemma emits_try_catch Q (P : A → Prop) (m : M A) (h : error → M A) :
  emits Q P m → (∀ e, emits Q P (h e)) → emits Q P (try_catch m h).
Proof.
  intros Hm Hh s. specialize (Hm s). unfold try_catch.
  destruct (m s) as [[a | e] s1]; simpl in *; [done |].
  destruct Hm as [Ha _]. destruct (Hh e s1) as [Hb Pb].
  split; [by eapply added_trans | done].
Qed.

Lemma emits_try_finally Q (P : A → Prop) (m : M A) (f : M unit) :
  emits Q P m → emits Q (λ _, True) f → emits Q P (try_finally m f).
Proof.
  intros Hm Hf s. specialize (Hm s). unfold try_finally.
  destruct (m s) as [r s1]; simpl in *. destruct Hm as [Ha Pa].
  destruct (Hf s1) as [Hb _].
  destruct (f s1) as [[[] | e] s2]; simpl in *;
    (split; [by eapply added_trans | done]).
Qed.

Lemma emits_weaken Q Q' (P P' : A → Prop) (m : M A) :
  (∀ e, Q e → Q' e) → (∀ a, P a → P' a) → emits Q P m → emits Q' P' m.
Proof.
  intros HQ HP Hm s. destruct (Hm s) as [Ha Pa]. split.
  - by eapply added_weaken.
  - destruct (m s).1; auto.
Qed.

Lemma keeps_browser_bind (m : M A) (k : A → M B) :
  keeps_browser m → (∀ a, keeps_browser (k a)) → keeps_browser (m ≫= k).
Proof.
  intros Hm Hk s. specialize (Hm s). unfold mbind, M_bind.
  destruct (m s) as [[a | e] s1]; simpl in *; [| done].
  by rewrite Hk.
Qed.

Lemma keeps_browser_try_catch (m : M A) (h : error → M A) :
  keeps_browser m → (∀ e, keeps_browser (h e)) → keeps_browser (try_catch m h).
Proof.
  intros Hm Hh s. specialize (Hm s). unfold try_catch.
  destruct (m s) as [[a | e] s1]; simpl in *; [done |].
  by rewrite Hh.
Qed.

Lemma keeps_store_bind (m : M A) (k : A → M B) :
  keeps_store m → (∀ a, keeps_store (k a)) → keeps_store (m ≫= k).
Proof.
  intros Hm Hk s. specialize (Hm s). unfold mbind, M_bind.
  destruct (m s) as [[a | e] s1]; simpl in *; [| done].
  by rewrite Hk.
Qed.

Lemma keeps_store_try_catch (m : M A) (h : error → M A) :
  keeps_store m → (∀ e, keeps_store (h e)) → keeps_store (try_catch m h).
Proof.
  intros Hm Hh s. specialize (Hm s). unfold try_catch.
  destruct (m s) as [[a | e] s1]; simpl in *; [done |].
  by rewrite Hh.
Qed.

End Rules.

Section LoopRules.

Context {A B : Type}.
Implicit Types (Q : Event → Prop).

Lemma emits_for_of Q (xs : list A) (body : A → M unit) :
  (∀ x, x ∈ xs → emits Q (λ _, True) (body x)) →
  emits Q (λ _, True) (for_of xs body).
Proof.
  induction xs as [| x xs IH]; intros H; simpl.
  - by apply emits_ret.
  - eapply emits_bind.
    + apply H. by left.
    + intros _ _. apply IH. intros y Hy. apply H. by right.
Qed.

Lemma emits_for_of_acc Q (I : B → Prop) (xs : list A) (acc : B)
    (body : A → B → M B) :
  I acc →
  (∀ x acc, x ∈ xs → I acc → emits Q I (body x acc)) →
  emits Q I (for_of_acc xs acc body).
Proof.
  revert acc. induction xs as [| x xs IH]; intros acc Hacc H; simpl.
  - by apply emits_ret.
  - eapply emits_bind.
    + apply H; [by left | done].
    + intros acc' Hacc'. apply IH; [done |].
      intros y a Hy. apply H. by right.
Qed.

Lemma keeps_browser_for_of (xs : list A) (body : A → M unit) :
  (∀ x, keeps_browser (body x)) → keeps_browser (for_of xs body).
Proof.
  intros H. induction xs as [| x xs IH]; simpl; [done |].
  by apply keeps_browser_bind.
Qed.

Lemma keeps_browser_for_of_acc (xs : list A) (acc : B) (body : A → B → M B) :
  (∀ x acc, keeps_browser (body x acc)) → keeps_browser (for_of_acc xs acc body).
Proof.
  intros H. revert acc. induction xs as [| x xs IH]; intros acc; simpl; [done |].
  by apply keeps_browser_bind.
Qed.

Lemma keeps_store_for_of_acc (xs : list A) (acc : B) (body : A → B → M B) :
  (∀ x acc, keeps_store (body x acc)) → keeps_store (for_of_acc xs acc body).
Proof.
  intros H. revert acc. induction xs as [| x xs IH]; intros acc; simpl; [done |].
  by apply keeps_store_bind.
Qed.

End LoopRules.

Lemma emits_log Q e : Q e → emits Q (λ _, True) (log e).
Proof. intros H s. split; [by apply added_emit | done]. Qed.

Lemma keeps_browser_log e : keeps_browser (log e).
Proof. done. Qed.

Lemma keeps_store_log e : keeps_store (log e).
Proof. done. Qed.

Lemma keeps_browser_ret {A} (a : A) : keeps_browser (mret a).
Proof. done. Qed.

Lemma keeps_browser_throw {A} e : keeps_browser (@throw A e).
Proof. done. Qed.

Lemma keeps_store_ret {A} (a : A) : keeps_store (mret a).
Proof. done. Qed.

Lemma keeps_store_throw {A} e : keeps_store (@throw A e).
Proof. done. Qed.

Section CapabilityRules.

Context (env : Env).
Implicit Types (Q : Event → Prop).

Lemma emits_goto Q url :
  (∀ ok, Q (Goto url ok)) → emits Q (λ _, True) (goto env url).
Proof.
  intros H s. unfold goto.
  destruct (navigate env (now s) url); simpl; (split; [by apply added_emit | done]).
Qed.

Lemma keeps_browser_goto url : keeps_browser (goto env url).
Proof. intros s. unfold goto. by destruct (navigate env (now s) url). Qed.

Lemma keeps_store_goto url : keeps_store (goto env url).
Proof. intros s. unfold goto. by destruct (navigate env (now s) url). Qed.

Lemma emits_DateNow Q : emits Q (λ _, True) (DateNow env).
Proof. intros s. split; [apply added_refl | done]. Qed.

Lemma emits_findOneAndUpdate Q filter update :
  (∀ ok, Q (FindOneAndUpdate filter update ok)) →
  emits Q (λ _, True) (findOneAndUpdate env filter update).
Proof.
  intros H s. unfold findOneAndUpdate.
  destruct (Store.write filter update (store s)) as [[pre d] post].
  destruct (store_rejects env (now s) filter update); simpl.
  { split; [by apply added_emit | done]. }
  destruct (Store.collides d (pre ++ post)); simpl.
  { split; [by apply added_emit | done]. }
  split; [| done]. exists [FindOneAndUpdate filter update true].
  split; [done | by constructor].
Qed.

Lemma keeps_browser_findOneAndUpdate filter update :
  keeps_browser (findOneAndUpdate env filter update).
Proof.
  intros s. unfold findOneAndUpdate.
  destruct (Store.write filter update (store s)) as [[pre d] post].
  destruct (store_rejects env (now s) filter update); [done |].
  by destruct (Store.collides d (pre ++ post)).
Qed.

End CapabilityRules.

(** ** The Backmarket scraper *)

Ltac lookups :=
  unfold prop; simpl;
  repeat first [ rewrite lookup_insert_eq | rewrite lookup_insert_ne by done ];
  simpl.

Section BackmarketRules.

Context (env : Env).
Implicit Types (Q : Event → Prop).

Lemma emits_this_browser_newPage Q :
  Q NewPage → emits Q (λ _, True) Backmarket.this_browser_newPage.
Proof.
  intros H s. unfold Backmarket.this_browser_newPage.
  destruct (this_browser s); simpl.
  - split; [by apply added_emit | done].
  - split; [apply added_refl | done].
Qed.

Lemma keeps_browser_this_browser_newPage :
  keeps_browser Backmarket.this_browser_newPage.
Proof.
  intros s. unfold Backmarket.this_browser_newPage.
  by destruct (this_browser s) eqn:E.
Qed.

Lemma keeps_store_this_browser_newPage :
  keeps_store Backmarket.this_browser_newPage.
Proof.
  intros s. unfold Backmarket.this_browser_newPage. by destruct (this_browser s).
Qed.

(** What [scrapeProduct] returns went through the mandatory-field check. *)
Lemma scrapeProduct_emits url :
  emits browsing listing (Backmarket.scrapeProduct env url).
Proof.
  unfold Backmarket.scrapeProduct. apply emits_try_catch.
  - eapply emits_bind; [by apply emits_this_browser_newPage |].
    intros _ _. eapply emits_bind; [by apply emits_goto |].
    intros dom _.
    destruct (negb (truthy (prop (Backmarket.evaluate_product dom) "name"))
              || negb (truthy (prop (Backmarket.evaluate_product dom) "price")))
      eqn:Hchk.
    + apply emits_throw.
    + apply orb_false_elim in Hchk as [Hn Hp].
      apply negb_false_iff in Hn, Hp.
      eapply emits_bind; [by apply emits_log |].
      intros _ _. apply emits_ret. unfold listing.
      split; [| split; [| split]].
      * revert Hn. by lookups.
      * revert Hp. by lookups.
      * by lookups.
      * eexists. by lookups.
  - intros e. eapply emits_bind; [by apply emits_log |].
    intros _ _. apply emits_throw.
Qed.

Lemma keeps_browser_scrapeProduct url :
  keeps_browser (Backmarket.scrapeProduct env url).
Proof.
  unfold Backmarket.scrapeProduct. apply keeps_browser_try_catch.
  - apply keeps_browser_bind; [apply keeps_browser_this_browser_newPage |].
    intros _. apply keeps_browser_bind; [apply keeps_browser_goto |].
    intros dom. by destruct (_ || _).
  - intros e. by apply keeps_browser_bind.
Qed.

Lemma keeps_store_scrapeProduct url :
  keeps_store (Backmarket.scrapeProduct env url).
Proof.
  unfold Backmarket.scrapeProduct. apply keeps_store_try_catch.
  - apply keeps_store_bind; [apply keeps_store_this_browser_newPage |].
    intros _. apply keeps_store_bind; [apply keeps_store_goto |].
    intros dom. by destruct (_ || _).
  - intros e. by apply keeps_store_bind.
Qed.

(** The walker only browses, and every listing it returns went through
    the mandatory-field check. *)
Lemma scrapeCategory_emits categoryUrl limit :
  emits browsing (Forall listing) (Backmarket.scrapeCategory env categoryUrl limit).
Proof.
  unfold Backmarket.scrapeCategory. apply emits_try_catch.
  - eapply emits_bind; [by apply emits_this_browser_newPage |].
    intros _ _. eapply emits_bind; [by apply emits_goto |].
    intros dom _. eapply emits_bind; [by apply emits_log |].
    intros _ _. apply emits_for_of_acc; [by constructor |].
    intros link products _ Hps. unfold Backmarket.each_link.
    apply emits_try_catch.
    + eapply emits_bind; [apply scrapeProduct_emits |].
      intros p Hp. apply emits_ret. apply Forall_app. split; [done |].
      by constructor.
    + intros e. eapply emits_bind; [by apply emits_log |].
      intros _ _. by apply emits_ret.
  - intros e. eapply emits_bind; [by apply emits_log |].
    intros _ _. apply emits_throw.
Qed.

Lemma keeps_browser_scrapeCategory categoryUrl limit :
  keeps_browser (Backmarket.scrapeCategory env categoryUrl limit).
Proof.
  unfold Backmarket.scrapeCategory. apply keeps_browser_try_catch.
  - apply keeps_browser_bind; [apply keeps_browser_this_browser_newPage |].
    intros _. apply keeps_browser_bind; [apply keeps_browser_goto |].
    intros dom. apply keeps_browser_bind; [done |].
    intros _. apply keeps_browser_for_of_acc. intros link products.
    unfold Backmarket.each_link. apply keeps_browser_try_catch.
    + apply keeps_browser_bind; [apply keeps_browser_scrapeProduct | done].
    + intros e. by apply keeps_browser_bind.
  - intros e. by apply keeps_browser_bind.
Qed.

Lemma keeps_store_scrapeCategory categoryUrl limit :
  keeps_store (Backmarket.scrapeCategory env categoryUrl limit).
Proof.
  unfold Backmarket.scrapeCategory. apply keeps_store_try_catch.
  - apply keeps_store_bind; [apply keeps_store_this_browser_newPage |].
    intros _. apply keeps_store_bind; [apply keeps_store_goto |].
    intros dom. apply keeps_store_bind; [done |].
    intros _. apply keeps_store_for_of_acc. intros link products.
    unfold Backmarket.each_link. apply keeps_store_try_catch.
    + apply keeps_store_bind; [apply keeps_store_scrapeProduct | done].
    + intros e. by apply keeps_store_bind.
  - intros e. by apply keeps_store_bind.
Qed.

End BackmarketRules.

(** ** The store *)

Section StoreFacts.

Lemma filter_none {A} (P : A → Prop) `{∀ x, Decision (P x)} (l : list A) :
  Forall (λ x, ¬ P x) l → filter P l = [].
Proof.
  induction 1 as [| x l Hx _ IH]; [done |].
  by rewrite filter_cons_False.
Qed.

(** Under distinct keys, the elements with the key of one element are
    that element alone. *)
Lemma filter_key_unique {A K} `{EqDecision K} (f : A → K)
    (pre : list A) (d : A) (post : list A) (k : K) :
  f d = k →
  NoDup (f <$> (pre ++ d :: post)) →
  filter (λ x, f x = k) (pre ++ d :: post) = [d].
Proof.
  intros <-. rewrite fmap_app, fmap_cons. intros Hnd.
  apply NoDup_app in Hnd as (_ & Hpre & Hpost).
  apply NoDup_cons in Hpost as [Hd _].
  rewrite filter_app, filter_cons_True by done.
  rewrite !filter_none; [done | |].
  - apply Forall_forall. intros x Hx Heq. apply Hd. rewrite <- Heq.
    by apply list_elem_of_fmap_2.
  - apply Forall_forall. intros x Hx Heq. apply (Hpre (f x)).
    + by apply list_elem_of_fmap_2.
    + rewrite Heq. by left.
Qed.

Lemma findOne_Some filter docs pre d post :
  Store.findOne filter docs = Some (pre, d, post) →
  docs = pre ++ d :: post ∧ Store.matches filter d = true ∧
  Forall (λ x, Store.matches filter x = false) pre.
Proof.
  revert pre. induction docs as [| x docs IH]; intros pre; simpl; [done |].
  destruct (Store.matches filter x) eqn:Hx.
  - intros [= <- <- <-]. by repeat split.
  - destruct (Store.findOne filter docs) as [[[pre' d'] post'] |]; [| done].
    intros [= <- <- <-]. destruct (IH pre' eq_refl) as (-> & Hd & Hpre).
    repeat split; [done |]. by constructor.
Qed.

Lemma findOne_None filter docs :
  Store.findOne filter docs = None →
  Forall (λ x, Store.matches filter x = false) docs.
Proof.
  induction docs as [| x docs IH]; simpl; [by constructor |].
  destruct (Store.matches filter x) eqn:Hx; [done |].
  destruct (Store.findOne filter docs) as [[[pre' d'] post'] |]; [done |].
  intros _. constructor; [done | by apply IH].
Qed.

(** Every field of the update is in the written document. *)
Lemma write_sets_update filter update docs :
  update ⊆ (Store.write filter update docs).1.2.
Proof.
  unfold Store.write.
  destruct (Store.findOne filter docs) as [[[pre old] post] |]; simpl;
    apply map_union_subseteq_l.
Qed.

(** The only document the write touches is the one it returns. *)
Lemma write_frame filter update docs :
  let '(pre, d, post) := Store.write filter update docs in
  ∃ old, (docs = pre ++ old ++ post) ∧ Forall (λ x, Store.matches filter x = false) pre ∧
         (old = [] ∨ ∃ o, old = [o] ∧ Store.matches filter o = true ∧ d = update ∪ o).
Proof.
  unfold Store.write.
  destruct (Store.findOne filter docs) as [[[pre old] post] |] eqn:Hf.
  - apply findOne_Some in Hf as (-> & Hm & Hpre).
    exists [old]. repeat split; [done |]. right. by exists old.
  - apply findOne_None in Hf. exists []. repeat split.
    + by rewrite !app_nil_r.
    + done.
    + by left.
Qed.

(** The filter of the Backmarket upsert selects by the key of the unique
    index. *)
Lemma sync_filter_matches p d :
  Store.matches (Backmarket.sync_filter p) d = true ↔
  Store.index_key d = (VStr "Backmarket", prop p "sourceId").
Proof.
  unfold Store.matches, Backmarket.sync_filter, Store.index_key. simpl.
  rewrite bool_decide_eq_true.
  rewrite map_Forall_insert by done.
  rewrite map_Forall_insert by done.
  split.
  - intros (-> & -> & _). done.
  - intros [= -> ->]. repeat split. apply map_Forall_empty.
Qed.

Lemma sync_update_lookup category p t k :
  k ≠ "updatedAt" → k ≠ "category" →
  Backmarket.sync_update category p t !! k = p !! k.
Proof.
  intros H1 H2. unfold Backmarket.sync_update. by rewrite !lookup_insert_ne.
Qed.

End StoreFacts.

(** ** Catalog Sync of the Backmarket scraper *)

Section SyncFacts.

Context (env : Env).

Lemma sync_update_key category p t sid (x : Doc) :
  p !! "source" = Some (VStr "Backmarket") →
  p !! "sourceId" = Some (VStr sid) →
  Store.index_key (Backmarket.sync_update category p t ∪ x)
  = (VStr "Backmarket", VStr sid).
Proof.
  intros Hs Hi. unfold Store.index_key, prop.
  rewrite (lookup_union_Some_l _ _ _ (VStr "Backmarket")),
          (lookup_union_Some_l _ _ _ (VStr sid)); [done | |].
  - by rewrite sync_update_lookup.
  - by rewrite sync_update_lookup.
Qed.

(** On a catalog that respects the unique index, the Backmarket upsert
    never trips the index, keeps it, and leaves exactly the document it
    wrote under the listing's key. *)
Lemma backmarket_write category p t sid docs :
  p !! "source" = Some (VStr "Backmarket") →
  p !! "sourceId" = Some (VStr sid) →
  Store.unique docs →
  let '(pre, d, post) :=
    Store.write (Backmarket.sync_filter p) (Backmarket.sync_update category p t) docs in
  Store.collides d (pre ++ post) = false ∧
  Store.unique (pre ++ d :: post) ∧
  Store.under_key (VStr "Backmarket") (VStr sid) (pre ++ d :: post) = [d].
Proof.
  intros Hs Hi Hu.
  assert (Hk : prop p "sourceId" = VStr sid) by (unfold prop; by rewrite Hi).
  pose proof (write_frame (Backmarket.sync_filter p)
                (Backmarket.sync_update category p t) docs) as Hw.
  unfold Store.write in *.
  destruct (Store.findOne _ docs) as [[[pre old] post] |] eqn:Hf.
  - apply findOne_Some in Hf as (-> & Hm & _).
    apply sync_filter_matches in Hm. rewrite Hk in Hm.
    pose proof (sync_update_key category p t sid old Hs Hi) as Hd.
    assert (Hkeys : Store.index_key <$> (pre ++ (Backmarket.sync_update category p t ∪ old) :: post)
                    = Store.index_key <$> (pre ++ old :: post)).
    { rewrite !fmap_app, !fmap_cons. by rewrite Hd, Hm. }
    assert (Hu' : Store.unique (pre ++ (Backmarket.sync_update category p t ∪ old) :: post)).
    { unfold Store.unique. by rewrite Hkeys. }
    split; [| split; [done |]].
    + unfold Store.collides. apply bool_decide_eq_false. rewrite Hd.
      unfold Store.unique in Hu. rewrite fmap_app, fmap_cons in Hu.
      apply NoDup_app in Hu as (_ & Hpre & Hpost).
      apply NoDup_cons in Hpost as [Hold _].
      rewrite fmap_app, elem_of_app. intros [Hin | Hin].
      * apply (Hpre _ Hin). rewrite Hm. by left.
      * apply Hold. by rewrite Hm.
    + unfold Store.under_key. by apply filter_key_unique.
  - apply findOne_None in Hf.
    pose proof (sync_update_key category p t sid (Backmarket.sync_filter p) Hs Hi) as Hd.
    assert (Hfree : (VStr "Backmarket", VStr sid) ∉ Store.index_key <$> docs).
    { intros (x & Hx & Hin)%list_elem_of_fmap.
      rewrite Forall_forall in Hf. specialize (Hf x Hin).
      assert (Store.matches (Backmarket.sync_filter p) x = true) as Hm.
      { apply sync_filter_matches. by rewrite Hk. }
      congruence. }
    assert (Hu' : Store.unique (docs ++ [Backmarket.sync_update category p t ∪ Backmarket.sync_filter p])).
    { unfold Store.unique. rewrite fmap_app. apply NoDup_app. repeat split.
      - done.
      - intros k Hin. simpl. rewrite Hd. intros ->%list_elem_of_singleton. done.
      - simpl. apply NoDup_singleton. }
    split; [| split; [done |]].
    + unfold Store.collides. apply bool_decide_eq_false.
      by rewrite Hd, app_nil_r.
    + unfold Store.under_key. by apply filter_key_unique.
Qed.

(** An accepted upsert, in full. *)
Lemma save_accepted category p sid s :
  p !! "source" = Some (VStr "Backmarket") →
  p !! "sourceId" = Some (VStr sid) →
  Store.unique (store s) →
  accepts env category p s →
  ∃ d, Backmarket.sync_update category p (Date_now env (now s)) ⊆ d ∧
       Store.under_key (VStr "Backmarket") (VStr sid)
         (store (Backmarket.save env category p s).2) = [d] ∧
       Store.unique (store (Backmarket.save env category p s).2) ∧
       now (Backmarket.save env category p s).2 = S (now s).
Proof.
  intros Hs Hi Hu Hacc.
  pose proof (backmarket_write category p (Date_now env (now s)) sid (store s) Hs Hi Hu) as Hw.
  pose proof (write_sets_update (Backmarket.sync_filter p)
                (Backmarket.sync_update category p (Date_now env (now s))) (store s)) as Hsub.
  unfold Backmarket.save, try_catch, mbind, M_bind, DateNow, findOneAndUpdate. simpl.
  destruct (Store.write _ _ (store s)) as [[pre d] post].
  destruct Hw as (Hc & Hu' & Hk).
  unfold accepts in Hacc. rewrite Hacc, Hc. simpl.
  exists d. by repeat split.
Qed.

End SyncFacts.

(** C1. Upserting the same (source, source-native identifier) twice leaves
    exactly one record under that key, and its price is the one of the
    second call: on a catalog that respects the unique index, two accepted
    upserts of listings with the same identifier leave one document under
    the key, holding the second listing's price, and the index still
    holds. *)
Theorem upsert_twice_last_write_wins env category1 category2 p1 p2 s :
  Store.unique (store s) →
  listing p1 → listing p2 →
  p1 !! "sourceId" = p2 !! "sourceId" →
  accepts env category1 p1 s →
  accepts env category2 p2 (Backmarket.save env category1 p1 s).2 →
  let s2 := (Backmarket.save env category2 p2 (Backmarket.save env category1 p1 s).2).2 in
  ∃ d, Store.under_key (VStr "Backmarket") (prop p1 "sourceId") (store s2) = [d] ∧
       prop d "price" = prop p2 "price" ∧
       Store.unique (store s2).
Proof.
  intros Hu (_ & _ & Hs1 & sid & Hi1) (_ & Hprice & Hs2 & _) Hsame Ha1 Ha2.
  assert (Hi2 : p2 !! "sourceId" = Some (VStr sid)) by congruence.
  destruct (save_accepted env category1 p1 sid s Hs1 Hi1 Hu Ha1)
    as (d1 & _ & _ & Hu1 & _).
  destruct (save_accepted env category2 p2 sid _ Hs2 Hi2 Hu1 Ha2)
    as (d2 & Hsub & Hk & Hu2 & _).
  simpl. exists d2. split; [| split; [| done]].
  - unfold prop at 1. by rewrite Hi1.
  - unfold prop in *. destruct (p2 !! "price") as [v |] eqn:Hp; [| done].
    assert (Backmarket.sync_update category2 p2
              (Date_now env (now (Backmarket.save env category1 p1 s).2)) !! "price"
            = Some v) as Hv by (by rewrite sync_update_lookup).
    by rewrite (lookup_weaken _ _ _ _ Hv Hsub).
Qed.

Lemma upsert_twice_last_write_wins_witness :
  ∃ d, Store.under_key (VStr "Backmarket")
         (prop (Examples.iphone_at "$1,299.99 USD") "sourceId")
         (store (Backmarket.save (Examples.world [] Examples.accept_all) "Smartphones"
                   (Examples.iphone_at "$999.50")
                   (Backmarket.save (Examples.world [] Examples.accept_all) "Smartphones"
                      (Examples.iphone_at "$1,299.99 USD")
                      (Examples.running [Examples.old_iphone])).2).2) = [d] ∧
       prop d "price" = prop (Examples.iphone_at "$999.50") "price" ∧
       Store.unique
         (store (Backmarket.save (Examples.world [] Examples.accept_all) "Smartphones"
                   (Examples.iphone_at "$999.50")
                   (Backmarket.save (Examples.world [] Examples.accept_all) "Smartphones"
                      (Examples.iphone_at "$1,299.99 USD")
                      (Examples.running [Examples.old_iphone])).2).2).
Proof.
  apply (upsert_twice_last_write_wins (Examples.world [] Examples.accept_all)
           "Smartphones" "Smartphones"
           (Examples.iphone_at "$1,299.99 USD") (Examples.iphone_at "$999.50")
           (Examples.running [Examples.old_iphone])).
  - apply (bool_decide_unpack _). vm_compute. exact I.
  - split; [reflexivity | split; [reflexivity | split; [reflexivity |]]].
    eexists. reflexivity.
  - split; [reflexivity | split; [reflexivity | split; [reflexivity |]]].
    eexists. reflexivity.
  - reflexivity.
  - reflexivity.
  - reflexivity.
Defined.

(** ** The driver *)

Section DriverFacts.

Context (env : Env).
Implicit Types (Q : Event → Prop).

Lemma save_emits Q category p :
  (∀ t ok, Q (FindOneAndUpdate (Backmarket.sync_filter p)
                (Backmarket.sync_update category p t) ok)) →
  (∀ msg e, Q (LogError msg e)) →
  emits Q (λ _, True) (Backmarket.save env category p).
Proof.
  intros Hsync Hlog. unfold Backmarket.save. apply emits_try_catch.
  - eapply emits_bind; [apply emits_DateNow |].
    intros t _. eapply emits_bind; [by apply emits_findOneAndUpdate |].
    intros _ _. by apply emits_ret.
  - intros e. by apply emits_log.
Qed.

Lemma keeps_browser_save category p :
  keeps_browser (Backmarket.save env category p).
Proof.
  unfold Backmarket.save. apply keeps_browser_try_catch; [| done].
  apply keeps_browser_bind; [done |].
  intros t. apply keeps_browser_bind; [apply keeps_browser_findOneAndUpdate | done].
Qed.

(** The inner [try]/[catch] contains every persistence failure. *)
Lemma save_returns category p : returns (Backmarket.save env category p).
Proof.
  intros s. exists (). unfold Backmarket.save, try_catch, mbind, M_bind, DateNow.
  simpl. by destruct (findOneAndUpdate env _ _ s) as [[d | e] s'].
Qed.

Lemma each_category_emits Q category :
  (∀ e, browsing e → Q e) →
  (∀ c p t ok, listing p →
     Q (FindOneAndUpdate (Backmarket.sync_filter p) (Backmarket.sync_update c p t) ok)) →
  emits Q (λ _, True) (Backmarket.each_category env category).
Proof.
  intros Hb Hsync. unfold Backmarket.each_category.
  eapply emits_bind; [by apply emits_log, Hb |].
  intros _ _. eapply emits_bind.
  { eapply emits_weaken; [exact Hb | | apply scrapeCategory_emits].
    intros a Ha. exact Ha. }
  intros products Hps. eapply emits_bind.
  - apply emits_for_of. intros p Hp. apply save_emits.
    + intros t ok. apply Hsync. rewrite Forall_forall in Hps. by apply Hps.
    + intros msg e. by apply Hb.
  - intros _ _. by apply emits_log, Hb.
Qed.

Lemma keeps_browser_each_category category :
  keeps_browser (Backmarket.each_category env category).
Proof.
  unfold Backmarket.each_category. apply keeps_browser_bind; [done |].
  intros _. apply keeps_browser_bind; [apply keeps_browser_scrapeCategory |].
  intros products. apply keeps_browser_bind; [| done].
  apply keeps_browser_for_of. intros p. apply keeps_browser_save.
Qed.

(** A run whose browser starts: the loop over the categories runs from
    the state [initialize] leaves; what it throws is logged by the
    driver; the browser is closed. *)
Lemma scrapeAndSave_launched s :
  launch_ok env (now s) = true →
  Backmarket.scrapeAndSave env s =
  (Return (),
   emit (BrowserClose (now s))
     (match for_of Backmarket.categories (Backmarket.each_category env) (launched_from s) with
      | (Return _, s2) => s2
      | (Throw e, s2) => emit (LogError "Error in scraping process:" e) s2
      end)).
Proof.
  intros Hl.
  pose proof (keeps_browser_for_of Backmarket.categories _
                (keeps_browser_each_category) (launched_from s)) as Hb.
  unfold Backmarket.scrapeAndSave. revert Hb.
  generalize (for_of Backmarket.categories (Backmarket.each_category env)).
  intros loop Hb.
  unfold try_finally, try_catch, mbind, M_bind, Backmarket.initialize, launch.
  rewrite Hl. simpl. fold (launched_from s).
  destruct (loop (launched_from s)) as [[[] | e] s2];
    simpl in *; unfold Backmarket.close; simpl; by rewrite Hb.
Qed.

(** A run whose browser does not start: nothing is walked. *)
Lemma scrapeAndSave_not_launched s :
  launch_ok env (now s) = false →
  Backmarket.scrapeAndSave env s =
  Backmarket.close (emit (LogError "Error in scraping process:" LaunchError)
                         (emit (Launch None) s)).
Proof.
  intros Hl.
  unfold Backmarket.scrapeAndSave, try_finally, try_catch, mbind, M_bind.
  unfold Backmarket.initialize, launch. rewrite Hl. simpl.
  unfold Backmarket.close. simpl. by destruct (this_browser s).
Qed.

(** Every event of a run is one of the launch, the events of the
    categories, the driver's log and the close. *)
Lemma scrapeAndSave_emits Q :
  (∀ e, browsing e → Q e) →
  (∀ h, Q (Launch h)) → (∀ h, Q (BrowserClose h)) →
  (∀ c p t ok, listing p →
     Q (FindOneAndUpdate (Backmarket.sync_filter p) (Backmarket.sync_update c p t) ok)) →
  emits Q (λ _, True) (Backmarket.scrapeAndSave env).
Proof.
  intros Hb Hl Hc Hsync. unfold Backmarket.scrapeAndSave.
  apply emits_try_finally.
  - apply emits_try_catch.
    + apply (emits_bind _ (λ _, True)).
      * intros s. unfold Backmarket.initialize, launch.
        destruct (launch_ok env (now s)); simpl; (split; [| done]).
        -- exists [Launch (Some (now s))]. split; [done | by constructor].
        -- by apply added_emit.
      * intros _ _. apply emits_for_of. intros c _.
        by apply each_category_emits.
    + intros e. by apply emits_log, Hb.
  - intros s. unfold Backmarket.close. destruct (this_browser s); simpl.
    + split; [by apply added_emit | done].
    + split; [apply added_refl | done].
Qed.

End DriverFacts.

(** ** Observations of a trace *)

Section Observations.

Lemma closed_app tr1 tr2 : closed (tr1 ++ tr2) = closed tr2 ++ closed tr1.
Proof. unfold closed. by rewrite rev_app_distr, omap_app. Qed.

Lemma launched_app tr1 tr2 : launched (tr1 ++ tr2) = launched tr2 ++ launched tr1.
Proof. unfold launched. by rewrite rev_app_distr, omap_app. Qed.

Lemma syncs_app tr1 tr2 : syncs (tr1 ++ tr2) = syncs tr2 ++ syncs tr1.
Proof. unfold syncs. by rewrite rev_app_distr, omap_app. Qed.

Lemma navigations_app tr1 tr2 :
  navigations (tr1 ++ tr2) = navigations tr2 ++ navigations tr1.
Proof. unfold navigations. by rewrite rev_app_distr, omap_app. Qed.

Lemma closed_cons e tr :
  closed (e :: tr)
  = closed tr ++ match e with BrowserClose h => [h] | _ => [] end.
Proof.
  change (e :: tr) with ([e] ++ tr). rewrite closed_app. by destruct e.
Qed.

Lemma launched_cons e tr :
  launched (e :: tr)
  = launched tr ++ match e with Launch (Some h) => [h] | _ => [] end.
Proof.
  change (e :: tr) with ([e] ++ tr). rewrite launched_app.
  by destruct e as [[]| | | | | | | | | |].
Qed.

Lemma syncs_cons e tr :
  syncs (e :: tr)
  = syncs tr ++ match e with
                | FindOneAndUpdate f u ok => [(f, u, ok)]
                | _ => []
                end.
Proof.
  change (e :: tr) with ([e] ++ tr). rewrite syncs_app. by destruct e.
Qed.

Lemma navigations_cons e tr :
  navigations (e :: tr)
  = navigations tr ++ match e with Goto url _ => [url] | _ => [] end.
Proof.
  change (e :: tr) with ([e] ++ tr). rewrite navigations_app. by destruct e.
Qed.

Lemma inside_run_closed evs : Forall inside_run evs → closed evs = [].
Proof.
  induction 1 as [| e evs He _ IH]; [done |].
  rewrite closed_cons, IH.
  by destruct e.
Qed.

Lemma inside_run_launched evs : Forall inside_run evs → launched evs = [].
Proof.
  induction 1 as [| e evs He _ IH]; [done |].
  rewrite launched_cons, IH.
  by destruct e.
Qed.

End Observations.

(** ** Claims *)

(** C5. The browser-process close is invoked exactly once per run, on every
    exit path: a run of a freshly constructed scraper never throws; when
    the browser starts, [browser.close()] is called exactly once, on the
    browser that was launched, whatever the categories did; when the
    browser does not start there is no process and no close.  In both cases
    the browsers closed are the browsers launched. *)
Theorem browser_closed_exactly_once env docs :
  (Backmarket.scrapeAndSave env (fresh docs)).1 = Return () ∧
  closed (trace (Backmarket.scrapeAndSave env (fresh docs)).2)
  = (if launch_ok env 0 then [0%nat] else []) ∧
  launched (trace (Backmarket.scrapeAndSave env (fresh docs)).2)
  = closed (trace (Backmarket.scrapeAndSave env (fresh docs)).2).
Proof.
  destruct (launch_ok env 0) eqn:Hl.
  - rewrite (scrapeAndSave_launched env (fresh docs) Hl).
    assert (Hloop : emits inside_run (λ _, True)
                      (for_of Backmarket.categories (Backmarket.each_category env))).
    { apply emits_for_of. intros c _. apply each_category_emits; [| done].
      by intros []. }
    destruct (Hloop (launched_from (fresh docs))) as [(evs & Htr & Hin) _].
    revert Htr.
    generalize (for_of Backmarket.categories (Backmarket.each_category env)).
    intros loop Htr.
    destruct (loop (launched_from (fresh docs))) as [[[] | e] s2]; simpl in *.
    + rewrite Htr, !closed_cons, !launched_cons, !closed_app, !launched_app.
      by rewrite (inside_run_closed evs Hin), (inside_run_launched evs Hin).
    + rewrite Htr, !closed_cons, !launched_cons, !closed_app, !launched_app.
      by rewrite (inside_run_closed evs Hin), (inside_run_launched evs Hin).
  - by rewrite (scrapeAndSave_not_launched env (fresh docs) Hl).
Qed.

Section ExtractionFacts.

Context (env : Env).

Lemma evaluate_product_name dom :
  prop (Backmarket.evaluate_product dom) "name"
  = trimmed_text (product_title dom).
Proof. reflexivity. Qed.

Lemma evaluate_product_price dom :
  prop (Backmarket.evaluate_product dom) "price" = Backmarket.getPrice dom.
Proof. reflexivity. Qed.

Lemma evaluate_product_originalPrice dom :
  prop (Backmarket.evaluate_product dom) "originalPrice"
  = Backmarket.getOriginalPrice dom.
Proof. reflexivity. Qed.

Lemma evaluate_product_images dom :
  prop (Backmarket.evaluate_product dom) "images"
  = VArr (Backmarket.getImages dom).
Proof. reflexivity. Qed.

(** The mandatory-field check: a page whose name or price is falsy makes
    [scrapeProduct] throw, after one log line. *)
Lemma scrapeProduct_missing url s h dom :
  this_browser s = Some h →
  navigate env (S (now s)) url = Some dom →
  truthy (prop (Backmarket.evaluate_product dom) "name") = false ∨
  truthy (prop (Backmarket.evaluate_product dom) "price") = false →
  Backmarket.scrapeProduct env url s =
  (Throw (Error "Required product data missing"),
   emit (LogError ("Error scraping product from " +:+ url +:+ ":")
                  (Error "Required product data missing"))
     (emit (Goto url true) (emit NewPage s))).
Proof.
  intros Hb Hnav Hmiss.
  unfold Backmarket.scrapeProduct, try_catch, mbind, M_bind,
    Backmarket.this_browser_newPage, newPage, goto.
  rewrite Hb. simpl. unfold now in Hnav |- *. simpl. rewrite Hnav.
  destruct Hmiss as [-> | ->]; simpl; [done |].
  by rewrite orb_true_r.
Qed.

(** A page with a name and a price is returned, tagged with its source. *)
Lemma scrapeProduct_found url s h dom :
  this_browser s = Some h →
  navigate env (S (now s)) url = Some dom →
  truthy (prop (Backmarket.evaluate_product dom) "name") = true →
  truthy (prop (Backmarket.evaluate_product dom) "price") = true →
  Backmarket.scrapeProduct env url s =
  (Return (<["sourceId" := VStr (Backmarket.sourceId_of url)]>
             (<["sourceUrl" := VStr url]>
                (<["source" := VStr "Backmarket"]>
                   (Backmarket.evaluate_product dom)))),
   emit PageClose (emit (Goto url true) (emit NewPage s))).
Proof.
  intros Hb Hnav Hn Hp.
  unfold Backmarket.scrapeProduct, try_catch, mbind, M_bind,
    Backmarket.this_browser_newPage, newPage, goto.
  rewrite Hb. simpl. unfold now in Hnav |- *. simpl. rewrite Hnav.
  by rewrite Hn, Hp.
Qed.

(** Every upsert of a run carries a listing that passed the check. *)
Lemma run_syncs_checked docs :
  Forall sync_has_name_and_price
    (trace (Backmarket.scrapeAndSave env (fresh docs)).2).
Proof.
  destruct (scrapeAndSave_emits env sync_has_name_and_price) with (s := fresh docs)
    as [(evs & Htr & Hall) _]; try done.
  - by intros [].
  - intros c p t ok (Hn & Hp & _). simpl. unfold prop in *.
    by rewrite !sync_update_lookup.
  - rewrite Htr. simpl. by rewrite app_nil_r.
Qed.

End ExtractionFacts.

(** C7. For a listing whose name or price is null, Catalog Sync is never
    invoked: the extraction throws on such a page, and every upsert of a
    run carries a name and a price that are not null. *)
Theorem null_name_or_price_never_synced env :
  (∀ url s h dom,
     this_browser s = Some h →
     navigate env (S (now s)) url = Some dom →
     prop (Backmarket.evaluate_product dom) "name" = VNull ∨
     prop (Backmarket.evaluate_product dom) "price" = VNull →
     (Backmarket.scrapeProduct env url s).1
     = Throw (Error "Required product data missing") ∧
     syncs (trace (Backmarket.scrapeProduct env url s).2) = syncs (trace s)) ∧
  (∀ docs filter update ok,
     FindOneAndUpdate filter update ok
       ∈ trace (Backmarket.scrapeAndSave env (fresh docs)).2 →
     prop update "name" ≠ VNull ∧ prop update "price" ≠ VNull).
Proof.
  split.
  - intros url s h dom Hb Hnav Hnull.
    rewrite (scrapeProduct_missing env url s h dom Hb Hnav).
    + split; [done |]. simpl. rewrite !syncs_cons. by rewrite !app_nil_r.
    + destruct Hnull as [-> | ->]; auto.
  - intros docs f u ok Hin.
    pose proof (run_syncs_checked env docs) as Hall.
    rewrite Forall_forall in Hall. destruct (Hall _ Hin) as [Hn Hp].
    split; intros Heq; rewrite Heq in *; done.
Qed.

Lemma null_name_or_price_never_synced_witness :
  ((Backmarket.scrapeProduct
      (Examples.world Examples.pages_missing_price Examples.accept_all)
      Examples.broken (Examples.running [])).1
   = Throw (Error "Required product data missing") ∧
   syncs (trace (Backmarket.scrapeProduct
      (Examples.world Examples.pages_missing_price Examples.accept_all)
      Examples.broken (Examples.running [])).2) = []) ∧
  (prop (Examples.iphone_update 12) "name" ≠ VNull ∧
   prop (Examples.iphone_update 12) "price" ≠ VNull).
Proof.
  split.
  - apply (proj1 (null_name_or_price_never_synced
                    (Examples.world Examples.pages_missing_price Examples.accept_all))
             Examples.broken (Examples.running []) 0%nat
             (Examples.page (Some "Broken") None None [Examples.photo])).
    + reflexivity.
    + reflexivity.
    + right. reflexivity.
  - apply (proj2 (null_name_or_price_never_synced
                    (Examples.world Examples.pages_missing_price Examples.accept_all))
             [] (Backmarket.sync_filter (Examples.iphone_update 12))
             (Examples.iphone_update 12) true).
    apply (bool_decide_unpack _). vm_compute. exact I.
Defined.

(** C10. In the Backmarket path a listing whose price text parses to 0 is
    treated as a listing without a price: the check is a falsiness test,
    so the extraction throws 'Required product data missing', and no upsert
    of a run carries a price of zero. *)
Theorem zero_price_rejected env :
  (∀ url s h dom sign,
     this_browser s = Some h →
     navigate env (S (now s)) url = Some dom →
     Backmarket.getPrice dom = VNum (S754_zero sign) →
     (Backmarket.scrapeProduct env url s).1
     = Throw (Error "Required product data missing") ∧
     syncs (trace (Backmarket.scrapeProduct env url s).2) = syncs (trace s)) ∧
  (∀ docs filter update ok sign,
     FindOneAndUpdate filter update ok
       ∈ trace (Backmarket.scrapeAndSave env (fresh docs)).2 →
     prop update "price" ≠ VNum (S754_zero sign)).
Proof.
  split.
  - intros url s h dom sign Hb Hnav Hzero.
    rewrite (scrapeProduct_missing env url s h dom Hb Hnav).
    + split; [done |]. simpl. rewrite !syncs_cons. by rewrite !app_nil_r.
    + right. by rewrite evaluate_product_price, Hzero.
  - intros docs f u ok sign Hin.
    pose proof (run_syncs_checked env docs) as Hall.
    rewrite Forall_forall in Hall. destruct (Hall _ Hin) as [_ Hp].
    intros Heq. by rewrite Heq in Hp.
Qed.

Lemma zero_price_rejected_witness :
  (Backmarket.getPrice (Examples.page (Some "Broken") (Some "$0.00") None [Examples.photo])
   = VNum (S754_zero false) ∧
   (Backmarket.scrapeProduct
      (Examples.world Examples.pages_zero_price Examples.accept_all)
      Examples.broken (Examples.running [])).1
   = Throw (Error "Required product data missing") ∧
   syncs (trace (Backmarket.scrapeProduct
      (Examples.world Examples.pages_zero_price Examples.accept_all)
      Examples.broken (Examples.running [])).2) = []) ∧
  prop (Examples.iphone_update 12) "price" ≠ VNum (S754_zero false).
Proof.
  split; [split; [reflexivity |] |].
  - apply (proj1 (zero_price_rejected
                    (Examples.world Examples.pages_zero_price Examples.accept_all))
             Examples.broken (Examples.running []) 0%nat
             (Examples.page (Some "Broken") (Some "$0.00") None [Examples.photo])
             false).
    + reflexivity.
    + reflexivity.
    + reflexivity.
  - apply (proj2 (zero_price_rejected
                    (Examples.world Examples.pages_zero_price Examples.accept_all))
             [] (Backmarket.sync_filter (Examples.iphone_update 12))
             (Examples.iphone_update 12) true false).
    apply (bool_decide_unpack _). vm_compute. exact I.
Defined.

(** ** Partial failure inside a batch *)

Section BatchFacts.

Context (env : Env).

Lemma batch_unfold category p ps s :
  for_of (p :: ps) (Backmarket.save env category) s
  = for_of ps (Backmarket.save env category) (Backmarket.save env category p s).2.
Proof.
  simpl. unfold mbind, M_bind.
  destruct (save_returns env category p s) as [[] Hr].
  destruct (Backmarket.save env category p s) as [r s1]. simpl in *.
  by rewrite Hr.
Qed.

(** One upsert: the call is in the trace, followed by a log line when it
    failed. *)
Lemma save_trace category p s :
  ∃ ok evs,
    trace (Backmarket.save env category p s).2 = evs ++ trace s ∧
    syncs evs = [(Backmarket.sync_filter p,
                  Backmarket.sync_update category p (Date_now env (now s)), ok)].
Proof.
  unfold Backmarket.save, try_catch, mbind, M_bind, DateNow, findOneAndUpdate.
  simpl.
  destruct (Store.write _ _ (store s)) as [[pre w] post]. simpl in *.
  destruct (store_rejects env _ _ _).
  { exists false. by eexists [_; _]. }
  destruct (Store.collides w (pre ++ post)).
  { exists false. by eexists [_; _]. }
  exists true. by eexists [_].
Qed.

Lemma batch_returns category ps s :
  (for_of ps (Backmarket.save env category) s).1 = Return ().
Proof.
  revert s. induction ps as [| p ps IH]; intros s; [done |].
  rewrite batch_unfold. apply IH.
Qed.

(** The loop over a batch goes through its listings one after the other,
    whatever the upserts before did. *)
Lemma batch_app category before after s :
  for_of (before ++ after) (Backmarket.save env category) s
  = for_of after (Backmarket.save env category)
      (for_of before (Backmarket.save env category) s).2.
Proof.
  revert s. induction before as [| p ps IH]; intros s; [done |].
  rewrite <- app_comm_cons, !batch_unfold. apply IH.
Qed.

(** One upsert per listing, in the order of the batch. *)
Lemma batch_trace category ps s :
  ∃ evs,
    trace (for_of ps (Backmarket.save env category) s).2 = evs ++ trace s ∧
    (λ call, call.1.1) <$> syncs evs = Backmarket.sync_filter <$> ps.
Proof.
  revert s. induction ps as [| p ps IH]; intros s.
  - by exists [].
  - rewrite batch_unfold.
    destruct (IH (Backmarket.save env category p s).2) as (evs2 & Htr2 & Hall).
    destruct (save_trace category p s) as (ok & evs1 & Htr1 & Hs1).
    exists (evs2 ++ evs1). split.
    + by rewrite Htr2, Htr1, app_assoc.
    + rewrite syncs_app, Hs1, fmap_app, Hall. done.
Qed.

Lemma accepts_or_not category p s :
  accepts env category p s ∨ ¬ accepts env category p s.
Proof.
  unfold accepts. destruct (store_rejects env _ _ _); [by right | by left].
Qed.

(** A rejected upsert: the error is caught and logged with the name of the
    product, and the catalog is as it was. *)
Lemma save_rejected category p s :
  ¬ accepts env category p s →
  Backmarket.save env category p s
  = (Return (),
     emit (LogError ("Error saving product " +:+ Backmarket.name_text p +:+ ":")
             StoreError)
       (emit (FindOneAndUpdate (Backmarket.sync_filter p)
                (Backmarket.sync_update category p (Date_now env (now s))) false)
          s)).
Proof.
  unfold accepts. intros Hrej%not_false_is_true.
  unfold Backmarket.save, try_catch, mbind, M_bind, DateNow, findOneAndUpdate.
  simpl. destruct (Store.write _ _ (store s)) as [[pre w] post].
  by rewrite Hrej.
Qed.

(** The upsert of a listing keeps the unique index. *)
Lemma save_unique category p s :
  listing p → Store.unique (store s) →
  Store.unique (store (Backmarket.save env category p s).2).
Proof.
  intros (_ & _ & Hs & sid & Hi) Hu.
  destruct (accepts_or_not category p s) as [Hacc | Hrej].
  - by destruct (save_accepted env category p sid s Hs Hi Hu Hacc) as (d & _ & _ & Hu' & _).
  - by rewrite (save_rejected category p s Hrej).
Qed.

Lemma batch_unique category ps s :
  Forall listing ps → Store.unique (store s) →
  Store.unique (store (for_of ps (Backmarket.save env category) s).2).
Proof.
  revert s. induction ps as [| p ps IH]; intros s Hall Hu; [done |].
  apply Forall_cons in Hall as [Hp Hall].
  rewrite batch_unfold. apply IH; [done |]. by apply save_unique.
Qed.

(** The upsert of a listing leaves the documents under the other keys as
    they are. *)
Lemma save_frame_key category p s k :
  listing p → prop p "sourceId" ≠ k →
  Store.under_key (VStr "Backmarket") k (store (Backmarket.save env category p s).2)
  = Store.under_key (VStr "Backmarket") k (store s).
Proof.
  intros (_ & _ & Hs & sid & Hi) Hne.
  assert (Hk : prop p "sourceId" = VStr sid) by (unfold prop; by rewrite Hi).
  assert (Hnew : ∀ x : Doc,
            Store.index_key
              (Backmarket.sync_update category p (Date_now env (now s)) ∪ x)
            ≠ (VStr "Backmarket", k)).
  { intros x. rewrite (sync_update_key category p _ sid x Hs Hi).
    intros [= <-]. by apply Hne. }
  unfold Backmarket.save, try_catch, mbind, M_bind, DateNow, findOneAndUpdate.
  simpl. unfold Store.write.
  destruct (Store.findOne _ (store s)) as [[[pre old] post] |] eqn:Hf.
  - destruct (store_rejects env _ _ _); [done |].
    destruct (Store.collides _ _); [done |]. simpl.
    apply findOne_Some in Hf as (-> & Hm & _).
    apply sync_filter_matches in Hm.
    unfold Store.under_key. rewrite !filter_app.
    rewrite filter_cons_False by apply Hnew.
    rewrite filter_cons_False; [done |].
    rewrite Hm, Hk. intros [= <-]. by apply Hne.
  - destruct (store_rejects env _ _ _); [done |].
    destruct (Store.collides _ _); [done |]. simpl.
    unfold Store.under_key. rewrite filter_app.
    rewrite filter_cons_False by apply Hnew.
    by rewrite filter_nil, app_nil_r.
Qed.

(** Through the rest of a batch the key of a record keeps exactly one
    record, and the record itself stays unless a listing of the rest has
    its identifier. *)
Lemma batch_keeps_key category ps s k d :
  Forall listing ps → Store.unique (store s) →
  Store.under_key (VStr "Backmarket") k (store s) = [d] →
  ∃ d', Store.under_key (VStr "Backmarket") k
          (store (for_of ps (Backmarket.save env category) s).2) = [d'] ∧
        (k ∉ (λ q, prop q "sourceId") <$> ps → d' = d).
Proof.
  revert s d. induction ps as [| q ps IH]; intros s d Hall Hu Hd.
  - by exists d.
  - apply Forall_cons in Hall as [Hq Hall]. rewrite batch_unfold.
    pose proof (save_unique category q s Hq Hu) as Hu1.
    destruct (decide (prop q "sourceId" = k)) as [Heq | Hne].
    + assert (∃ d1, Store.under_key (VStr "Backmarket") k
                      (store (Backmarket.save env category q s).2) = [d1])
        as [d1 Hd1].
      { destruct (accepts_or_not category q s) as [Hacc | Hrej].
        - destruct Hq as (_ & _ & Hs & sid & Hi).
          destruct (save_accepted env category q sid s Hs Hi Hu Hacc)
            as (d1 & _ & Hk & _).
          exists d1. rewrite <- Heq. unfold prop. by rewrite Hi.
        - exists d. by rewrite (save_rejected category q s Hrej). }
      destruct (IH _ d1 Hall Hu1 Hd1) as (d' & Hd' & _).
      exists d'. split; [done |].
      intros Hnot. exfalso. apply Hnot. rewrite fmap_cons, Heq. by left.
    + destruct (IH (Backmarket.save env category q s).2 d Hall Hu1) as (d' & Hd' & Hsame).
      { by rewrite (save_frame_key category q s k Hq Hne). }
      exists d'. split; [done |].
      intros Hnot. apply Hsame. rewrite fmap_cons in Hnot.
      by apply not_elem_of_cons in Hnot as [_ Hnot].
Qed.

End BatchFacts.

(** C6. A persistence failure on one listing does not stop the batch.  On a
    catalog that respects the unique index, the loop over a batch of
    extracted listings never throws and makes one upsert per listing, in
    order.  Whatever happened to the listings before it, each listing gets
    its turn, and the listings after it theirs.  A listing the store does
    not reject is committed: its key holds exactly one record of the final
    catalog, with the fields of its update unless a later listing of the
    batch has the same identifier and was written over it.  A listing the
    store rejects leaves the catalog as it was, and its error is logged
    with the name of the product.  (The listings the walker hands on all
    carry the source tag and an identifier, [scrapeCategory_emits]; two
    of them may share an identifier.) *)
Theorem persistence_failure_isolated env category products s :
  Store.unique (store s) →
  Forall listing products →
  (for_of products (Backmarket.save env category) s).1 = Return () ∧
  (∃ evs,
     trace (for_of products (Backmarket.save env category) s).2 = evs ++ trace s ∧
     (λ call, call.1.1) <$> syncs evs = Backmarket.sync_filter <$> products) ∧
  Store.unique (store (for_of products (Backmarket.save env category) s).2) ∧
  ∀ before p after,
    products = before ++ p :: after →
    for_of products (Backmarket.save env category) s
    = for_of after (Backmarket.save env category)
        (Backmarket.save env category p
           (for_of before (Backmarket.save env category) s).2).2 ∧
    (accepts env category p (for_of before (Backmarket.save env category) s).2 →
     ∃ d, Store.under_key (VStr "Backmarket") (prop p "sourceId")
            (store (for_of products (Backmarket.save env category) s).2) = [d] ∧
          (prop p "sourceId" ∉ (λ q, prop q "sourceId") <$> after →
           Backmarket.sync_update category p
             (Date_now env (now (for_of before (Backmarket.save env category) s).2))
           ⊆ d)) ∧
    (¬ accepts env category p (for_of before (Backmarket.save env category) s).2 →
     store (Backmarket.save env category p
              (for_of before (Backmarket.save env category) s).2).2
     = store (for_of before (Backmarket.save env category) s).2 ∧
     trace (Backmarket.save env category p
              (for_of before (Backmarket.save env category) s).2).2
     = LogError ("Error saving product " +:+ Backmarket.name_text p +:+ ":") StoreError
       :: FindOneAndUpdate (Backmarket.sync_filter p)
            (Backmarket.sync_update category p
               (Date_now env (now (for_of before (Backmarket.save env category) s).2)))
            false
       :: trace (for_of before (Backmarket.save env category) s).2).
Proof.
  intros Hu Hall.
  split; [apply batch_returns |].
  split; [apply batch_trace |].
  split; [by apply batch_unique |].
  intros before p after ->.
  apply Forall_app in Hall as [Hbefore Hrest].
  apply Forall_cons in Hrest as [Hp Hafter].
  pose proof (batch_unique env category before s Hbefore Hu) as Hup.
  assert (Hrun : for_of (before ++ p :: after) (Backmarket.save env category) s
                 = for_of after (Backmarket.save env category)
                     (Backmarket.save env category p
                        (for_of before (Backmarket.save env category) s).2).2)
    by (by rewrite batch_app, batch_unfold).
  split; [done |]. split.
  - intros Hacc. rewrite Hrun.
    destruct Hp as (Hn & Hpr & Hs & sid & Hi).
    destruct (save_accepted env category p sid _ Hs Hi Hup Hacc)
      as (d & Hsub & Hk & Hu1 & _).
    assert (Hsid : prop p "sourceId" = VStr sid) by (unfold prop; by rewrite Hi).
    rewrite Hsid.
    destruct (batch_keeps_key env category after _ (VStr sid) d Hafter Hu1 Hk)
      as (d' & Hd' & Hsame).
    exists d'. split; [done |]. intros Hnot. by rewrite (Hsame Hnot).
  - intros Hrej. by rewrite (save_rejected env category p _ Hrej).
Qed.

(** The batch of three whose second upsert the store rejects: the first
    and the third listing are committed, the second is logged. *)
Lemma persistence_failure_isolated_witness :
  (∃ d, Store.under_key (VStr "Backmarket") (VStr "iphone-12")
          (store (for_of Examples.batch
                    (Backmarket.save (Examples.world [] Examples.reject_broken)
                       "Smartphones")
                    (Examples.running [])).2) = [d] ∧
        Backmarket.sync_update "Smartphones" (Examples.iphone_at "$1,299.99 USD")
          1700000000001 ⊆ d) ∧
  (∃ d, Store.under_key (VStr "Backmarket") (VStr "pixel-7")
          (store (for_of Examples.batch
                    (Backmarket.save (Examples.world [] Examples.reject_broken)
                       "Smartphones")
                    (Examples.running [])).2) = [d] ∧
        Backmarket.sync_update "Smartphones"
          (Examples.extracted Examples.pixel
             (Examples.page (Some "Pixel 7") (Some "$399.00") None [Examples.photo]))
          1700000000004 ⊆ d) ∧
  store (Backmarket.save (Examples.world [] Examples.reject_broken) "Smartphones"
           (Examples.extracted Examples.broken
              (Examples.page (Some "Broken") (Some "$5") None [Examples.photo]))
           (for_of [Examples.iphone_at "$1,299.99 USD"]
              (Backmarket.save (Examples.world [] Examples.reject_broken)
                 "Smartphones")
              (Examples.running [])).2).2
  = store (for_of [Examples.iphone_at "$1,299.99 USD"]
             (Backmarket.save (Examples.world [] Examples.reject_broken)
                "Smartphones")
             (Examples.running [])).2.
Proof.
  assert (Hlisting : Forall listing Examples.batch).
  { repeat constructor; eexists; reflexivity. }
  assert (Hunique : Store.unique (store (Examples.running []))) by constructor.
  pose proof (persistence_failure_isolated
                (Examples.world [] Examples.reject_broken) "Smartphones"
                Examples.batch (Examples.running []) Hunique Hlisting)
    as (_ & _ & _ & Heach).
  split; [| split].
  - destruct (Heach [] (Examples.iphone_at "$1,299.99 USD")
                [ Examples.extracted Examples.broken
                    (Examples.page (Some "Broken") (Some "$5") None [Examples.photo]);
                  Examples.extracted Examples.pixel
                    (Examples.page (Some "Pixel 7") (Some "$399.00") None
                       [Examples.photo]) ] eq_refl) as (_ & Hok & _).
    destruct (Hok eq_refl) as (d & Hd & Hsub).
    exists d. split; [exact Hd |]. apply Hsub.
    apply (bool_decide_unpack _). vm_compute. exact I.
  - destruct (Heach [ Examples.iphone_at "$1,299.99 USD";
                      Examples.extracted Examples.broken
                        (Examples.page (Some "Broken") (Some "$5") None
                           [Examples.photo]) ]
                (Examples.extracted Examples.pixel
                   (Examples.page (Some "Pixel 7") (Some "$399.00") None
                      [Examples.photo]))
                [] eq_refl) as (_ & Hok & _).
    destruct (Hok eq_refl) as (d & Hd & Hsub).
    exists d. split; [exact Hd |]. apply Hsub.
    apply (bool_decide_unpack _). vm_compute. exact I.
  - destruct (Heach [Examples.iphone_at "$1,299.99 USD"]
                (Examples.extracted Examples.broken
                   (Examples.page (Some "Broken") (Some "$5") None [Examples.photo]))
                [ Examples.extracted Examples.pixel
                    (Examples.page (Some "Pixel 7") (Some "$399.00") None
                       [Examples.photo]) ] eq_refl) as (_ & _ & Hbad).
    apply Hbad. vm_compute. discriminate.
Defined.

(** The batch of the witness: the second of three upserts fails, and the
    two others are in the catalog. *)
Example batch_of_three :
  (λ call, call.2) <$>
    syncs (trace (for_of Examples.batch
                    (Backmarket.save (Examples.world [] Examples.reject_broken) "Smartphones")
                    (Examples.running [])).2) = [true; false; true] ∧
  (λ d, prop d "name") <$>
    store (for_of Examples.batch
             (Backmarket.save (Examples.world [] Examples.reject_broken) "Smartphones")
             (Examples.running [])).2 = [VStr "iPhone 12"; VStr "Pixel 7"].
Proof. split; vm_compute; reflexivity. Qed.

(** ** The bound of the category walk *)

Section WalkFacts.

Context (env : Env).

Lemma navigates_ret {A} (a : A) : navigates_at_most 0 (mret a).
Proof. intros s. by exists []. Qed.

Lemma navigates_throw {A} e : navigates_at_most 0 (@throw A e).
Proof. intros s. by exists []. Qed.

Lemma navigates_log e :
  (∀ url ok, e ≠ Goto url ok) → navigates_at_most 0 (log e).
Proof.
  intros He s. exists [e]. split; [done |].
  rewrite navigations_cons. destruct e; simpl; try done.
  by destruct (He url ok).
Qed.

Lemma navigates_goto url : navigates_at_most 1 (goto env url).
Proof.
  intros s. unfold goto.
  destruct (navigate env (now s) url); by eexists [_].
Qed.

Lemma navigates_bind {A B} n k (m : M A) (f : A → M B) :
  navigates_at_most n m → (∀ a, navigates_at_most k (f a)) →
  navigates_at_most (n + k) (m ≫= f).
Proof.
  intros Hm Hf s. destruct (Hm s) as (e1 & H1 & L1). unfold mbind, M_bind.
  destruct (m s) as [[a | e] s1]; simpl in *.
  - destruct (Hf a s1) as (e2 & H2 & L2). exists (e2 ++ e1). split.
    + by rewrite H2, H1, app_assoc.
    + rewrite navigations_app, length_app. lia.
  - exists e1. split; [done | lia].
Qed.

Lemma navigates_try_catch {A} n k (m : M A) (h : error → M A) :
  navigates_at_most n m → (∀ e, navigates_at_most k (h e)) →
  navigates_at_most (n + k) (try_catch m h).
Proof.
  intros Hm Hh s. destruct (Hm s) as (e1 & H1 & L1). unfold try_catch.
  destruct (m s) as [[a | e] s1]; simpl in *.
  - exists e1. split; [done | lia].
  - destruct (Hh e s1) as (e2 & H2 & L2). exists (e2 ++ e1). split.
    + by rewrite H2, H1, app_assoc.
    + rewrite navigations_app, length_app. lia.
Qed.

Lemma navigates_weaken {A} n k (m : M A) :
  (n ≤ k)%nat → navigates_at_most n m → navigates_at_most k m.
Proof.
  intros Hle Hm s. destruct (Hm s) as (evs & H & L). exists evs.
  split; [done | lia].
Qed.

Lemma navigates_for_of_acc {A S} (xs : list A) (acc : S) (body : A → S → M S) :
  (∀ x acc, navigates_at_most 1 (body x acc)) →
  navigates_at_most (length xs) (for_of_acc xs acc body).
Proof.
  intros H. revert acc. induction xs as [| x xs IH]; intros acc; simpl.
  - apply navigates_ret.
  - apply (navigates_bind 1 (length xs)); [apply H | apply IH].
Qed.

(** One extraction attempt loads one page at most. *)
Lemma navigates_scrapeProduct url :
  navigates_at_most 1 (Backmarket.scrapeProduct env url).
Proof.
  unfold Backmarket.scrapeProduct.
  apply (navigates_try_catch 1 0).
  - apply (navigates_bind 0 1).
    { intros s. unfold Backmarket.this_browser_newPage, newPage.
      destruct (this_browser s); [by exists [NewPage] | by exists []]. }
    intros _. apply (navigates_bind 1 0); [apply navigates_goto |].
    intros dom. destruct (_ || _); [apply navigates_throw |].
    apply (navigates_bind 0 0); [by apply navigates_log |].
    intros _. apply navigates_ret.
  - intros e. apply (navigates_bind 0 0); [by apply navigates_log |].
    intros _. apply navigates_throw.
Qed.

(** URL discovery stops at the limit. *)
Lemma collect_links_bound limit hrefs :
  0 ≤ limit →
  Z.of_nat (length (Backmarket.collect_links limit hrefs)) ≤ limit.
Proof.
  intros Hl. unfold Backmarket.collect_links.
  assert (Hgen : ∀ acc : list string,
            Z.of_nat (length acc) ≤ limit →
            Z.of_nat (length (foldl
              (λ links href,
                 if (Z.of_nat (length links) <? limit) && negb (String.eqb href "")
                 then links ++ [href] else links) acc hrefs)) ≤ limit).
  { induction hrefs as [| href hrefs IH]; intros acc Hacc; simpl; [done |].
    apply IH. destruct (Z.of_nat (length acc) <? limit) eqn:Hlt; simpl; [| done].
    destruct (negb (String.eqb href "")); [| done].
    apply Z.ltb_lt in Hlt. rewrite length_app. simpl. lia. }
  apply Hgen. simpl. lia.
Qed.

(** The loop over the collected links. *)
Lemma navigates_links links :
  navigates_at_most (length links)
    (for_of_acc links [] (Backmarket.each_link env)).
Proof.
  apply navigates_for_of_acc. intros link products.
  apply (navigates_try_catch 1 0).
  - apply (navigates_bind 1 0); [apply navigates_scrapeProduct |].
    intros p. apply navigates_ret.
  - intros e. apply (navigates_bind 0 0); [by apply navigates_log |].
    intros _. apply navigates_ret.
Qed.

(** The walker without a browser. *)
Lemma scrapeCategory_no_browser categoryUrl limit s :
  this_browser s = None →
  Backmarket.scrapeCategory env categoryUrl limit s =
  (Throw TypeError,
   emit (LogError ("Error scraping category " +:+ categoryUrl +:+ ":") TypeError) s).
Proof.
  intros Hb.
  unfold Backmarket.scrapeCategory, try_catch, mbind, M_bind,
    Backmarket.this_browser_newPage.
  by rewrite Hb.
Qed.

(** The walker whose listing page does not load: it logs and rethrows. *)
Lemma scrapeCategory_not_loaded categoryUrl limit s h :
  this_browser s = Some h →
  navigate env (S (now s)) (Backmarket.baseUrl env +:+ categoryUrl) = None →
  Backmarket.scrapeCategory env categoryUrl limit s =
  (Throw (NavigationError (Backmarket.baseUrl env +:+ categoryUrl)),
   emit (LogError ("Error scraping category " +:+ categoryUrl +:+ ":")
           (NavigationError (Backmarket.baseUrl env +:+ categoryUrl)))
     (emit (Goto (Backmarket.baseUrl env +:+ categoryUrl) false)
        (emit NewPage s))).
Proof.
  intros Hb Hnav.
  unfold Backmarket.scrapeCategory, try_catch, mbind, M_bind,
    Backmarket.this_browser_newPage, newPage, goto.
  rewrite Hb. simpl. unfold now in *. simpl. by rewrite Hnav.
Qed.

(** The walker whose listing page loads: the loop over the collected
    links runs from the state after the page is closed. *)
Lemma scrapeCategory_loaded categoryUrl limit s h dom :
  this_browser s = Some h →
  navigate env (S (now s)) (Backmarket.baseUrl env +:+ categoryUrl) = Some dom →
  Backmarket.scrapeCategory env categoryUrl limit s =
  match for_of_acc (Backmarket.collect_links limit (product_cards dom)) []
          (Backmarket.each_link env)
          (emit PageClose
             (emit (Goto (Backmarket.baseUrl env +:+ categoryUrl) true)
                (emit NewPage s))) with
  | (Return products, s') => (Return products, s')
  | (Throw e, s') =>
      (Throw e,
       emit (LogError ("Error scraping category " +:+ categoryUrl +:+ ":") e) s')
  end.
Proof.
  intros Hb Hnav.
  unfold Backmarket.scrapeCategory, try_catch, mbind, M_bind,
    Backmarket.this_browser_newPage, newPage, goto.
  rewrite Hb. simpl. unfold now in *. simpl. rewrite Hnav. simpl.
  by destruct (for_of_acc _ _ _ _) as [[ps | e] s3].
Qed.

End WalkFacts.

(** C9. A category walk with item bound N collects at most N product URLs
    from the listing page, and makes at most N extraction attempts: the
    pages loaded by the walk are the listing page and then at most N
    product pages. *)
Theorem category_walk_bounded env categoryUrl limit s :
  0 ≤ limit →
  (∀ hrefs, Z.of_nat (length (Backmarket.collect_links limit hrefs)) ≤ limit) ∧
  ∃ evs,
    trace (Backmarket.scrapeCategory env categoryUrl limit s).2 = evs ++ trace s ∧
    (navigations evs = [] ∨
     ∃ attempted,
       navigations evs = (Backmarket.baseUrl env +:+ categoryUrl) :: attempted ∧
       Z.of_nat (length attempted) ≤ limit).
Proof.
  intros Hl. split; [intros hrefs; by apply collect_links_bound |].
  destruct (this_browser s) as [h |] eqn:Hb.
  2:{ rewrite scrapeCategory_no_browser by done. eexists [_]. split; [done |].
      by left. }
  destruct (navigate env (S (now s)) (Backmarket.baseUrl env +:+ categoryUrl))
    as [dom |] eqn:Hnav.
  2:{ rewrite (scrapeCategory_not_loaded env categoryUrl limit s h) by done.
      eexists [_; _; _]. split; [done |]. right. exists [].
      split; [done | simpl; lia]. }
  rewrite (scrapeCategory_loaded env categoryUrl limit s h dom) by done.
  pose proof (collect_links_bound limit (product_cards dom) Hl) as Hlen.
  destruct (navigates_links env (Backmarket.collect_links limit (product_cards dom))
              (emit PageClose (emit (Goto (Backmarket.baseUrl env +:+ categoryUrl) true)
                                    (emit NewPage s))))
    as (evs & Htr & Hn).
  destruct (for_of_acc _ _ _ _) as [[ps | e] s3]; simpl in *.
  - exists (evs ++ [PageClose; Goto (Backmarket.baseUrl env +:+ categoryUrl) true; NewPage]).
    split; [by rewrite Htr, <- app_assoc |].
    right. exists (navigations evs). split.
    + by rewrite navigations_app.
    + lia.
  - exists (LogError ("Error scraping category " +:+ categoryUrl +:+ ":") e
            :: evs ++ [PageClose; Goto (Backmarket.baseUrl env +:+ categoryUrl) true; NewPage]).
    split; [rewrite Htr; simpl; by rewrite <- app_assoc |].
    right. exists (navigations evs). split.
    + by rewrite navigations_cons, navigations_app, app_nil_r.
    + lia.
Qed.

Lemma category_walk_bounded_witness :
  (∀ hrefs, Z.of_nat (length (Backmarket.collect_links 5 hrefs)) ≤ 5) ∧
  ∃ evs,
    trace (Backmarket.scrapeCategory
             (Examples.world Examples.pages_ten Examples.accept_all)
             "/us/en-us/c/smartphones" 5 (Examples.running [])).2
    = evs ++ trace (Examples.running []) ∧
    (navigations evs = [] ∨
     ∃ attempted,
       navigations evs
       = (Backmarket.baseUrl (Examples.world Examples.pages_ten Examples.accept_all)
          +:+ "/us/en-us/c/smartphones") :: attempted ∧
       Z.of_nat (length attempted) ≤ 5).
Proof.
  apply (category_walk_bounded
           (Examples.world Examples.pages_ten Examples.accept_all)
           "/us/en-us/c/smartphones" 5 (Examples.running [])).
  lia.
Defined.

(** The walk of the witness: ten links on the page, five collected, five
    product pages loaded after the listing page. *)
Example walk_of_five :
  length Examples.ten_links = 10%nat ∧
  Backmarket.collect_links 5 Examples.ten_links = take 5 Examples.ten_links ∧
  navigations
    (trace (Backmarket.scrapeCategory
              (Examples.world Examples.pages_ten Examples.accept_all)
              "/us/en-us/c/smartphones" 5 (Examples.running [])).2)
  = Examples.smartphones :: take 5 Examples.ten_links.
Proof. repeat split; vm_compute; reflexivity. Qed.

(** ** A category that fails *)

Section CategoryFailure.

Context (env : Env).

Lemma for_of_app {A} (xs ys : list A) (body : A → M unit) s s1 :
  for_of xs body s = (Return (), s1) →
  for_of (xs ++ ys) body s = for_of ys body s1.
Proof.
  revert s. induction xs as [| x xs IH]; intros s; simpl.
  - by intros [= ->].
  - unfold mbind, M_bind. destruct (body x s) as [[[] | e] s']; [| done].
    apply IH.
Qed.

(** When the walker throws, the iteration of its category throws, in the
    state the walker left. *)
Lemma each_category_throws category s e s2 :
  Backmarket.scrapeCategory env category.2 10
    (emit (LogInfo ("Scraping category: " +:+ category.1)) s) = (Throw e, s2) →
  Backmarket.each_category env category s = (Throw e, s2).
Proof.
  intros H. unfold Backmarket.each_category, mbind, M_bind, log. by rewrite H.
Qed.

End CategoryFailure.

(** C4, as the code has it.  An exception of the walker is caught by the
    driver and logged, but the [try] spans the whole loop: the loop over
    the categories ends at the category that throws.  After the walker's
    throw the run only logs the error and closes the browser; the
    categories that follow are not walked. *)
Theorem category_failure_ends_run env s before category after e s1 s2 :
  Backmarket.categories = before ++ category :: after →
  launch_ok env (now s) = true →
  for_of before (Backmarket.each_category env) (launched_from s) = (Return (), s1) →
  Backmarket.scrapeCategory env category.2 10
    (emit (LogInfo ("Scraping category: " +:+ category.1)) s1) = (Throw e, s2) →
  Backmarket.scrapeAndSave env s =
  (Return (),
   emit (BrowserClose (now s))
     (emit (LogError "Error in scraping process:" e) s2)).
Proof.
  intros Hcats Hl Hbefore Hthrow.
  rewrite (scrapeAndSave_launched env s Hl), Hcats.
  rewrite (for_of_app _ _ _ _ s1 Hbefore).
  simpl. unfold mbind at 1, M_bind at 1.
  by rewrite (each_category_throws env category s1 e s2 Hthrow).
Qed.

Lemma category_failure_ends_run_witness :
  Backmarket.scrapeAndSave Examples.laptops_down (fresh []) =
  (Return (),
   emit (BrowserClose (now (fresh [])))
     (emit (LogError "Error in scraping process:"
              (NavigationError Examples.laptops))
        Examples.laptops_thrown)).
Proof.
  apply (category_failure_ends_run Examples.laptops_down (fresh [])
           [("Smartphones", "/us/en-us/c/smartphones")]
           ("Laptops", "/us/en-us/c/laptops")
           [("Tablets", "/us/en-us/c/tablets")]
           (NavigationError Examples.laptops)
           Examples.before_laptops Examples.laptops_thrown).
  - reflexivity.
  - reflexivity.
  - vm_compute. reflexivity.
  - vm_compute. reflexivity.
Defined.

(** C4, as the claim states it, fails: the Laptops page does not load, the
    walker throws, and Tablets, whose page would load, is never walked. *)
Lemma category_failure_counterexample :
  launch_ok Examples.laptops_down 0 = true ∧
  (Backmarket.scrapeCategory Examples.laptops_down "/us/en-us/c/laptops" 10
     (emit (LogInfo "Scraping category: Laptops") Examples.before_laptops)).1
  = Throw (NavigationError Examples.laptops) ∧
  navigate Examples.laptops_down 0 Examples.tablets ≠ None ∧
  (Examples.tablets
     ∉ navigations (trace (Backmarket.scrapeAndSave Examples.laptops_down (fresh [])).2)) ∧
  (¬ every_category_walked Examples.laptops_down []).
Proof.
  assert (Hnot : Examples.tablets
    ∉ navigations (trace (Backmarket.scrapeAndSave Examples.laptops_down (fresh [])).2)).
  { apply (bool_decide_unpack _). vm_compute. exact I. }
  split; [reflexivity |]. split; [vm_compute; reflexivity |].
  split; [by vm_compute |]. split; [exact Hnot |].
  intros Hall. apply Hnot.
  apply (Hall ("Tablets", "/us/en-us/c/tablets")).
  apply (bool_decide_unpack _). vm_compute. exact I.
Qed.

(** ** Prices *)

Section PriceFacts.

(** [replace(/[^0-9.]/g, '')] keeps the digits and the decimal points, in
    order, and nothing else. *)
Lemma strip_non_numeric_filter text :
  list_ascii_of_string (Text.strip_non_numeric text)
  = filter (λ c, Text.is_numeric_char c) (list_ascii_of_string text).
Proof.
  induction text as [| c text IH]; [done |].
  cbn [Text.strip_non_numeric list_ascii_of_string].
  destruct (Text.is_numeric_char c) eqn:Hc.
  - rewrite filter_cons_True by (by rewrite Hc).
    cbn [list_ascii_of_string]. by rewrite IH.
  - rewrite filter_cons_False by (rewrite Hc; exact id). done.
Qed.

(** The binary64 value nearest to 1299.99: within half a unit in the last
    place, with a 53-bit significand. *)
Lemma double_1299_99_nearest :
  2 ^ 52 ≤ 5717416483970089 < 2 ^ 53 ∧
  2 * Z.abs (100 * 5717416483970089 - 129999 * 2 ^ 42) ≤ 100.
Proof. by vm_compute. Qed.

(** White space is not a digit nor a decimal point. *)
Lemma white_space_not_numeric c :
  Text.is_white_space c = true → Text.is_numeric_char c = false.
Proof.
  destruct c as [[] [] [] [] [] [] [] []]; vm_compute; congruence.
Qed.

Lemma strip_trim_start text :
  Text.strip_non_numeric (Text.trim_start text) = Text.strip_non_numeric text.
Proof.
  induction text as [| c text IH]; [done |].
  cbn [Text.trim_start]. destruct (Text.is_white_space c) eqn:Hc; [| done].
  cbn [Text.strip_non_numeric]. by rewrite (white_space_not_numeric c Hc).
Qed.

Lemma strip_rev_app s1 s2 :
  Text.strip_non_numeric (String.rev_app s1 s2)
  = String.rev_app (Text.strip_non_numeric s1) (Text.strip_non_numeric s2).
Proof.
  revert s2. induction s1 as [| c s1 IH]; intros s2; [done |].
  cbn [String.rev_app]. rewrite IH. cbn [Text.strip_non_numeric].
  by destruct (Text.is_numeric_char c).
Qed.

Lemma rev_app_rev_app s1 s2 s3 :
  String.rev_app (String.rev_app s1 s2) s3 = String.rev_app s2 (s1 +:+ s3).
Proof.
  revert s2. induction s1 as [| c s1 IH]; intros s2; [done |].
  cbn [String.rev_app]. by rewrite IH.
Qed.

Lemma rev_rev s : String.rev (String.rev s) = s.
Proof.
  unfold String.rev. rewrite rev_app_rev_app. cbn [String.rev_app].
  induction s as [| c s IH]; [done |].
  change (String c (s +:+ "") = String c s). by rewrite IH.
Qed.

(** Trimming the text before stripping it changes nothing: what is trimmed
    would be stripped. *)
Lemma strip_trim text :
  Text.strip_non_numeric (Text.trim text) = Text.strip_non_numeric text.
Proof.
  unfold Text.trim, String.rev.
  rewrite strip_rev_app, strip_trim_start, strip_rev_app, strip_trim_start.
  cbn [Text.strip_non_numeric].
  apply (rev_rev (Text.strip_non_numeric text)).
Qed.

(** The price the Newegg script extracts from a price element: the parse
    of what is left of its text, or 0 when nothing is left. *)
Lemma newegg_price_of_text item text :
  item_price item = Some text →
  Newegg.price (Newegg.extract item)
  = if decide (Text.strip_non_numeric text = "") then Num.zero
    else Num.parseFloat (Text.strip_non_numeric text).
Proof.
  intros H. unfold Newegg.extract, Newegg.extract_price. simpl.
  rewrite H. simpl. rewrite strip_trim. unfold Newegg.text_or.
  destruct (String.eqb_spec (Text.strip_non_numeric text) "") as [-> | Hne].
  - by rewrite decide_True.
  - by rewrite decide_False.
Qed.

(** An item of the grid whose price is 0 is not extracted. *)
Lemma newegg_zero_dropped item :
  Newegg.price (Newegg.extract item) = Num.zero →
  Newegg.evaluate_products [item] = [].
Proof.
  intros Hz. unfold Newegg.evaluate_products. simpl.
  rewrite filter_cons_False; [done |].
  rewrite Hz. by rewrite andb_false_r.
Qed.

End PriceFacts.

(** C8, as the code has it.  Both scrapers strip every character other
    than digits and the decimal point from the text of the price element
    and parse what is left as a decimal, so "$1,299.99 USD" is 1299.99.
    In the Backmarket scraper a missing price element gives [null], not
    zero, and the extraction fails; so it does when nothing is left of the
    text, which parses to [NaN]; a missing original-price element gives
    [null] and the listing is returned.  In the Newegg script the price is
    0 when the price element is missing and when nothing is left of its
    text, and the item is dropped by the filter [price > 0]. *)
Theorem price_extraction env :
  (∀ text,
     list_ascii_of_string (Text.strip_non_numeric text)
     = filter (λ c, Text.is_numeric_char c) (list_ascii_of_string text)) ∧
  (∀ dom text,
     price_text dom = Some text →
     Backmarket.getPrice dom = VNum (Num.parseFloat (Text.strip_non_numeric text))) ∧
  (∀ dom text,
     original_price_text dom = Some text →
     Backmarket.getOriginalPrice dom
     = VNum (Num.parseFloat (Text.strip_non_numeric text))) ∧
  (∀ item text,
     item_price item = Some text →
     Newegg.price (Newegg.extract item)
     = if decide (Text.strip_non_numeric text = "") then Num.zero
       else Num.parseFloat (Text.strip_non_numeric text)) ∧
  Num.parseFloat (Text.strip_non_numeric "$1,299.99 USD") = double_1299_99 ∧
  (∀ url s h dom,
     this_browser s = Some h →
     navigate env (S (now s)) url = Some dom →
     price_text dom = None →
     Backmarket.getPrice dom = VNull ∧
     (Backmarket.scrapeProduct env url s).1
     = Throw (Error "Required product data missing")) ∧
  (∀ url s h dom text,
     this_browser s = Some h →
     navigate env (S (now s)) url = Some dom →
     price_text dom = Some text →
     Text.strip_non_numeric text = "" →
     Backmarket.getPrice dom = VNum Num.NaN ∧
     (Backmarket.scrapeProduct env url s).1
     = Throw (Error "Required product data missing")) ∧
  (∀ url s h dom,
     this_browser s = Some h →
     navigate env (S (now s)) url = Some dom →
     original_price_text dom = None →
     truthy (prop (Backmarket.evaluate_product dom) "name") = true →
     truthy (prop (Backmarket.evaluate_product dom) "price") = true →
     ∃ p, (Backmarket.scrapeProduct env url s).1 = Return p ∧
          p !! "originalPrice" = Some VNull ∧
          prop p "price" = Backmarket.getPrice dom) ∧
  (∀ item,
     item_price item = None ∨
     (∃ text, item_price item = Some text ∧ Text.strip_non_numeric text = "") →
     Newegg.price (Newegg.extract item) = Num.zero ∧
     Newegg.evaluate_products [item] = []).
Proof.
  split; [apply strip_non_numeric_filter |].
  split; [intros dom text H; unfold Backmarket.getPrice; by rewrite H |].
  split; [intros dom text H; unfold Backmarket.getOriginalPrice; by rewrite H |].
  split; [apply newegg_price_of_text |].
  split; [by vm_compute |].
  split.
  { intros url s h dom Hb Hnav Hp.
    assert (Hnull : Backmarket.getPrice dom = VNull)
      by (unfold Backmarket.getPrice; by rewrite Hp).
    split; [done |].
    rewrite (scrapeProduct_missing env url s h dom Hb Hnav); [done |].
    right. by rewrite evaluate_product_price, Hnull. }
  split.
  { intros url s h dom text Hb Hnav Hp Hnone.
    assert (Hnan : Backmarket.getPrice dom = VNum Num.NaN)
      by (unfold Backmarket.getPrice; by rewrite Hp, Hnone).
    split; [done |].
    rewrite (scrapeProduct_missing env url s h dom Hb Hnav); [done |].
    right. by rewrite evaluate_product_price, Hnan. }
  split.
  { intros url s h dom Hb Hnav Ho Hn Hp.
    rewrite (scrapeProduct_found env url s h dom Hb Hnav Hn Hp).
    eexists. split; [done |]. split.
    - rewrite !lookup_insert_ne by done.
      pose proof (evaluate_product_originalPrice dom) as H.
      unfold Backmarket.getOriginalPrice in H. rewrite Ho in H.
      unfold prop in H.
      destruct (Backmarket.evaluate_product dom !! "originalPrice") eqn:E; [| done].
      simpl in H. by subst.
    - unfold prop. rewrite !lookup_insert_ne by done.
      apply evaluate_product_price. }
  intros item Hitem.
  assert (Hz : Newegg.price (Newegg.extract item) = Num.zero).
  { destruct Hitem as [Hp | (text & Hp & Hnone)].
    - unfold Newegg.extract, Newegg.extract_price. simpl. by rewrite Hp.
    - rewrite (newegg_price_of_text item text Hp). by rewrite decide_True. }
  split; [done | by apply newegg_zero_dropped].
Qed.

Lemma price_extraction_witness :
  (Backmarket.getPrice (Examples.page (Some "Broken") None None [Examples.photo]) = VNull ∧
   (Backmarket.scrapeProduct
      (Examples.world Examples.pages_missing_price Examples.accept_all)
      Examples.broken (Examples.running [])).1
   = Throw (Error "Required product data missing")) ∧
  (Backmarket.getPrice
     (Examples.page (Some "Broken") (Some "Free") None [Examples.photo])
   = VNum Num.NaN ∧
   (Backmarket.scrapeProduct
      (Examples.world Examples.pages_free_price Examples.accept_all)
      Examples.broken (Examples.running [])).1
   = Throw (Error "Required product data missing")) ∧
  (∃ p, (Backmarket.scrapeProduct
           (Examples.world Examples.pages_missing_price Examples.accept_all)
           Examples.iphone (Examples.running [])).1 = Return p ∧
        p !! "originalPrice" = Some VNull ∧
        prop p "price"
        = Backmarket.getPrice
            (Examples.page (Some " iPhone 12 ") (Some "$1,299.99 USD") None
               [Examples.photo])) ∧
  (Newegg.price (Newegg.extract Examples.unpriced) = Num.zero ∧
   Newegg.evaluate_products [Examples.unpriced] = []) ∧
  (Newegg.price (Newegg.extract Examples.free) = Num.zero ∧
   Newegg.evaluate_products [Examples.free] = []) ∧
  Newegg.price (Newegg.extract Examples.laptop)
  = Num.parseFloat (Text.strip_non_numeric "$899.00") ∧
  Backmarket.getPrice
    (Examples.page (Some " iPhone 12 ") (Some "$1,299.99 USD") None [Examples.photo])
  = VNum (Num.parseFloat (Text.strip_non_numeric "$1,299.99 USD")) ∧
  Backmarket.getOriginalPrice
    (Examples.page (Some " iPhone 12 ") (Some "$1,299.99 USD") (Some "$1,499.00") [])
  = VNum (Num.parseFloat (Text.strip_non_numeric "$1,499.00")).
Proof.
  pose proof (price_extraction
                (Examples.world Examples.pages_missing_price Examples.accept_all))
    as (_ & Hprice & Horig & Hnewegg & _ & Hmissing & _ & Htolerated & Hzero).
  pose proof (price_extraction
                (Examples.world Examples.pages_free_price Examples.accept_all))
    as (_ & _ & _ & _ & _ & _ & Hnone & _ & _).
  split.
  { apply (Hmissing Examples.broken (Examples.running []) 0%nat
             (Examples.page (Some "Broken") None None [Examples.photo]));
      reflexivity. }
  split.
  { apply (Hnone Examples.broken (Examples.running []) 0%nat
             (Examples.page (Some "Broken") (Some "Free") None [Examples.photo])
             "Free"); reflexivity. }
  split.
  { apply (Htolerated Examples.iphone (Examples.running []) 0%nat
             (Examples.page (Some " iPhone 12 ") (Some "$1,299.99 USD") None
                [Examples.photo])); reflexivity. }
  split; [apply (Hzero Examples.unpriced); left; reflexivity |].
  split; [apply (Hzero Examples.free); right; exists " Free "; split; reflexivity |].
  split; [apply (Hnewegg Examples.laptop "$899.00"); reflexivity |].
  split; [apply (Hprice _ "$1,299.99 USD"); reflexivity |].
  apply (Horig _ "$1,499.00"); reflexivity.
Defined.

(** C8, as the claim states it, fails in the Newegg script: the price of
    an item without a price element is 0, a number, not [null]. *)
Lemma missing_price_counterexample :
  item_price Examples.unpriced = None ∧
  VNum (Newegg.price (Newegg.extract Examples.unpriced)) = VNum (S754_zero false) ∧
  VNum (Newegg.price (Newegg.extract Examples.unpriced)) ≠ VNull.
Proof. split; [reflexivity |]. split; [reflexivity | discriminate]. Qed.

(** ** The key of the upsert *)

Section KeyFacts.

Context (env : Env).

(** Every upsert of a Backmarket run is keyed on (source, sourceId), sets
    the fields of the listing and stamps [updatedAt]. *)
Lemma backmarket_sync_key docs :
  Forall keyed_on_source_and_id
    (trace (Backmarket.scrapeAndSave env (fresh docs)).2).
Proof.
  destruct (scrapeAndSave_emits env keyed_on_source_and_id) with (s := fresh docs)
    as [(evs & Htr & Hall) _]; try done.
  - by intros [].
  - intros c p t ok Hp. pose proof Hp as (_ & _ & _ & sid & Hsid).
    exists p, c, t, sid. split; [done |]. split; [done |].
    unfold Backmarket.sync_filter, prop. rewrite Hsid. simpl.
    split; [| split; [| split; [| split; [| split]]]].
    + rewrite !dom_insert_L, dom_empty_L. set_solver.
    + by rewrite lookup_insert_eq.
    + rewrite lookup_insert_ne by done. by rewrite lookup_insert_eq.
    + intros k H1 H2. by apply sync_update_lookup.
    + unfold Backmarket.sync_update. rewrite lookup_insert_ne by done.
      by rewrite lookup_insert_eq.
    + unfold Backmarket.sync_update. by rewrite lookup_insert_eq.
  - rewrite Htr. simpl. by rewrite app_nil_r.
Qed.

(** The Newegg script does not reach the store with an item that has no
    image. *)
Lemma newegg_save_needs_image product arrays s :
  Newegg.present (Newegg.image product) = false →
  Newegg.save env product arrays s = (Return arrays, s).
Proof.
  intros Hi. unfold Newegg.save. destruct arrays as [saved errors].
  unfold try_catch. by rewrite Hi, andb_false_r.
Qed.

(** The upsert of the Newegg script is keyed on the url alone, and the
    document it writes has no source-native identifier. *)
Lemma newegg_sync_key product t :
  dom (Newegg.sync_filter product) = {[ "sourceUrl" ]} ∧
  Newegg.sync_update product t !! "sourceId" = None ∧
  Newegg.sync_update product t !! "updatedAt" = None.
Proof.
  split; [| by split].
  unfold Newegg.sync_filter. by rewrite dom_singleton_L.
Qed.

End KeyFacts.

(** C2, where the code departs from it.  The Backmarket upsert is keyed on
    (source, sourceId); the Newegg script keys its upsert on the url.  On a
    deals page with two products the two upserts carry the filter
    [{ sourceUrl }]; the documents have the source tag 'newegg' and no
    identifier, so under the unique index on (source, sourceId) the second
    one is refused, and the catalog ends with one record. *)
Theorem newegg_upsert_keyed_on_url :
  (λ call, (map_to_list call.1.1, prop call.1.2 "sourceId", call.2)) <$>
    syncs (trace (Newegg.scrapeNewegg
                    (Examples.world Examples.pages_newegg Examples.accept_all)
                    (fresh [])).2)
  = [ ([("sourceUrl", VStr Examples.laptop_url)], VNull, true);
      ([("sourceUrl", VStr Examples.monitor_url)], VNull, false) ] ∧
  LogErrors "Errors during product saving:" [(VStr "Monitor 27", DuplicateKeyError)]
    ∈ trace (Newegg.scrapeNewegg
               (Examples.world Examples.pages_newegg Examples.accept_all)
               (fresh [])).2 ∧
  (λ d, (Store.index_key d, prop d "name")) <$>
    store (Newegg.scrapeNewegg
             (Examples.world Examples.pages_newegg Examples.accept_all)
             (fresh [])).2
  = [ ((VStr "newegg", VNull), VStr "Laptop 15") ].
Proof.
  split; [vm_compute; reflexivity |]. split; [| vm_compute; reflexivity].
  apply (bool_decide_unpack _). vm_compute. exact I.
Qed.

(** C3, where the code departs from it.  The Backmarket check looks at the
    name and the price only: a listing with a name, a price and no image
    is returned by the extraction, passed to the upsert, and stored with
    an empty image list. *)
Theorem imageless_listing_is_synced :
  Backmarket.getImages
    (Examples.page (Some " iPhone 12 ") (Some "$1,299.99 USD") None []) = [] ∧
  (λ call, (prop call.1.2 "name", prop call.1.2 "images", call.2)) <$>
    syncs (trace (Backmarket.scrapeAndSave
                    (Examples.world Examples.pages_no_image Examples.accept_all)
                    (fresh [])).2)
  = [ (VStr "iPhone 12", VArr [], true) ] ∧
  (λ d, (prop d "name", prop d "images")) <$>
    store (Backmarket.scrapeAndSave
             (Examples.world Examples.pages_no_image Examples.accept_all)
             (fresh [])).2
  = [ (VStr "iPhone 12", VArr []) ].
Proof. repeat split; vm_compute; reflexivity. Qed.

(** ** The embedding on small inputs *)

Example parseFloat_prefix :
  Num.parseFloat "1.2.3" = Num.parseFloat "1.2" ∧
  Num.parseFloat "5." = Num.of_decimal 5 0 ∧
  Num.parseFloat ".5" = Num.of_decimal 5 1 ∧
  Num.parseFloat "" = Num.NaN ∧
  Num.parseFloat "." = Num.NaN ∧
  Num.parseFloat "0.00" = Num.zero.
Proof. repeat split; vm_compute; reflexivity. Qed.

Example parseInt_stock :
  Num.parseInt " 7 left" = Num.of_Z 7 ∧
  Num.parseInt "-3" = Num.of_Z (-3) ∧
  Num.parseInt "n/a" = Num.NaN.
Proof. repeat split; vm_compute; reflexivity. Qed.

Example sourceId_of_url :
  Backmarket.sourceId_of "https://www.backmarket.com/p/iphone-12?l=1" = "iphone-12" ∧
  Backmarket.sourceId_of "https://www.backmarket.com/p/pixel-7" = "pixel-7" ∧
  Backmarket.sourceId_of "https://www.backmarket.com/p/" = "".
Proof. repeat split; vm_compute; reflexivity. Qed.

(** One malformed entry among two well-formed ones: the mapping holds the
    two well-formed pairs. *)
Example getSpecs_skips_malformed :
  map_to_list
    (Backmarket.getSpecs
       (Examples.page None None None [])) = [("RAM", "16GB"); ("Storage", "512GB")]
  ∨ map_to_list
      (Backmarket.getSpecs
         (Examples.page None None None [])) = [("Storage", "512GB"); ("RAM", "16GB")].
Proof. vm_compute. auto. Qed.

Example trim_both_ends : Text.trim "  iPhone 12 " = "iPhone 12".
Proof. reflexivity. Qed.

(** The no-break space is white space: a title made of no-break spaces is
    the empty name, and the listing is rejected. *)
Example trim_no_break_space :
  Text.trim (String "160" (String "009" "iPhone 12" +:+ String "160" "")) = "iPhone 12" ∧
  truthy (prop (Backmarket.evaluate_product
                  (Examples.page (Some (String "160" (String "160" "")))
                     (Some "$5") None []))
            "name") = false.
Proof. split; reflexivity. Qed.

(** * Further properties of the scrapers *)

(** ** URL discovery *)

(** X1. URL discovery takes the first N non-empty links of the listing
    page, in page order; a bound of zero or less collects nothing. *)
Theorem collect_links_take limit hrefs :
  Backmarket.collect_links limit hrefs
  = take (Z.to_nat limit) (filter (λ href, href ≠ "") hrefs).
Proof.
  unfold Backmarket.collect_links.
  assert (Hgen : ∀ acc : list string,
            foldl (λ links href,
                     if (Z.of_nat (length links) <? limit) && negb (String.eqb href "")
                     then links ++ [href] else links) acc hrefs
            = acc ++ take (Z.to_nat limit - length acc)
                       (filter (λ href, href ≠ "") hrefs)).
  { induction hrefs as [| href hrefs IH]; intros acc; cbn [foldl].
    - by rewrite filter_nil, take_nil, app_nil_r.
    - rewrite IH. destruct (String.eqb_spec href "") as [-> | Hne]; simpl.
      + rewrite andb_false_r. by rewrite filter_cons_False by (by intros []).
      + rewrite andb_true_r, filter_cons_True by done.
        destruct (Z.of_nat (length acc) <? limit) eqn:Hlt.
        * apply Z.ltb_lt in Hlt. rewrite length_app. simpl.
          replace (Z.to_nat limit - length acc)%nat
            with (S (Z.to_nat limit - (length acc + 1)))%nat by lia.
          simpl. by rewrite <- app_assoc.
        * apply Z.ltb_ge in Hlt.
          replace (Z.to_nat limit - length acc)%nat with 0%nat by lia.
          by rewrite !take_0. }
  rewrite Hgen. simpl. by rewrite Nat.sub_0_r.
Qed.

(** ** The source-native identifier *)

Section SplitFacts.

Lemma append_cons c (a b : string) : String c a +:+ b = String c (a +:+ b).
Proof. reflexivity. Qed.

Lemma append_empty (b : string) : "" +:+ b = b.
Proof. reflexivity. Qed.

Lemma split_not_nil sep s : Text.split sep s ≠ [].
Proof.
  destruct s as [| c s]; simpl; [done |].
  destruct (Ascii.eqb c sep); [done |].
  by destruct (Text.split sep s).
Qed.

(** A text without the separator is one piece. *)
Lemma split_no_sep sep s : contains sep s = false → Text.split sep s = [s].
Proof.
  induction s as [| c s IH]; simpl; [done |].
  intros [Hc Hs]%orb_false_elim. rewrite Hc, (IH Hs). done.
Qed.

(** [(a + sep + b).split(sep)] is [a.split(sep)] followed by
    [b.split(sep)]. *)
Lemma split_app sep a b :
  Text.split sep (a +:+ String sep b) = Text.split sep a ++ Text.split sep b.
Proof.
  induction a as [| c a IH].
  - rewrite append_empty. simpl. by rewrite Ascii.eqb_refl.
  - rewrite append_cons. simpl. rewrite IH.
    destruct (Ascii.eqb c sep); [done |].
    pose proof (split_not_nil sep a).
    by destruct (Text.split sep a).
Qed.

Lemma last_app_not_nil {A} (l1 l2 : list A) d :
  l2 ≠ [] → List.last (l1 ++ l2) d = List.last l2 d.
Proof.
  intros Hne. induction l1 as [| x l1 IH]; [done |].
  simpl. rewrite IH. destruct (l1 ++ l2) eqn:E; [| done].
  apply app_eq_nil in E as [_ ->]. done.
Qed.

(** The pieces hold no separator, and no character the text does not
    hold. *)
Lemma split_pieces sep s :
  Forall (λ w, contains sep w = false ∧
               ∀ c, contains c s = false → contains c w = false)
         (Text.split sep s).
Proof.
  induction s as [| x s IH]; simpl.
  - by repeat constructor.
  - destruct (Ascii.eqb x sep) eqn:Hx.
    + constructor; [done |].
      eapply Forall_impl; [exact IH |]. intros w [Hw Hc]. split; [done |].
      intros c [_ Hs]%orb_false_elim. by apply Hc.
    + pose proof (split_not_nil sep s).
      destruct (Text.split sep s) as [| w ws]; [done |].
      apply Forall_cons in IH as [[Hw Hc] IH]. constructor.
      * split; [simpl; by rewrite Hx, Hw |].
        intros c [Hxc Hs]%orb_false_elim. simpl. by rewrite Hxc, Hc.
      * eapply Forall_impl; [exact IH |]. intros w' [Hw' Hc']. split; [done |].
        intros c [_ Hs]%orb_false_elim. by apply Hc'.
Qed.

Lemma Forall_last_not_nil {A} (P : A → Prop) (l : list A) d :
  Forall P l → l ≠ [] → P (List.last l d).
Proof.
  induction 1 as [| x l Hx Hl IH]; [done |]. intros _.
  destruct l as [| y l]; [done |]. by apply IH.
Qed.

End SplitFacts.

(** X2. The identifier of a listing is the last path segment of its URL
    without the query string: for a URL [base/segment] or
    [base/segment?query] whose segment holds no slash and no question
    mark, and whose query holds no slash, it is the segment.  So URLs that
    differ only in their query share an identifier, and a URL that ends
    in a slash has the empty identifier. *)
Theorem sourceId_of_segment base segment :
  contains "/" segment = false →
  contains "?" segment = false →
  Backmarket.sourceId_of (base +:+ "/" +:+ segment) = segment ∧
  ∀ query,
    contains "/" query = false →
    Backmarket.sourceId_of (base +:+ "/" +:+ segment +:+ "?" +:+ query) = segment.
Proof.
  intros Hslash Hq. unfold Backmarket.sourceId_of. split.
  - change (base +:+ "/" +:+ segment) with (base +:+ String "/" segment).
    rewrite split_app, last_app_not_nil by apply split_not_nil.
    rewrite (split_no_sep "/" segment Hslash). simpl.
    by rewrite (split_no_sep "?" segment Hq).
  - intros query Hquery.
    change (base +:+ "/" +:+ segment +:+ "?" +:+ query)
      with (base +:+ String "/" (segment +:+ String "?" query)).
    rewrite split_app, last_app_not_nil by apply split_not_nil.
    rewrite (split_no_sep "/" (segment +:+ String "?" query)).
    + simpl. rewrite split_app, (split_no_sep "?" segment Hq). done.
    + clear Hq. induction segment as [| c segment IH].
      * rewrite append_empty. simpl. done.
      * rewrite append_cons. simpl in *.
        apply orb_false_elim in Hslash as [-> Hs]. by rewrite IH.
Qed.

Lemma sourceId_of_segment_witness :
  Backmarket.sourceId_of ("https://www.backmarket.com/p" +:+ "/" +:+ "iphone-12")
  = "iphone-12" ∧
  ∀ query,
    contains "/" query = false →
    Backmarket.sourceId_of
      ("https://www.backmarket.com/p" +:+ "/" +:+ "iphone-12" +:+ "?" +:+ query)
    = "iphone-12".
Proof.
  apply (sourceId_of_segment "https://www.backmarket.com/p" "iphone-12");
    reflexivity.
Defined.

(** X3. The identifier of a listing never holds a slash or a question
    mark, and holds only characters of the URL. *)
Theorem sourceId_of_no_separator url :
  contains "/" (Backmarket.sourceId_of url) = false ∧
  contains "?" (Backmarket.sourceId_of url) = false ∧
  ∀ c, contains c url = false → contains c (Backmarket.sourceId_of url) = false.
Proof.
  unfold Backmarket.sourceId_of.
  pose proof (Forall_last_not_nil _ _ "" (split_pieces "/" url)
                (split_not_nil "/" url)) as [Hslash Hchars].
  set (segment := List.last (Text.split "/" url) "") in *.
  pose proof (split_pieces "?" segment) as Hq.
  pose proof (split_not_nil "?" segment) as Hne.
  destruct (Text.split "?" segment) as [| w ws]; [done |].
  apply Forall_cons in Hq as [[Hw Hc] _]. simpl.
  split; [by apply Hc |]. split; [done |].
  intros c Hurl. by apply Hc, Hchars.
Qed.

Lemma sourceId_of_no_separator_witness :
  contains "/" (Backmarket.sourceId_of Examples.iphone) = false ∧
  contains "?" (Backmarket.sourceId_of Examples.iphone) = false ∧
  contains "#" (Backmarket.sourceId_of Examples.iphone) = false.
Proof.
  destruct (sourceId_of_no_separator Examples.iphone) as (Hslash & Hq & Hchars).
  split; [exact Hslash |]. split; [exact Hq |]. apply Hchars. reflexivity.
Defined.

(** ** Specifications *)

Section SpecsFacts.


End SpecsFacts.



(** ** The sign of a price *)

Section SignFacts.

Lemma of_decimal_not_negative m k : non_negative (Num.of_decimal m k) = true.
Proof.
  unfold Num.of_decimal. destruct m as [| p]; [done |].
  unfold SFdiv, binary_round_aux.
  destruct (SFdiv_core_binary _ _ _ _ _ _) as [[mz ez] lz].
  destruct (shr_fexp _ _ mz ez lz) as [mrs e'].
  destruct (shr_fexp _ _ _ e' _) as [mrs' e''].
  destruct (shr_m mrs'); [done | | done].
  by destruct (Z.leb _ _).
Qed.

Lemma parseFloat_not_negative text : non_negative (Num.parseFloat text) = true.
Proof.
  unfold Num.parseFloat.
  destruct (Num.read_digits 0 0 text) as [[ip ni] rest].
  destruct rest as [| c rest'].
  - destruct (Nat.eqb _ _); [done | apply of_decimal_not_negative].
  - destruct (Ascii.eqb_spec c ".") as [-> | Hc].
    + destruct (Num.read_digits ip 0 rest') as [[m nf] r].
      destruct (Nat.eqb _ _); [done | apply of_decimal_not_negative].
    + assert (Hgen : ∀ x : spec_float,
                non_negative x = true →
                non_negative (if Nat.eqb (ni + 0) 0 then Num.NaN else x) = true)
        by (intros x Hx; by destruct (Nat.eqb _ _)).
      destruct c as [[] [] [] [] [] [] [] []];
        try (apply Hgen, of_decimal_not_negative); by destruct Hc.
Qed.

End SignFacts.

(** X5. No extracted price is negative: the characters that survive the
    strip hold no minus sign, so the price, the original price and the
    price of a Newegg item are [null], [NaN], zero, or a number above
    zero. *)
Theorem extracted_price_not_negative :
  (∀ dom x, Backmarket.getPrice dom = VNum x → non_negative x = true) ∧
  (∀ dom x, Backmarket.getOriginalPrice dom = VNum x → non_negative x = true) ∧
  (∀ item, non_negative (Newegg.price (Newegg.extract item)) = true).
Proof.
  split; [| split].
  - intros dom x. unfold Backmarket.getPrice.
    destruct (price_text dom); [| done].
    intros [= <-]. apply parseFloat_not_negative.
  - intros dom x. unfold Backmarket.getOriginalPrice.
    destruct (original_price_text dom); [| done].
    intros [= <-]. apply parseFloat_not_negative.
  - intros item. apply parseFloat_not_negative.
Qed.

Lemma extracted_price_not_negative_witness :
  non_negative (Num.parseFloat (Text.strip_non_numeric "-$12.50")) = true ∧
  non_negative (Num.parseFloat (Text.strip_non_numeric "-$3.00")) = true.
Proof.
  destruct extracted_price_not_negative as (Hprice & Horiginal & _). split.
  - apply (Hprice (Examples.page None (Some "-$12.50") None [])). reflexivity.
  - apply (Horiginal (Examples.page None None (Some "-$3.00") [])). reflexivity.
Defined.

(** ** Rules for [maintains] *)

Section MaintainsRules.

Context {A B : Type}.
Implicit Types (Q : Event → Prop) (I : list Doc → Prop).

Lemma maintains_of_emits Q I (P : A → Prop) (m : M A) :
  emits Q P m → keeps_store m → maintains Q I P m.
Proof.
  intros He Hk s Hs. destruct (He s) as [Ha Hp].
  split; [done |]. split; [by rewrite Hk | done].
Qed.

Lemma maintains_bind Q I (P : A → Prop) (R : B → Prop) (m : M A) (k : A → M B) :
  maintains Q I P m → (∀ a, P a → maintains Q I R (k a)) →
  maintains Q I R (m ≫= k).
Proof.
  intros Hm Hk s Hs. destruct (Hm s Hs) as (Ha & Hi & Hp).
  unfold mbind, M_bind. destruct (m s) as [[a | e] s1]; simpl in *.
  - destruct (Hk a Hp s1 Hi) as (Ha' & Hi' & Hp').
    split; [by eapply added_trans | done].
  - done.
Qed.

Lemma maintains_try_catch Q I (P : A → Prop) (m : M A) (h : error → M A) :
  maintains Q I P m → (∀ e, maintains Q I P (h e)) →
  maintains Q I P (try_catch m h).
Proof.
  intros Hm Hh s Hs. destruct (Hm s Hs) as (Ha & Hi & Hp).
  unfold try_catch. destruct (m s) as [[a | e] s1]; simpl in *; [done |].
  destruct (Hh e s1 Hi) as (Ha' & Hi' & Hp').
  split; [by eapply added_trans | done].
Qed.

Lemma maintains_try_finally Q I (P : A → Prop) (m : M A) (f : M unit) :
  maintains Q I P m → maintains Q I (λ _, True) f →
  maintains Q I P (try_finally m f).
Proof.
  intros Hm Hf s Hs. destruct (Hm s Hs) as (Ha & Hi & Hp).
  unfold try_finally. destruct (m s) as [r s1]; simpl in *.
  destruct (Hf s1 Hi) as (Ha' & Hi' & _).
  destruct (f s1) as [[[] | e] s2]; simpl in *;
    (split; [by eapply added_trans | done]).
Qed.

Lemma maintains_weaken Q Q' I (P P' : A → Prop) (m : M A) :
  (∀ e, Q e → Q' e) → (∀ a, P a → P' a) →
  maintains Q I P m → maintains Q' I P' m.
Proof.
  intros HQ HP Hm s Hs. destruct (Hm s Hs) as (Ha & Hi & Hp).
  split; [by eapply added_weaken |]. split; [done |].
  destruct (m s).1; auto.
Qed.

End MaintainsRules.

Lemma maintains_ret {A} (Q : Event → Prop) (I : list Doc → Prop)
    (P : A → Prop) a :
  P a → maintains Q I P (mret a).
Proof. intros Hp s Hs. split; [apply added_refl | done]. Qed.

Section MaintainsLoops.

Context {A B : Type}.
Implicit Types (Q : Event → Prop) (I : list Doc → Prop).

Lemma maintains_for_of Q I (xs : list A) (body : A → M unit) :
  (∀ x, x ∈ xs → maintains Q I (λ _, True) (body x)) →
  maintains Q I (λ _, True) (for_of xs body).
Proof.
  induction xs as [| x xs IH]; intros H; simpl.
  - by apply maintains_ret.
  - eapply maintains_bind.
    + apply H. by left.
    + intros _ _. apply IH. intros y Hy. apply H. by right.
Qed.

Lemma maintains_for_of_acc Q I (J : B → Prop) (xs : list A) (acc : B)
    (body : A → B → M B) :
  J acc →
  (∀ x acc, x ∈ xs → J acc → maintains Q I J (body x acc)) →
  maintains Q I J (for_of_acc xs acc body).
Proof.
  revert acc. induction xs as [| x xs IH]; intros acc Hacc H; simpl.
  - by apply maintains_ret.
  - eapply maintains_bind.
    + apply H; [by left | done].
    + intros acc' Hacc'. apply IH; [done |].
      intros y a Hy. apply H. by right.
Qed.

End MaintainsLoops.

Lemma maintains_log Q I e : Q e → maintains Q I (λ _, True) (log e).
Proof. intros H s Hs. split; [by apply added_emit | done]. Qed.

Section MaintainsPipeline.

Context (env : Env).
Implicit Types (Q : Event → Prop) (I : list Doc → Prop).

(** The upsert: a rejected call must be allowed by [Q]; a call the store
    does not reject either trips the unique index or writes. *)
Lemma maintains_findOneAndUpdate Q I filter update :
  (∀ t, store_rejects env t filter update = true →
        Q (FindOneAndUpdate filter update false)) →
  (∀ docs, I docs →
     let '(pre, d, post) := Store.write filter update docs in
     if Store.collides d (pre ++ post)
     then Q (FindOneAndUpdate filter update false)
     else Q (FindOneAndUpdate filter update true) ∧ I (pre ++ d :: post)) →
  maintains Q I (λ _, True) (findOneAndUpdate env filter update).
Proof.
  intros Hrej Hwrite s Hs. specialize (Hwrite (store s) Hs).
  unfold findOneAndUpdate.
  destruct (Store.write filter update (store s)) as [[pre d] post].
  destruct (store_rejects env (now s) filter update) eqn:Hr; simpl.
  { split; [apply added_emit; by eapply Hrej | done]. }
  destruct (Store.collides d (pre ++ post)); simpl.
  { split; [by apply added_emit | done]. }
  destruct Hwrite as [Hq Hi]. split; [| done].
  exists [FindOneAndUpdate filter update true]. split; [done | by constructor].
Qed.

Lemma maintains_save Q I category p :
  (∀ msg e, Q (LogError msg e)) →
  (∀ t, maintains Q I (λ _, True)
          (findOneAndUpdate env (Backmarket.sync_filter p)
             (Backmarket.sync_update category p t))) →
  maintains Q I (λ _, True) (Backmarket.save env category p).
Proof.
  intros Hlog Hsync. unfold Backmarket.save. apply maintains_try_catch.
  - eapply maintains_bind.
    + apply (maintains_of_emits _ _ (λ _, True)); [apply emits_DateNow | done].
    + intros t _. eapply maintains_bind; [apply Hsync |].
      intros _ _. by apply maintains_ret.
  - intros e. by apply maintains_log.
Qed.

(** What [scrapeProduct] returns, in full. *)
Lemma scrapeProduct_scraped url :
  emits browsing scraped (Backmarket.scrapeProduct env url).
Proof.
  unfold Backmarket.scrapeProduct. apply emits_try_catch.
  - eapply emits_bind; [by apply emits_this_browser_newPage |].
    intros _ _. eapply emits_bind; [by apply emits_goto |].
    intros dom _.
    destruct (negb (truthy (prop (Backmarket.evaluate_product dom) "name"))
              || negb (truthy (prop (Backmarket.evaluate_product dom) "price")))
      eqn:Hchk.
    + apply emits_throw.
    + apply orb_false_elim in Hchk as [Hn Hp].
      apply negb_false_iff in Hn, Hp.
      eapply emits_bind; [by apply emits_log |].
      intros _ _. apply emits_ret. by exists url, dom.
  - intros e. eapply emits_bind; [by apply emits_log |].
    intros _ _. apply emits_throw.
Qed.

Lemma scrapeCategory_scraped categoryUrl limit :
  emits browsing (Forall scraped) (Backmarket.scrapeCategory env categoryUrl limit).
Proof.
  unfold Backmarket.scrapeCategory. apply emits_try_catch.
  - eapply emits_bind; [by apply emits_this_browser_newPage |].
    intros _ _. eapply emits_bind; [by apply emits_goto |].
    intros dom _. eapply emits_bind; [by apply emits_log |].
    intros _ _. apply emits_for_of_acc; [by constructor |].
    intros link products _ Hps. unfold Backmarket.each_link.
    apply emits_try_catch.
    + eapply emits_bind; [apply scrapeProduct_scraped |].
      intros p Hp. apply emits_ret. apply Forall_app. split; [done |].
      by constructor.
    + intros e. eapply emits_bind; [by apply emits_log |].
      intros _ _. by apply emits_ret.
  - intros e. eapply emits_bind; [by apply emits_log |].
    intros _ _. apply emits_throw.
Qed.

(** A run, for any property of its events and any invariant of the
    catalog that the upsert of a scraped listing respects. *)
Lemma maintains_scrapeAndSave Q I :
  (∀ e, browsing e → Q e) →
  (∀ h, Q (Launch h)) → (∀ h, Q (BrowserClose h)) →
  (∀ category p, scraped p →
     maintains Q I (λ _, True) (Backmarket.save env category p)) →
  maintains Q I (λ _, True) (Backmarket.scrapeAndSave env).
Proof.
  intros Hb Hl Hc Hsave. unfold Backmarket.scrapeAndSave.
  apply maintains_try_finally.
  - apply maintains_try_catch.
    + apply (maintains_bind _ _ (λ _, True)).
      * intros s Hs. unfold Backmarket.initialize, launch.
        destruct (launch_ok env (now s)); simpl; (split; [| done]).
        -- exists [Launch (Some (now s))]. split; [done | by constructor].
        -- by apply added_emit.
      * intros _ _. apply maintains_for_of. intros c _.
        unfold Backmarket.each_category.
        eapply maintains_bind; [by apply maintains_log, Hb |].
        intros _ _. eapply maintains_bind.
        { apply maintains_of_emits; [| apply keeps_store_scrapeCategory].
          eapply emits_weaken; [exact Hb | | apply scrapeCategory_scraped].
          intros a Ha. exact Ha. }
        intros products Hps. eapply maintains_bind.
        -- apply maintains_for_of. intros p Hp. apply Hsave.
           rewrite Forall_forall in Hps. by apply Hps.
        -- intros _ _. by apply maintains_log, Hb.
    + intros e. by apply maintains_log, Hb.
  - intros s Hs. unfold Backmarket.close. destruct (this_browser s); simpl.
    + split; [by apply added_emit | done].
    + split; [apply added_refl | done].
Qed.

End MaintainsPipeline.

(** ** What a Backmarket run does to the catalog *)

Section RunFacts.

Context (env : Env).

Lemma scraped_source p :
  scraped p →
  p !! "source" = Some (VStr "Backmarket") ∧
  ∃ sid, p !! "sourceId" = Some (VStr sid).
Proof.
  intros (url & dom & -> & _ & _). split; [by lookups |].
  eexists. by lookups.
Qed.

Lemma positive_of_truthy x :
  Num.truthy x = true → non_negative x = true → Num.gt_zero x = true.
Proof. by destruct x as [[] | [] | | [] m e]. Qed.

Lemma scraped_price p :
  scraped p → ∃ x, prop p "price" = VNum x ∧ Num.gt_zero x = true.
Proof.
  intros (url & dom & -> & _ & Hp).
  assert (Hprice : prop (<["sourceId" := VStr (Backmarket.sourceId_of url)]>
                           (<["sourceUrl" := VStr url]>
                              (<["source" := VStr "Backmarket"]>
                                 (Backmarket.evaluate_product dom)))) "price"
                   = Backmarket.getPrice dom).
  { unfold prop. rewrite !lookup_insert_ne by done.
    apply evaluate_product_price. }
  rewrite Hprice. rewrite evaluate_product_price in Hp.
  unfold Backmarket.getPrice in *.
  destruct (price_text dom) as [innerText |]; [| done].
  eexists. split; [done |]. apply positive_of_truthy; [done |].
  apply parseFloat_not_negative.
Qed.

Lemma scraped_dom p : scraped p → dom p ⊆ scraper_fields.
Proof.
  intros (url & dom & -> & _ & _).
  unfold Backmarket.evaluate_product, scraper_fields.
  apply (bool_decide_unpack _). vm_compute. exact I.
Qed.

Lemma kept_refl docs : kept docs docs.
Proof. intros i d Hd. by exists d. Qed.

Lemma kept_trans docs1 docs2 docs3 :
  kept docs1 docs2 → kept docs2 docs3 → kept docs1 docs3.
Proof.
  intros H12 H23 i d Hd.
  destruct (H12 i d Hd) as (d2 & Hd2 & Hk2 & Hf2).
  destruct (H23 i d2 Hd2) as (d3 & Hd3 & Hk3 & Hf3).
  exists d3. split; [done |]. split; [congruence |].
  intros k Hk. rewrite Hf3, Hf2; done.
Qed.

(** An upsert that keeps the key of the record it matches, and writes
    scraper fields only, keeps every record. *)
Lemma kept_write filter update docs :
  (∀ old, Store.matches filter old = true →
          Store.index_key (update ∪ old) = Store.index_key old) →
  dom update ⊆ scraper_fields →
  kept docs ((Store.write filter update docs).1.1
               ++ (Store.write filter update docs).1.2
               :: (Store.write filter update docs).2).
Proof.
  intros Hkey Hdom. unfold Store.write.
  destruct (Store.findOne filter docs) as [[[pre old] post] |] eqn:Hf; simpl.
  - apply findOne_Some in Hf as (-> & Hm & _). intros i d Hd.
    destruct (decide (i = length pre)) as [-> | Hne].
    + rewrite list_lookup_middle in Hd by done. injection Hd as <-.
      exists (update ∪ old). rewrite list_lookup_middle by done.
      split; [done |]. split; [by apply Hkey |].
      intros k Hk. apply lookup_union_r. apply not_elem_of_dom. set_solver.
    + exists d. split; [| done].
      destruct (decide (i < length pre)%nat) as [Hlt | Hge].
      * rewrite lookup_app_l in Hd |- * by done. done.
      * rewrite lookup_app_r in Hd |- * by lia.
        destruct (i - length pre)%nat as [| n] eqn:E; [lia | done].
  - intros i d Hd. exists d. split; [| done].
    by apply lookup_app_l_Some.
Qed.

Lemma scraped_update_key category p t old :
  scraped p →
  Store.matches (Backmarket.sync_filter p) old = true →
  Store.index_key (Backmarket.sync_update category p t ∪ old)
  = Store.index_key old.
Proof.
  intros Hp Hm. destruct (scraped_source p Hp) as (Hs & sid & Hi).
  apply sync_filter_matches in Hm. rewrite Hm.
  rewrite (sync_update_key category p t sid old Hs Hi).
  unfold prop. by rewrite Hi.
Qed.

Lemma scraped_update_dom category p t :
  scraped p → dom (Backmarket.sync_update category p t) ⊆ scraper_fields.
Proof.
  intros Hp. pose proof (scraped_dom p Hp) as Hd.
  unfold Backmarket.sync_update. rewrite !dom_insert_L.
  intros k Hk. rewrite !elem_of_union, !elem_of_singleton in Hk.
  destruct Hk as [-> | [-> | Hk]]; [| | by apply Hd];
    apply (bool_decide_unpack _); vm_compute; exact I.
Qed.

End RunFacts.

(** X6. Every upsert of a Backmarket run carries a price that is a number
    above zero: a listing whose price is missing, unreadable or zero was
    dropped, and the strip leaves no minus sign. *)
Theorem synced_price_positive env s :
  ∃ evs,
    trace (Backmarket.scrapeAndSave env s).2 = evs ++ trace s ∧
    Forall sync_price_positive evs.
Proof.
  assert (H : maintains sync_price_positive (λ _, True) (λ _, True)
                (Backmarket.scrapeAndSave env)).
  { apply maintains_scrapeAndSave; try done.
    - by intros [].
    - intros category p Hp. apply maintains_save; [done |].
      intros t.
      assert (Hq : ∀ ok, sync_price_positive
                (FindOneAndUpdate (Backmarket.sync_filter p)
                   (Backmarket.sync_update category p t) ok)).
      { intros ok. destruct (scraped_price p Hp) as (x & Hx & Hpos).
        exists x. split; [| done]. unfold prop in *.
        by rewrite sync_update_lookup. }
      apply maintains_findOneAndUpdate; [by intros |].
      intros docs _. destruct (Store.write _ _ docs) as [[pre d] post].
      by destruct (Store.collides _ _). }
  destruct (H s I) as (Ha & _). exact Ha.
Qed.

(** X7. When the store rejects nothing, no upsert of a Backmarket run
    fails: on a catalog that respects the unique index the upsert of a
    scraped listing never trips the index, and the index still holds after
    the run. *)
Theorem healthy_store_commits_all env s :
  (∀ t filter update, store_rejects env t filter update = false) →
  Store.unique (store s) →
  Store.unique (store (Backmarket.scrapeAndSave env s).2) ∧
  ∃ evs,
    trace (Backmarket.scrapeAndSave env s).2 = evs ++ trace s ∧
    Forall sync_accepted evs.
Proof.
  intros Hhealthy Hu.
  assert (H : maintains sync_accepted Store.unique (λ _, True)
                (Backmarket.scrapeAndSave env)).
  { apply maintains_scrapeAndSave; try done.
    - by intros [].
    - intros category p Hp. apply maintains_save; [done |].
      intros t. apply maintains_findOneAndUpdate.
      + intros t'. by rewrite Hhealthy.
      + intros docs Hdocs. destruct (scraped_source p Hp) as (Hs & sid & Hi).
        pose proof (backmarket_write category p t sid docs Hs Hi Hdocs) as Hw.
        destruct (Store.write _ _ docs) as [[pre d] post].
        destruct Hw as (-> & Hu' & _). done. }
  destruct (H s Hu) as (Ha & Hi & _). done.
Qed.

Lemma healthy_store_commits_all_witness :
  Store.unique
    (store (Backmarket.scrapeAndSave
              (Examples.world Examples.pages_missing_price Examples.accept_all)
              (fresh [Examples.old_iphone])).2) ∧
  ∃ evs,
    trace (Backmarket.scrapeAndSave
             (Examples.world Examples.pages_missing_price Examples.accept_all)
             (fresh [Examples.old_iphone])).2
    = evs ++ trace (fresh [Examples.old_iphone]) ∧
    Forall sync_accepted evs.
Proof.
  apply (healthy_store_commits_all
           (Examples.world Examples.pages_missing_price Examples.accept_all)
           (fresh [Examples.old_iphone])).
  - reflexivity.
  - apply (bool_decide_unpack _). vm_compute. exact I.
Defined.

(** X8. A Backmarket run never deletes or moves a record, never changes
    the key of a record, and never touches a field that is not a scraper
    field: the ratings, the average rating, the review count and the
    creation date of every record are after the run what they were
    before. *)
Theorem run_keeps_records env s :
  kept (store s) (store (Backmarket.scrapeAndSave env s).2).
Proof.
  assert (H : maintains (λ _, True) (kept (store s)) (λ _, True)
                (Backmarket.scrapeAndSave env)).
  { apply maintains_scrapeAndSave; try done.
    intros category p Hp. apply maintains_save; [done |].
    intros t. apply maintains_findOneAndUpdate; [done |].
    intros docs Hdocs.
    pose proof (kept_write (Backmarket.sync_filter p)
                  (Backmarket.sync_update category p t) docs
                  (λ old, scraped_update_key category p t old Hp)
                  (scraped_update_dom category p t Hp)) as Hw.
    destruct (Store.write _ _ docs) as [[pre d] post]. simpl in Hw.
    destruct (Store.collides _ _); [done |]. split; [done |].
    by eapply kept_trans. }
  destruct (H s (kept_refl _)) as (_ & Hk & _). exact Hk.
Qed.

(** ** The Newegg script *)

Section NeweggFacts.

Context (env : Env).
Implicit Types (Q : Event → Prop) (I : list Doc → Prop).

Lemma scrapeNewegg_unfold :
  Newegg.scrapeNewegg env =
  (browser ← launch env;
   try_finally (newegg_attempt env)
     (log (BrowserClose browser);; log Disconnect)).
Proof. reflexivity. Qed.




(** What passes the filter of the extraction has a name and a price above
    zero. *)
Lemma evaluate_products_filtered items product :
  product ∈ Newegg.evaluate_products items →
  Newegg.present (Newegg.name product) = true ∧
  Num.gt_zero (Newegg.price product) = true.
Proof.
  unfold Newegg.evaluate_products. intros [H _]%list_elem_of_filter.
  by apply andb_prop in H.
Qed.

Lemma maintains_newegg_save Q I product arrays :
  (Newegg.present (Newegg.name product) = true →
   Newegg.present (Newegg.image product) = true →
   ∀ t, maintains Q I (λ _, True)
          (findOneAndUpdate env (Newegg.sync_filter product)
             (Newegg.sync_update product t))) →
  maintains Q I (λ _, True) (Newegg.save env product arrays).
Proof.
  intros Hsync. unfold Newegg.save. destruct arrays as [saved errors].
  apply maintains_try_catch.
  - destruct (Newegg.present (Newegg.name product)) eqn:Hn; simpl;
      [| by apply maintains_ret].
    destruct (Num.truthy (Newegg.price product)); simpl;
      [| by apply maintains_ret].
    destruct (Newegg.present (Newegg.image product)) eqn:Hi; simpl;
      [| by apply maintains_ret].
    eapply maintains_bind.
    + apply (maintains_of_emits _ _ (λ _, True)); [apply emits_DateNow | done].
    + intros t _. eapply maintains_bind; [by apply Hsync |].
      intros d _. by apply maintains_ret.
  - intros e. by apply maintains_ret.
Qed.

Lemma maintains_newegg_attempt Q I :
  (∀ e, not_a_sync e → newegg_inside e → Q e) →
  (∀ product t,
     Newegg.present (Newegg.name product) = true →
     Num.gt_zero (Newegg.price product) = true →
     Newegg.present (Newegg.image product) = true →
     maintains Q I (λ _, True)
       (findOneAndUpdate env (Newegg.sync_filter product)
          (Newegg.sync_update product t))) →
  maintains Q I (λ _, True) (newegg_attempt env).
Proof.
  intros Hq Hsync. unfold newegg_attempt. apply maintains_try_catch.
  - eapply maintains_bind; [by apply maintains_log, Hq |].
    intros _ _. eapply maintains_bind.
    { apply (maintains_of_emits _ _ (λ _, True)); [| apply keeps_store_goto].
      apply emits_goto. intros ok. by apply Hq. }
    intros dom _. eapply maintains_bind.
    { unfold Newegg.waitForGrid.
      destruct (product_grid dom); [by apply (maintains_ret _ _ (λ _, True)) |].
      intros s Hs. split; [apply added_refl | done]. }
    intros items _. apply (maintains_bind _ _ (λ _, True)).
    { intros s Hs. unfold Newegg.connect.
      destruct (connect_ok env (now s)); simpl;
        (split; [apply added_emit; by apply Hq | done]). }
    intros _ _. eapply maintains_bind.
    { apply (maintains_for_of_acc _ _ (λ _, True)); [done |].
      intros product arrays Hin _. apply maintains_newegg_save.
      intros Hn Hi t. destruct (evaluate_products_filtered _ _ Hin) as [_ Hp].
      by apply Hsync. }
    intros [saved errors] _.
    eapply maintains_bind; [by apply maintains_log, Hq |].
    intros _ _. eapply maintains_bind; [by apply maintains_log, Hq |].
    intros _ _. destruct (decide (errors = [])); [by apply maintains_ret |].
    by apply maintains_log, Hq.
  - intros e. eapply maintains_bind; [by apply maintains_log, Hq |].
    intros _ _. intros s Hs. split; [apply added_refl | done].
Qed.

Lemma maintains_scrapeNewegg Q I :
  (∀ e, not_a_sync e → Q e) →
  (∀ product t,
     Newegg.present (Newegg.name product) = true →
     Num.gt_zero (Newegg.price product) = true →
     Newegg.present (Newegg.image product) = true →
     maintains Q I (λ _, True)
       (findOneAndUpdate env (Newegg.sync_filter product)
          (Newegg.sync_update product t))) →
  maintains Q I (λ _, True) (Newegg.scrapeNewegg env).
Proof.
  intros Hq Hsync. rewrite scrapeNewegg_unfold.
  apply (maintains_bind _ _ (λ _, True)).
  - intros s Hs. unfold launch.
    destruct (launch_ok env (now s)); simpl;
      (split; [apply added_emit; by apply Hq | done]).
  - intros browser _. apply maintains_try_finally.
    + apply maintains_newegg_attempt; [| done]. intros e He _. by apply Hq.
    + eapply maintains_bind; [by apply maintains_log, Hq |].
      intros _ _. by apply maintains_log, Hq.
Qed.

(** The key of what the script writes. *)
Lemma newegg_written_key product t (x : Doc) :
  prop x "sourceId" = VNull →
  Store.index_key (Newegg.sync_update product t ∪ x) = (VStr "newegg", VNull).
Proof.
  intros Hx. unfold Store.index_key, prop in *.
  rewrite (lookup_union_Some_l _ _ _ (VStr "newegg")) by done.
  rewrite lookup_union_r by done. by rewrite Hx.
Qed.

Lemma newegg_only_write product t docs :
  newegg_only docs →
  let '(pre, d, post) :=
    Store.write (Newegg.sync_filter product) (Newegg.sync_update product t) docs in
  Store.collides d (pre ++ post) = false → newegg_only (pre ++ d :: post).
Proof.
  intros [Hlen Hkeys]. unfold Store.write.
  destruct (Store.findOne _ docs) as [[[pre old] post] |] eqn:Hf.
  - apply findOne_Some in Hf as (-> & _ & _). intros _.
    rewrite length_app in Hlen. simpl in Hlen.
    destruct pre; [| simpl in Hlen; lia]. destruct post; [| simpl in Hlen; lia].
    apply Forall_cons in Hkeys as [Hold _]. split; [done |].
    constructor; [| done]. apply newegg_written_key.
    unfold Store.index_key in Hold. congruence.
  - assert (Hd : Store.index_key
                   (Newegg.sync_update product t ∪ Newegg.sync_filter product)
                 = (VStr "newegg", VNull)).
    { apply newegg_written_key. unfold Newegg.sync_filter, prop.
      by rewrite lookup_singleton_ne. }
    rewrite app_nil_r. destruct docs as [| d0 docs].
    + intros _. split; [done |]. by repeat constructor.
    + apply Forall_cons in Hkeys as [Hd0 _]. unfold Store.collides.
      rewrite Hd, fmap_cons, Hd0. intros Hc%bool_decide_eq_false.
      destruct Hc. by left.
Qed.

End NeweggFacts.

(** X9. Every upsert of the Newegg script is keyed on the url alone and
    carries a non-empty name, a price above zero and exactly one non-empty
    image: an item without a name, without a positive price or without an
    image never reaches the store. *)
Theorem newegg_syncs_complete env s :
  ∃ evs,
    trace (Newegg.scrapeNewegg env s).2 = evs ++ trace s ∧
    Forall newegg_sync_complete evs.
Proof.
  assert (H : maintains newegg_sync_complete (λ _, True) (λ _, True)
                (Newegg.scrapeNewegg env)).
  { apply maintains_scrapeNewegg; [by intros [] |].
    intros product t Hn Hp Hi.
    assert (Hq : ∀ ok, newegg_sync_complete
              (FindOneAndUpdate (Newegg.sync_filter product)
                 (Newegg.sync_update product t) ok)).
    { intros ok. split; [apply (newegg_sync_key product t) |].
      unfold Newegg.present in Hn, Hi.
      destruct (Newegg.name product) as [name |] eqn:En; [| done].
      destruct (Newegg.image product) as [image |] eqn:Ei; [| done].
      exists name, image, (Newegg.price product).
      apply negb_true_iff, String.eqb_neq in Hn, Hi.
      unfold Newegg.sync_update. rewrite En, Ei. by repeat split. }
    apply maintains_findOneAndUpdate; [by intros |].
    intros docs _. destruct (Store.write _ _ docs) as [[pre d] post].
    by destruct (Store.collides _ _). }
  destruct (H s I) as (Ha & _). exact Ha.
Qed.

(** X10. A catalog filled by the Newegg script alone never holds more than
    one record: the script writes the source tag 'newegg' and no
    identifier, so all its documents fall under one key of the unique
    index, and the upsert of a second url is refused. *)
Theorem newegg_holds_one_record env s :
  newegg_only (store s) →
  newegg_only (store (Newegg.scrapeNewegg env s).2).
Proof.
  intros Hs.
  assert (H : maintains (λ _, True) newegg_only (λ _, True)
                (Newegg.scrapeNewegg env)).
  { apply maintains_scrapeNewegg; [done |].
    intros product t _ _ _. apply maintains_findOneAndUpdate; [done |].
    intros docs Hdocs.
    pose proof (newegg_only_write product t docs Hdocs) as Hw.
    destruct (Store.write _ _ docs) as [[pre d] post].
    destruct (Store.collides _ _); [done |]. split; [done |]. by apply Hw. }
  destruct (H s Hs) as (_ & Hi & _). exact Hi.
Qed.

Lemma newegg_holds_one_record_witness :
  newegg_only
    (store (Newegg.scrapeNewegg
              (Examples.world Examples.pages_newegg Examples.accept_all)
              (fresh [])).2).
Proof.
  apply (newegg_holds_one_record
           (Examples.world Examples.pages_newegg Examples.accept_all) (fresh [])).
  split; [simpl; lia | constructor].
Defined.


(** ** Pages, walks and failed runs *)

Section PageFacts.

Context (env : Env).

(** One iteration of the loop over the links never throws, and adds one
    listing at most. *)
Lemma each_link_returns link products s :
  ∃ products',
    (Backmarket.each_link env link products s).1 = Return products' ∧
    (length products' ≤ S (length products))%nat.
Proof.
  unfold Backmarket.each_link, try_catch, mbind, M_bind.
  destruct (Backmarket.scrapeProduct env link s) as [[p | e] s1]; simpl.
  - exists (products ++ [p]). split; [done |]. rewrite length_app. simpl. lia.
  - exists products. split; [done | lia].
Qed.

Lemma links_loop_returns links products s :
  ∃ products',
    (for_of_acc links products (Backmarket.each_link env) s).1 = Return products' ∧
    (length products' ≤ length products + length links)%nat.
Proof.
  revert products s. induction links as [| link links IH]; intros products s; simpl.
  - exists products. split; [done | lia].
  - unfold mbind, M_bind.
    destruct (each_link_returns link products s) as (ps1 & Hr & Hl).
    destruct (Backmarket.each_link env link products s) as [r s1]. simpl in Hr.
    subst r. destruct (IH ps1 s1) as (ps2 & Hr2 & Hl2).
    exists ps2. split; [done | lia].
Qed.

(** The extraction of a page that does not load. *)
Lemma scrapeProduct_not_loaded url s h :
  this_browser s = Some h →
  navigate env (S (now s)) url = None →
  Backmarket.scrapeProduct env url s =
  (Throw (NavigationError url),
   emit (LogError ("Error scraping product from " +:+ url +:+ ":")
           (NavigationError url))
     (emit (Goto url false) (emit NewPage s))).
Proof.
  intros Hb Hnav.
  unfold Backmarket.scrapeProduct, try_catch, mbind, M_bind,
    Backmarket.this_browser_newPage, newPage, goto, log.
  rewrite Hb. cbv beta iota.
  change (now (emit NewPage s)) with (S (now s)). by rewrite Hnav.
Qed.

End PageFacts.

(** X12. The page opened for a listing is closed only when the extraction
    succeeds.  A successful extraction opens a page, loads the URL and
    closes the page; an extraction that throws (the page does not load, or
    the name or the price is missing) never closes the page it opened. *)
Theorem scrapeProduct_pages env url s :
  match (Backmarket.scrapeProduct env url s).1 with
  | Return _ =>
      trace (Backmarket.scrapeProduct env url s).2
      = PageClose :: Goto url true :: NewPage :: trace s
  | Throw _ =>
      ∃ evs,
        trace (Backmarket.scrapeProduct env url s).2 = evs ++ trace s ∧
        (PageClose ∉ evs) ∧
        (NewPage ∈ evs ↔ is_Some (this_browser s))
  end.
Proof.
  destruct (this_browser s) as [h |] eqn:Hb.
  - destruct (navigate env (S (now s)) url) as [dom |] eqn:Hnav.
    + destruct (truthy (prop (Backmarket.evaluate_product dom) "name")) eqn:Hn.
      * destruct (truthy (prop (Backmarket.evaluate_product dom) "price")) eqn:Hp.
        -- by rewrite (scrapeProduct_found env url s h dom Hb Hnav Hn Hp).
        -- rewrite (scrapeProduct_missing env url s h dom Hb Hnav) by auto.
           simpl. eexists [_; _; _]. split; [done |]. split.
           ++ rewrite !elem_of_cons, elem_of_nil. by intros [|[|[|]]].
           ++ split; [done |]. intros _. by right; right; left.
      * rewrite (scrapeProduct_missing env url s h dom Hb Hnav) by auto.
        simpl. eexists [_; _; _]. split; [done |]. split.
        -- rewrite !elem_of_cons, elem_of_nil. by intros [|[|[|]]].
        -- split; [done |]. intros _. by right; right; left.
    + rewrite (scrapeProduct_not_loaded env url s h Hb Hnav). simpl.
      eexists [_; _; _]. split; [done |]. split.
      * rewrite !elem_of_cons, elem_of_nil. by intros [|[|[|]]].
      * split; [done |]. intros _. by right; right; left.
  - unfold Backmarket.scrapeProduct, try_catch, mbind, M_bind,
      Backmarket.this_browser_newPage.
    rewrite Hb. simpl. eexists [_]. split; [done |]. split.
    + rewrite !elem_of_cons, elem_of_nil. by intros [|].
    + split; [| by intros []].
      rewrite !elem_of_cons, elem_of_nil. by intros [|].
Qed.

(** X13. A bad listing never aborts the category: when the listing page of
    a category loads, the walker returns, with at most one listing per
    collected link, each with a name and a price, and it leaves the
    catalog alone. *)
Theorem bad_listing_never_aborts env categoryUrl limit s h dom :
  this_browser s = Some h →
  navigate env (S (now s)) (Backmarket.baseUrl env +:+ categoryUrl) = Some dom →
  ∃ products,
    (Backmarket.scrapeCategory env categoryUrl limit s).1 = Return products ∧
    (length products
     ≤ length (Backmarket.collect_links limit (product_cards dom)))%nat ∧
    Forall listing products ∧
    store (Backmarket.scrapeCategory env categoryUrl limit s).2 = store s.
Proof.
  intros Hb Hnav.
  pose proof (scrapeCategory_emits env categoryUrl limit s) as [_ Hlist].
  pose proof (keeps_store_scrapeCategory env categoryUrl limit s) as Hstore.
  revert Hlist Hstore.
  rewrite (scrapeCategory_loaded env categoryUrl limit s h dom Hb Hnav).
  destruct (links_loop_returns env
              (Backmarket.collect_links limit (product_cards dom)) []
              (emit PageClose
                 (emit (Goto (Backmarket.baseUrl env +:+ categoryUrl) true)
                    (emit NewPage s)))) as (ps & Hr & Hl).
  destruct (for_of_acc _ _ _ _) as [r s1]. simpl in Hr. subst r. simpl.
  intros Hlist Hstore. by exists ps.
Qed.

Lemma bad_listing_never_aborts_witness :
  ∃ products,
    (Backmarket.scrapeCategory
       (Examples.world Examples.pages_missing_price Examples.accept_all)
       "/us/en-us/c/smartphones" 10 (Examples.running [])).1 = Return products ∧
    (length products
     ≤ length (Backmarket.collect_links 10
                 (product_cards (Examples.cards [Examples.iphone; Examples.broken]))))%nat ∧
    Forall listing products ∧
    store (Backmarket.scrapeCategory
             (Examples.world Examples.pages_missing_price Examples.accept_all)
             "/us/en-us/c/smartphones" 10 (Examples.running [])).2
    = store (Examples.running []).
Proof.
  apply (bad_listing_never_aborts
           (Examples.world Examples.pages_missing_price Examples.accept_all)
           "/us/en-us/c/smartphones" 10 (Examples.running []) 0%nat
           (Examples.cards [Examples.iphone; Examples.broken]));
    reflexivity.
Defined.

(** X14. When the browser does not start, the run of a fresh scraper logs
    the error and ends: no page is opened, nothing is written, the catalog
    is what it was, and no browser is closed. *)
Theorem launch_failure_ends_run env docs :
  launch_ok env 0 = false →
  Backmarket.scrapeAndSave env (fresh docs) =
  (Return (),
   {| this_browser := None; store := docs;
      trace := [LogError "Error in scraping process:" LaunchError; Launch None] |}).
Proof.
  intros Hl. by rewrite (scrapeAndSave_not_launched env (fresh docs) Hl).
Qed.

Lemma launch_failure_ends_run_witness :
  Backmarket.scrapeAndSave no_browser (fresh [Examples.old_iphone]) =
  (Return (),
   {| this_browser := None; store := [Examples.old_iphone];
      trace := [LogError "Error in scraping process:" LaunchError; Launch None] |}).
Proof.
  apply (launch_failure_ends_run no_browser [Examples.old_iphone]). reflexivity.
Defined.


(** ** Create or update *)

(** X16. The upsert of a listing creates its record on the first sync and
    updates it in place afterwards.  On a catalog that respects the unique
    index, an accepted upsert appends a record made of the update when no
    record has the listing's key; when one has, it is replaced, at its
    place, by the update's fields over the old record's: the fields the
    update does not carry are kept. *)
Theorem upsert_creates_or_updates env category p sid s :
  p !! "source" = Some (VStr "Backmarket") →
  p !! "sourceId" = Some (VStr sid) →
  Store.unique (store s) →
  accepts env category p s →
  match Store.under_key (VStr "Backmarket") (VStr sid) (store s) with
  | [] =>
      store (Backmarket.save env category p s).2
      = store s ++ [Backmarket.sync_update category p (Date_now env (now s))
                      ∪ Backmarket.sync_filter p]
  | old :: _ =>
      Store.under_key (VStr "Backmarket") (VStr sid)
        (store (Backmarket.save env category p s).2)
      = [Backmarket.sync_update category p (Date_now env (now s)) ∪ old] ∧
      length (store (Backmarket.save env category p s).2) = length (store s)
  end.
Proof.
  intros Hs Hi Hu Hacc.
  assert (Hk : prop p "sourceId" = VStr sid) by (unfold prop; by rewrite Hi).
  pose proof (backmarket_write category p (Date_now env (now s)) sid (store s)
                Hs Hi Hu) as Hw.
  unfold Backmarket.save, try_catch, mbind, M_bind, DateNow, findOneAndUpdate.
  simpl. unfold accepts in Hacc. unfold Store.write in *.
  destruct (Store.findOne _ (store s)) as [[[pre o] post] |] eqn:Hf.
  - destruct Hw as (Hc & _ & Hunder). rewrite Hacc, Hc. simpl.
    apply findOne_Some in Hf as (Hst & Hm & _).
    apply sync_filter_matches in Hm. rewrite Hk in Hm.
    rewrite Hst in *. unfold Store.under_key at 1.
    rewrite (filter_key_unique Store.index_key pre o post _ Hm Hu).
    split; [done |]. rewrite !length_app. done.
  - destruct Hw as (Hc & _ & _). rewrite Hacc, Hc. simpl.
    apply findOne_None in Hf. unfold Store.under_key.
    rewrite filter_none; [done |].
    eapply Forall_impl; [exact Hf |]. intros x Hx Hkey.
    assert (Store.matches (Backmarket.sync_filter p) x = true) as Hm
      by (apply sync_filter_matches; by rewrite Hk).
    congruence.
Qed.

Lemma upsert_creates_or_updates_witness :
  Store.under_key (VStr "Backmarket") (VStr "iphone-12")
    (store (Backmarket.save (Examples.world [] Examples.accept_all) "Smartphones"
              (Examples.iphone_at "$999.50")
              (Examples.running [Examples.old_iphone])).2)
  = [Backmarket.sync_update "Smartphones" (Examples.iphone_at "$999.50")
       (Date_now (Examples.world [] Examples.accept_all)
          (now (Examples.running [Examples.old_iphone])))
     ∪ Examples.old_iphone] ∧
  length (store (Backmarket.save (Examples.world [] Examples.accept_all) "Smartphones"
                   (Examples.iphone_at "$999.50")
                   (Examples.running [Examples.old_iphone])).2)
  = length (store (Examples.running [Examples.old_iphone])).
Proof.
  apply (upsert_creates_or_updates (Examples.world [] Examples.accept_all)
           "Smartphones" (Examples.iphone_at "$999.50") "iphone-12"
           (Examples.running [Examples.old_iphone])).
  - reflexivity.
  - reflexivity.
  - apply (bool_decide_unpack _). vm_compute. exact I.
  - reflexivity.
Defined.

(** ** The runner *)

Section RunnerFacts.

Context (env : Env).

(** The driver contains every error: it returns from any state. *)
Lemma scrapeAndSave_returns s :
  (Backmarket.scrapeAndSave env s).1 = Return ().
Proof.
  destruct (launch_ok env (now s)) eqn:Hl.
  - by rewrite (scrapeAndSave_launched env s Hl).
  - rewrite (scrapeAndSave_not_launched env s Hl).
    unfold Backmarket.close. simpl. by destruct (this_browser s).
Qed.

End RunnerFacts.

(** X17. [runScrapers] never throws, and its last two steps are always the
    disconnect from the database and its log line.  When the connection
    fails no scraper runs.  When the Newegg scraper throws, the error is
    logged and the Backmarket scraper is never started.  When it returns,
    the Backmarket scraper runs, from a newly constructed scraper. *)
Theorem runScrapers_paths env neweggScraper s :
  (Runner.runScrapers env neweggScraper s).1 = Return () ∧
  (∃ tr, trace (Runner.runScrapers env neweggScraper s).2
         = LogInfo "Disconnected from MongoDB" :: Disconnect :: tr) ∧
  (connect_ok env (now s) = false →
   (Runner.runScrapers env neweggScraper s).2
   = emit (LogInfo "Disconnected from MongoDB")
       (emit Disconnect
          (emit (LogError "Error running scrapers:" ConnectError)
             (emit (Connect false) s)))) ∧
  (∀ e s1,
     connect_ok env (now s) = true →
     neweggScraper
       (emit (LogInfo "Starting Newegg scraper")
          (emit (LogInfo "Connected to MongoDB") (emit (Connect true) s)))
     = (Throw e, s1) →
     (Runner.runScrapers env neweggScraper s).2
     = emit (LogInfo "Disconnected from MongoDB")
         (emit Disconnect (emit (LogError "Error running scrapers:" e) s1))) ∧
  (∀ s1,
     connect_ok env (now s) = true →
     neweggScraper
       (emit (LogInfo "Starting Newegg scraper")
          (emit (LogInfo "Connected to MongoDB") (emit (Connect true) s)))
     = (Return (), s1) →
     (Runner.runScrapers env neweggScraper s).2
     = emit (LogInfo "Disconnected from MongoDB")
         (emit Disconnect
            (emit (LogInfo "Completed Backmarket scraping")
               (Backmarket.scrapeAndSave env
                  {| this_browser := None; store := store s1;
                     trace := LogInfo "Starting Backmarket scraper"
                              :: LogInfo "Completed Newegg scraping"
                              :: trace s1 |}).2))).
Proof.
  unfold Runner.runScrapers, try_finally, try_catch, mbind, M_bind,
    Newegg.connect, log, Runner.newBackmarketScraper.
  destruct (connect_ok env (now s)) eqn:Hc; simpl.
  2:{ split; [done |]. split; [eexists; reflexivity |]. split; [done |].
      split; [by intros | by intros]. }
  destruct (neweggScraper _) as [[[] | e] s1]; simpl.
  - pose proof (scrapeAndSave_returns env
                  {| this_browser := None; store := store s1;
                     trace := LogInfo "Starting Backmarket scraper"
                              :: LogInfo "Completed Newegg scraping"
                              :: trace s1 |}) as Hr.
    unfold emit at 1 2. simpl.
    destruct (Backmarket.scrapeAndSave env _) as [r s2] eqn:Hrun.
    simpl in Hr. subst r. simpl.
    split; [done |]. split; [eexists; reflexivity |]. split; [done |].
    split; [by intros |]. intros s1' _ [= <-]. by rewrite Hrun.
  - split; [done |]. split; [eexists; reflexivity |]. split; [done |].
    split; [| by intros]. by intros e' s1' _ [= <- <-].
Qed.

Lemma runScrapers_paths_witness :
  (Runner.runScrapers no_database (mret ()) (fresh [])).2
  = emit (LogInfo "Disconnected from MongoDB")
      (emit Disconnect
         (emit (LogError "Error running scrapers:" ConnectError)
            (emit (Connect false) (fresh [])))) ∧
  (Runner.runScrapers no_browser (throw SelectorTimeout) (fresh [])).2
  = emit (LogInfo "Disconnected from MongoDB")
      (emit Disconnect
         (emit (LogError "Error running scrapers:" SelectorTimeout)
            (emit (LogInfo "Starting Newegg scraper")
               (emit (LogInfo "Connected to MongoDB")
                  (emit (Connect true) (fresh [])))))) ∧
  (Runner.runScrapers no_browser (mret ()) (fresh [])).2
  = emit (LogInfo "Disconnected from MongoDB")
      (emit Disconnect
         (emit (LogInfo "Completed Backmarket scraping")
            (Backmarket.scrapeAndSave no_browser
               {| this_browser := None; store := [];
                  trace := [ LogInfo "Starting Backmarket scraper";
                             LogInfo "Completed Newegg scraping";
                             LogInfo "Starting Newegg scraper";
                             LogInfo "Connected to MongoDB";
                             Connect true ] |}).2)).
Proof.
  split; [| split].
  - apply (proj1 (proj2 (proj2 (runScrapers_paths no_database (mret ()) (fresh []))))).
    reflexivity.
  - apply (proj1 (proj2 (proj2 (proj2
             (runScrapers_paths no_browser (throw SelectorTimeout) (fresh []))))));
      reflexivity.
  - apply (proj2 (proj2 (proj2 (proj2
             (runScrapers_paths no_browser (mret ()) (fresh [])))))
             (emit (LogInfo "Starting Newegg scraper")
                (emit (LogInfo "Connected to MongoDB")
                   (emit (Connect true) (fresh [])))));
      reflexivity.
Defined.

(** ** The derived rating fields *)

(** X18. The hook that recomputes the derived rating fields before a save
    leaves the ratings alone and is idempotent.  With one rating at least
    it sets the review count to the number of ratings, and for a single
    rating with a whole score from 1 to 5 the average is that score.  With
    no rating it changes nothing: a product whose ratings are all gone
    keeps the average and the count it had. *)
Theorem pre_save_derived this :
  ProductModel.ratings (ProductModel.pre_save this) = ProductModel.ratings this ∧
  ProductModel.pre_save (ProductModel.pre_save this) = ProductModel.pre_save this ∧
  (ProductModel.ratings this ≠ [] →
   ProductModel.numReviews (ProductModel.pre_save this)
   = Num.of_Z (Z.of_nat (length (ProductModel.ratings this)))) ∧
  (ProductModel.ratings this = [] → ProductModel.pre_save this = this) ∧
  (∀ z, 1 ≤ z ≤ 5 →
        ProductModel.ratings this = [ProductModel.scored z] →
        ProductModel.averageRating (ProductModel.pre_save this) = Num.of_Z z).
Proof.
  assert (Hr : ProductModel.ratings (ProductModel.pre_save this)
               = ProductModel.ratings this).
  { unfold ProductModel.pre_save. by destruct (0 <? _)%nat. }
  split; [done |]. split; [| split; [| split]].
  - unfold ProductModel.pre_save at 1. rewrite Hr.
    unfold ProductModel.pre_save. by destruct (0 <? _)%nat.
  - intros Hne. unfold ProductModel.pre_save.
    destruct (ProductModel.ratings this); [done | done].
  - intros Hnil. unfold ProductModel.pre_save. by rewrite Hnil.
  - intros z Hz Hone. unfold ProductModel.pre_save. rewrite Hone. simpl.
    assert (z = 1 ∨ z = 2 ∨ z = 3 ∨ z = 4 ∨ z = 5) as [-> | [-> | [-> | [-> | ->]]]]
      by lia; by vm_compute.
Qed.

Lemma pre_save_derived_witness :
  ProductModel.numReviews
    (ProductModel.pre_save
       {| ProductModel.ratings := [ProductModel.scored 4];
          ProductModel.averageRating := Num.zero;
          ProductModel.numReviews := Num.zero |})
  = Num.of_Z 1 ∧
  ProductModel.pre_save
    {| ProductModel.ratings := [];
       ProductModel.averageRating := Num.of_Z 4;
       ProductModel.numReviews := Num.of_Z 1 |}
  = {| ProductModel.ratings := [];
       ProductModel.averageRating := Num.of_Z 4;
       ProductModel.numReviews := Num.of_Z 1 |} ∧
  ProductModel.averageRating
    (ProductModel.pre_save
       {| ProductModel.ratings := [ProductModel.scored 4];
          ProductModel.averageRating := Num.zero;
          ProductModel.numReviews := Num.zero |})
  = Num.of_Z 4.
Proof.
  split; [| split].
  - apply (proj1 (proj2 (proj2 (pre_save_derived
             {| ProductModel.ratings := [ProductModel.scored 4];
                ProductModel.averageRating := Num.zero;
                ProductModel.numReviews := Num.zero |})))). done.
  - apply (proj1 (proj2 (proj2 (proj2 (pre_save_derived
             {| ProductModel.ratings := [];
                ProductModel.averageRating := Num.of_Z 4;
                ProductModel.numReviews := Num.of_Z 1 |}))))). reflexivity.
  - apply (proj2 (proj2 (proj2 (proj2 (pre_save_derived
             {| ProductModel.ratings := [ProductModel.scored 4];
                ProductModel.averageRating := Num.zero;
                ProductModel.numReviews := Num.zero |})))) 4);
      [lia | reflexivity].
Defined.

(** ** Accepted upserts stay in the catalog *)

Section PreservesRules.

Context {A B : Type} (J : State → Prop).

Lemma preserves_ret (P : A → Prop) a : P a → preserves J P (mret a).
Proof. intros Hp s Hs. by split. Qed.

Lemma preserves_throw (P : A → Prop) e : preserves J P (throw e).
Proof. intros s Hs. by split. Qed.

Lemma preserves_bind (P : A → Prop) (R : B → Prop) (m : M A) (k : A → M B) :
  preserves J P m → (∀ a, P a → preserves J R (k a)) → preserves J R (m ≫= k).
Proof.
  intros Hm Hk s Hs. unfold mbind, M_bind.
  destruct (Hm s Hs) as [Hj Hp]. destruct (m s) as [[a | e] s1]; simpl in *.
  - by apply Hk.
  - by split.
Qed.

Lemma preserves_try_catch (P : A → Prop) (m : M A) (h : error → M A) :
  preserves J P m → (∀ e, preserves J P (h e)) → preserves J P (try_catch m h).
Proof.
  intros Hm Hh s Hs. unfold try_catch.
  destruct (Hm s Hs) as [Hj Hp]. destruct (m s) as [[a | e] s1]; simpl in *.
  - by split.
  - by apply Hh.
Qed.

Lemma preserves_try_finally (P : A → Prop) (m : M A) (f : M unit) :
  preserves J P m → preserves J (λ _, True) f → preserves J P (try_finally m f).
Proof.
  intros Hm Hf s Hs. unfold try_finally.
  destruct (Hm s Hs) as [Hj Hp]. destruct (m s) as [r s1]; simpl in *.
  destruct (Hf s1 Hj) as [Hj2 _]. destruct (f s1) as [[[] | e] s2]; simpl in *.
  - by split.
  - by split.
Qed.

End PreservesRules.

Section PreservesLoops.

Context {A : Type} (J : State → Prop).

Lemma preserves_for_of (xs : list A) (body : A → M unit) :
  (∀ x, x ∈ xs → preserves J (λ _, True) (body x)) →
  preserves J (λ _, True) (for_of xs body).
Proof.
  induction xs as [| x xs IH]; intros H; simpl.
  - by apply preserves_ret.
  - eapply preserves_bind.
    + apply H. by left.
    + intros _ _. apply IH. intros y Hy. apply H. by right.
Qed.

End PreservesLoops.

Section CommittedFacts.

Context (env : Env).

(** Steps that leave the store alone and make no upsert lose nothing. *)
Lemma committed_added s s' :
  committed s → store s' = store s → added not_a_sync s s' → committed s'.
Proof.
  intros [Hu Hc] Hst (evs & Htr & Hevs). unfold committed.
  rewrite Hst, Htr. split; [done |].
  intros f u [Hin | Hin]%elem_of_app; [| by apply (Hc f)].
  rewrite Forall_forall in Hevs. by destruct (Hevs _ Hin).
Qed.

Lemma preserves_of_emits {A} Q (P : A → Prop) (m : M A) :
  emits Q P m → (∀ e, Q e → not_a_sync e) → keeps_store m →
  preserves committed P m.
Proof.
  intros He Hq Hk s Hs. destruct (He s) as [Ha Hp]. split; [| done].
  apply (committed_added s); [done | apply Hk |].
  by apply (added_weaken Q).
Qed.

Lemma preserves_log e :
  not_a_sync e → preserves committed (λ _, True) (log e).
Proof.
  intros He s Hs. split; [| done].
  apply (committed_added s); [done | done |]. by apply added_emit.
Qed.

Lemma browsing_not_a_sync e : browsing e → not_a_sync e.
Proof. by destruct e. Qed.

(** The upsert of a listing: a record the catalog had under a key is still
    there, and an accepted upsert has a record under its key. *)
Lemma preserves_save category p :
  listing p → preserves committed (λ _, True) (Backmarket.save env category p).
Proof.
  intros (_ & _ & Hs & sid & Hi) s [Hu Hc].
  split; [| by destruct (Backmarket.save env category p s).1].
  pose proof (backmarket_write category p (Date_now env (now s)) sid (store s)
                Hs Hi Hu) as Hw.
  pose proof (write_frame (Backmarket.sync_filter p)
                (Backmarket.sync_update category p (Date_now env (now s)))
                (store s)) as Hf.
  assert (Hkey : Store.index_key
                   (Backmarket.sync_update category p (Date_now env (now s)))
                 = (VStr "Backmarket", VStr sid)).
  { unfold Store.index_key, prop. by rewrite !sync_update_lookup, Hs, Hi. }
  assert (Hfailed : ∀ e,
            committed
              (emit (LogError ("Error saving product "
                               +:+ Backmarket.name_text p +:+ ":") e)
                 (emit (FindOneAndUpdate (Backmarket.sync_filter p)
                          (Backmarket.sync_update category p
                             (Date_now env (now s))) false) s))).
  { intros e. split; [done |]. simpl. intros f u Hin.
    apply elem_of_cons in Hin as [Hin | Hin]; [done |].
    apply elem_of_cons in Hin as [Hin | Hin]; [done |]. by apply (Hc f). }
  unfold Backmarket.save, try_catch, mbind, M_bind, DateNow, findOneAndUpdate.
  simpl.
  destruct (Store.write _ _ (store s)) as [[pre d] post].
  destruct Hw as (_ & Hu' & Hunder).
  destruct (store_rejects env _ _ _); [apply Hfailed |].
  destruct (Store.collides d (pre ++ post)); [apply Hfailed |].
  simpl. split; [done |]. simpl.
  assert (Hd : Store.index_key d = (VStr "Backmarket", VStr sid)).
  { assert (d ∈ Store.under_key (VStr "Backmarket") (VStr sid) (pre ++ d :: post))
      as Hin by (rewrite Hunder; by left).
    unfold Store.under_key in Hin. by apply list_elem_of_filter in Hin as [Hin _]. }
  intros f u Hin. apply elem_of_cons in Hin as [Hin | Hin].
  - injection Hin as -> ->. rewrite Hkey, <- Hd.
    apply list_elem_of_fmap_2. rewrite elem_of_app, elem_of_cons. by right; left.
  - specialize (Hc f u Hin). destruct Hf as (old & Hst & _ & Hold).
    rewrite Hst in Hc. rewrite !fmap_app, !elem_of_app in Hc.
    rewrite fmap_app, fmap_cons, elem_of_app, elem_of_cons.
    destruct Hc as [Hc | [Hc | Hc]]; [by left | | by right; right].
    destruct Hold as [-> | (o & -> & Hm & _)].
    + by apply elem_of_nil in Hc.
    + apply sync_filter_matches in Hm. right; left.
      rewrite fmap_cons in Hc. apply list_elem_of_singleton in Hc as ->.
      rewrite Hm, Hd. unfold prop. by rewrite Hi.
Qed.

Lemma preserves_scrapeAndSave :
  preserves committed (λ _, True) (Backmarket.scrapeAndSave env).
Proof.
  unfold Backmarket.scrapeAndSave. apply preserves_try_finally.
  - apply preserves_try_catch.
    + apply (preserves_bind _ (λ _, True)).
      * intros s Hs. split; [| by destruct (Backmarket.initialize env s) as [[] ?]].
        unfold Backmarket.initialize, launch.
        destruct (launch_ok env (now s)); simpl.
        -- apply (committed_added s); [done | done |].
           exists [Launch (Some (now s))]. split; [done | by constructor].
        -- apply (committed_added s); [done | done |]. by apply added_emit.
      * intros _ _. apply preserves_for_of. intros c _.
        unfold Backmarket.each_category.
        eapply preserves_bind; [by apply preserves_log |].
        intros _ _. eapply preserves_bind.
        { apply (preserves_of_emits browsing);
            [apply scrapeCategory_emits | apply browsing_not_a_sync
             | apply keeps_store_scrapeCategory]. }
        intros products Hps. eapply preserves_bind.
        -- apply preserves_for_of. intros p Hp. apply preserves_save.
           rewrite Forall_forall in Hps. by apply Hps.
        -- intros _ _. by apply preserves_log.
    + intros e. by apply preserves_log.
  - intros s Hs. split; [| by destruct (Backmarket.close s) as [[] ?]].
    unfold Backmarket.close. destruct (this_browser s); simpl; [| done].
    apply (committed_added s); [done | done |]. by apply added_emit.
Qed.

End CommittedFacts.

(** X19. No upsert the store took is lost during a Backmarket run.  When
    the catalog respects the unique index and has a record under the key
    of every upsert accepted so far, then after the run, whatever failed
    in it, the index still holds and every upsert accepted before or
    during the run has exactly one record under its key. *)
Theorem accepted_upserts_never_lost env s :
  Store.unique (store s) →
  (∀ filter update,
     FindOneAndUpdate filter update true ∈ trace s →
     Store.index_key update ∈ Store.index_key <$> store s) →
  Store.unique (store (Backmarket.scrapeAndSave env s).2) ∧
  ∀ filter update,
    FindOneAndUpdate filter update true ∈ trace (Backmarket.scrapeAndSave env s).2 →
    ∃ d, Store.under_key (prop update "source") (prop update "sourceId")
           (store (Backmarket.scrapeAndSave env s).2) = [d].
Proof.
  intros Hu Hc.
  destruct (preserves_scrapeAndSave env s (conj Hu Hc)) as [[Hu' Hc'] _].
  split; [done |]. intros f u Hin.
  pose proof (Hc' f u Hin) as Hk.
  apply list_elem_of_fmap in Hk as (d & Hd & Hel).
  apply list_elem_of_split in Hel as (l1 & l2 & Hst).
  exists d. rewrite Hst in Hu' |- *. unfold Store.under_key.
  apply filter_key_unique; [| done]. by rewrite <- Hd.
Qed.

Lemma accepted_upserts_never_lost_witness :
  Store.unique
    (store (Backmarket.scrapeAndSave
              (Examples.world Examples.pages_missing_price Examples.accept_all)
              (fresh [Examples.old_iphone])).2) ∧
  ∀ filter update,
    FindOneAndUpdate filter update true
      ∈ trace (Backmarket.scrapeAndSave
                 (Examples.world Examples.pages_missing_price Examples.accept_all)
                 (fresh [Examples.old_iphone])).2 →
    ∃ d, Store.under_key (prop update "source") (prop update "sourceId")
           (store (Backmarket.scrapeAndSave
                     (Examples.world Examples.pages_missing_price Examples.accept_all)
                     (fresh [Examples.old_iphone])).2) = [d].
Proof.
  apply (accepted_upserts_never_lost
           (Examples.world Examples.pages_missing_price Examples.accept_all)
           (fresh [Examples.old_iphone])).
  - apply (bool_decide_unpack _). vm_compute. exact I.
  - intros filter update Hin. by apply elem_of_nil in Hin.
Defined.
